(** * OmniBazaar infographic generators: model and verified properties

    Shallow embedding of [create_infographic.py] (the "yield" infographic)
    and [create_features_infographic.py] (the "features" infographic).

    Part I holds the definitions: the Python built-ins the scripts rely on
    ([str.lstrip], slicing, [int(s, 16)], binary64 arithmetic), the
    operations of the imaging library they call (Pillow), and the scripts'
    own functions.  Part II holds the lemmas. *)

From Stdlib Require Import ZArith QArith Qround Qpower Qreduction.
From Stdlib Require Import Bool List String Ascii Lia Lqa Morphisms SpecFloat.
Import ListNotations.

Local Open Scope Z_scope.

(* ================================================================== *)
(** * Part I: definitions *)
(* ================================================================== *)

(** ** Python built-ins *)

Module Py.

(** A Python [str] is modelled as a sequence of 8-bit characters, that is
    of code points 0..255; text that is only handed to the imaging library
    is kept as its UTF-8 bytes. *)

Definition code (c : ascii) : Z := Z.of_N (N_of_ascii c).

(** [s.lstrip(chars)] for a one-character [chars]. *)
Fixpoint lstrip (ch : ascii) (s : string) : string :=
  match s with
  | String c s' => if Ascii.eqb c ch then lstrip ch s' else s
  | EmptyString => s
  end.

(** [s[i:j]] for non-negative [i <= j]: clipped at the end of [s]. *)
Definition slice (s : string) (i j : nat) : string :=
  String.substring i (j - i) s.

(** Characters that [int] skips around a literal: ASCII white space, and
    the two other characters below 256 that Python counts as spaces
    (NEL and the no-break space). *)
Definition is_space (c : ascii) : bool :=
  let n := code c in
  ((9 <=? n) && (n <=? 13)) || (n =? 32) || (n =? 133) || (n =? 160).

(** Value of a character as a digit in bases up to 36, as [int] reads it. *)
Definition digit_value (c : ascii) : option Z :=
  let n := code c in
  if (48 <=? n) && (n <=? 57) then Some (n - 48)
  else if (97 <=? n) && (n <=? 122) then Some (n - 87)
  else if (65 <=? n) && (n <=? 90) then Some (n - 55)
  else None.

Definition hex_digit (c : ascii) : option Z :=
  match digit_value c with
  | Some d => if d <? 16 then Some d else None
  | None => None
  end.

Definition is_hex (c : ascii) : bool :=
  match hex_digit c with Some _ => true | None => false end.

Fixpoint skip_spaces (s : string) : string :=
  match s with
  | String c s' => if is_space c then skip_spaces s' else s
  | EmptyString => s
  end.

(** The digit loop of [int(s, 16)]: hexadecimal digits, with single
    underscores allowed between them.  Returns the value read and the
    rest of the string; [None] is a syntax error. *)
Fixpoint scan_digits (s : string) (prev_underscore : bool) (acc : Z)
  : option (Z * string) :=
  match s with
  | String c s' =>
      if Ascii.eqb c "_" then
        if prev_underscore then None else scan_digits s' true acc
      else
        match hex_digit c with
        | Some d => scan_digits s' false (16 * acc + d)
        | None => if prev_underscore then None else Some (acc, s)
        end
  | EmptyString => if prev_underscore then None else Some (acc, s)
  end.

Definition strip_sign (s : string) : Z * string :=
  match s with
  | String "+" s' => (1, s')
  | String "-" s' => (-1, s')
  | _ => (1, s)
  end.

Definition strip_0x (s : string) : string :=
  match s with
  | String "0" (String x s') =>
      if Ascii.eqb x "x" || Ascii.eqb x "X" then
        match s' with
        | String "_" s'' => s''
        | _ => s'
        end
      else s
  | _ => s
  end.

(** [int(s, 16)]: [Some v] is the integer returned, [None] stands for
    [ValueError]. *)
Definition int16 (s : string) : option Z :=
  let '(sign, s) := strip_sign (skip_spaces s) in
  let s := strip_0x s in
  match s with
  | String c _ =>
      if is_hex c then
        match scan_digits s false 0 with
        | Some (v, rest) =>
            match skip_spaces rest with
            | EmptyString => Some (sign * v)
            | String _ _ => None
            end
        | None => None
        end
      else None
  | EmptyString => None
  end.

(** [s.split(sep)] for a one-character [sep]. *)
Fixpoint split (sep : ascii) (s : string) : list string :=
  match s with
  | EmptyString => [EmptyString]
  | String c s' =>
      if Ascii.eqb c sep then EmptyString :: split sep s'
      else match split sep s' with
           | p :: ps => String c p :: ps
           | [] => [String c EmptyString]
           end
  end.

(** [range(n)] *)
Definition range (n : Z) : list Z := List.map Z.of_nat (List.seq 0 (Z.to_nat n)).

(** [enumerate(l)] *)
Fixpoint enumerate_from {A : Type} (i : Z) (l : list A) : list (Z * A) :=
  match l with
  | [] => []
  | a :: l' => (i, a) :: enumerate_from (i + 1) l'
  end.

Definition enumerate {A : Type} (l : list A) : list (Z * A) := enumerate_from 0 l.

(** [l[i]]: a negative index counts from the end; [None] stands for
    [IndexError]. *)
Definition index {A : Type} (l : list A) (i : Z) : option A :=
  let n := Z.of_nat (List.length l) in
  let k := if i <? 0 then n + i else i in
  if (0 <=? k) && (k <? n) then List.nth_error l (Z.to_nat k) else None.

(** [len(l)] *)
Definition len {A : Type} (l : list A) : Z := Z.of_nat (List.length l).

(** *** Floats

    A Python [float] is an IEEE-754 binary64 number.  The scripts only
    produce finite values of small magnitude, so a float is modelled by
    the rational it denotes, and every arithmetic operation is the exact
    operation followed by [round]: rounding to the nearest number with a
    53-bit significand and an exponent of at least [emin], ties going to
    the even significand.  (Infinities, NaN and [OverflowError] cannot
    arise from the operations below on the operands the scripts use,
    which stay below 2^10 in magnitude; signed zeros are identified, and
    they convert to the same integer.) *)

Module Float.
Local Open Scope Q_scope.

Definition pow2 (e : Z) : Q := 2 ^ e.

(** [floor (log2 x)] for [x > 0]. *)
Definition ilog2 (x : Q) : Z :=
  let l := (Z.log2 (Qnum x) - Z.log2 (Zpos (Qden x)))%Z in
  if Qle_bool (pow2 l) x then l else (l - 1)%Z.

Definition prec : Z := 53.
Definition emin : Z := -1074.

(** Exponent of the last significand bit of a number of magnitude
    [2^l <= x < 2^(l+1)]. *)
Definition fexp (l : Z) : Z := Z.max (l + 1 - prec) emin.

Definition round_half_even (x : Q) : Z :=
  let n := Qfloor x in
  match Qcompare (x - inject_Z n) (1 # 2) with
  | Lt => n
  | Gt => (n + 1)%Z
  | Eq => if Z.even n then n else (n + 1)%Z
  end.

Definition round_pos (x : Q) : Q :=
  let e := fexp (ilog2 x) in
  Qred (inject_Z (round_half_even (x / pow2 e)) * pow2 e).

Definition round (x : Q) : Q :=
  match Qnum x with
  | Z0 => 0
  | Zpos _ => round_pos x
  | Zneg _ => - round_pos (- x)
  end.

(** [float(n)], as done implicitly when an [int] meets a [float]. *)
Definition of_int (n : Z) : Q := round (inject_Z n).

(** [a / b] on two [int]s, [b] non-zero: the correctly rounded quotient. *)
Definition truediv (a b : Z) : Q := round (inject_Z a / inject_Z b).

Definition mul (x y : Q) : Q := round (x * y).
Definition add (x y : Q) : Q := round (x + y).

(** [int(x)]: truncation towards zero. *)
Definition to_int (x : Q) : Z := if Qle_bool 0 x then Qfloor x else Qceiling x.

End Float.

End Py.

(** ** Colour utility ([hex_to_rgb], the same in both scripts) *)

Definition RGB : Type := Z * Z * Z.

Definition hex_to_rgb (hex_color : string) : option RGB :=
  let hex_color := Py.lstrip "#" hex_color in
  match Py.int16 (Py.slice hex_color 0 2) with
  | Some r =>
      match Py.int16 (Py.slice hex_color 2 4) with
      | Some g =>
          match Py.int16 (Py.slice hex_color 4 6) with
          | Some b => Some (r, g, b)
          | None => None
          end
      | None => None
      end
  | None => None
  end.


(** Binding in the [option] monad: [None] is a raised exception. *)
Declare Scope opt_scope.
Delimit Scope opt_scope with opt.
Notation "x <- e ;; k" := (match e with Some x => k | None => None end)
  (at level 61, e at next level, right associativity, only parsing) : opt_scope.
Local Open Scope opt_scope.

(** ** The imaging library (Pillow)

    Raster images are functions from pixel coordinates to pixel values,
    meaningful inside [0, width) x [0, height). *)

Module Pillow.

Definition Box : Type := Z * Z * Z * Z.
Definition RGBA : Type := Z * Z * Z * Z.

Record Image (A : Type) : Type := mkImage {
  width : Z;
  height : Z;
  pixel : Z -> Z -> A
}.
Arguments mkImage {A} _ _ _.
Arguments width {A} _.
Arguments height {A} _.
Arguments pixel {A} _ _ _.

Definition size {A : Type} (im : Image A) : Z * Z := (width im, height im).

(** [Image.new(mode, size, color)]; a negative dimension is a
    [ValueError]. *)
Definition new {A : Type} (size : Z * Z) (color : A) : option (Image A) :=
  let '(w, h) := size in
  if (w <? 0) || (h <? 0) then None else Some (mkImage w h (fun _ _ => color)).

(** What the scripts leave to the library: the pixels an ellipse covers
    for a given bounding box; whether a box whose second corner lies
    left of or above the first is refused with [ValueError] (Pillow 9.5
    and later) or accepted (earlier versions); and whether
    [ImageFont.load_default()] gives the built-in bitmap font (Pillow
    before 10.1, and later versions built without FreeType) or a
    FreeType font. *)
Class Backend : Type := {
  ellipse_region : Box -> Z -> Z -> bool;
  strict_boxes : bool;
  bitmap_default_font : bool
}.

(** A filled rectangle covers both corners; the C rasteriser puts the
    corners in order first. *)
Definition rectangle_region (xy : Box) (x y : Z) : bool :=
  let '(x0, y0, x1, y1) := xy in
  (Z.min x0 x1 <=? x) && (x <=? Z.max x0 x1) &&
  (Z.min y0 y1 <=? y) && (y <=? Z.max y0 y1).

(** A horizontal line of width 0 covers both end points. *)
Definition hline_region (x0 x1 y0 : Z) (x y : Z) : bool :=
  (y =? y0) && (Z.min x0 x1 <=? x) && (x <=? Z.max x0 x1).

(** The lattice points of the ellipse inscribed in the box: a reference
    rasteriser for concrete evaluations.  The library's scan conversion
    may differ from it on boundary pixels. *)
Definition ideal_ellipse (xy : Box) (x y : Z) : bool :=
  let '(x0, y0, x1, y1) := xy in
  let a := x1 - x0 in
  let b := y1 - y0 in
  (x0 <=? x) && (x <=? x1) && (y0 <=? y) && (y <=? y1) &&
  ((2 * x - x0 - x1) ^ 2 * b ^ 2 + (2 * y - y0 - y1) ^ 2 * a ^ 2 <=? a ^ 2 * b ^ 2).

Definition ordered (xy : Box) : bool :=
  let '(x0, y0, x1, y1) := xy in (x0 <=? x1) && (y0 <=? y1).

Definition accepts `{Backend} (xy : Box) : bool :=
  ordered xy || negb strict_boxes.

(** Drawing with an opaque ink replaces the covered pixels. *)
Definition paint {A : Type} (region : Z -> Z -> bool) (ink : A) (im : Image A)
  : Image A :=
  mkImage (width im) (height im)
          (fun x y => if region x y then ink else pixel im x y).

(** The two [ImageDraw] methods [draw_rounded_rect] uses. *)
Class ImageDraw (D F : Type) : Type := {
  rectangle : D -> Box -> F -> option D;
  ellipse : D -> Box -> F -> option D
}.

#[export] Instance raster_draw {A : Type} `{Backend} : ImageDraw (Image A) A := {
  rectangle im xy fill :=
    if accepts xy then Some (paint (rectangle_region xy) fill im) else None;
  ellipse im xy fill :=
    if accepts xy then Some (paint (ellipse_region xy) fill im) else None
}.

(** [draw.line([(x0, y), (x1, y)], fill)] *)
Definition hline {A : Type} (im : Image A) (x0 x1 y : Z) (fill : A) : Image A :=
  paint (hline_region x0 x1 y) fill im.

(** Inks are stored as bytes: out-of-range channel values are clipped. *)
Definition clip8 (v : Z) : Z := Z.max 0 (Z.min 255 v).

Definition ink_rgba (c : RGBA) : RGBA :=
  let '(r, g, b, a) := c in (clip8 r, clip8 g, clip8 b, clip8 a).

(** [im.putalpha(mask)] for an RGBA image and an L mask; sizes must
    agree. *)
Definition putalpha (im : Image RGBA) (mask : Image Z) : option (Image RGBA) :=
  if (width im =? width mask) && (height im =? height mask) then
    Some (mkImage (width im) (height im)
            (fun x y => let '(r, g, b, _) := pixel im x y in
                        (r, g, b, pixel mask x y)))
  else None.

(** The library's byte blend: [in1] weighted by [255 - mask] and [in2]
    by [mask], divided by 255 with rounding. *)
Definition div255 (a : Z) : Z :=
  let tmp := a + 128 in Z.shiftr (Z.shiftr tmp 8 + tmp) 8.

Definition blend (mask in1 in2 : Z) : Z :=
  div255 (in1 * (255 - mask) + in2 * mask).

(** [img.paste(im, (x0, y0), im)] for an RGB destination and an RGBA
    source used as its own mask: inside the source's box, clipped to the
    destination, every channel is blended by the source's alpha. *)
Definition paste_rgba (dst : Image RGB) (src : Image RGBA) (xy : Z * Z)
  : Image RGB :=
  let '(x0, y0) := xy in
  mkImage (width dst) (height dst)
    (fun x y =>
       if (x0 <=? x) && (x <? x0 + width src) &&
          (y0 <=? y) && (y <? y0 + height src)
       then
         let '(r, g, b, a) := pixel src (x - x0) (y - y0) in
         let '(r0, g0, b0) := pixel dst x y in
         (blend a r0 r, blend a g0 g, blend a b0 b)
       else pixel dst x y).

(** Destinations of [paste] with an RGBA source. *)
Class PasteTarget (D : Type) : Type := {
  paste : D -> Image RGBA -> Z * Z -> option D
}.

#[export] Instance raster_paste : PasteTarget (Image RGB) := {
  paste dst src xy := Some (paste_rgba dst src xy)
}.

(** An RGB image whose channels are bytes. *)
Definition rgb_bytes (im : Image RGB) : Prop :=
  forall x y, let '(r, g, b) := pixel im x y in
              0 <= r <= 255 /\ 0 <= g <= 255 /\ 0 <= b <= 255.

(** The reference rasteriser in a recent library version: a box out of
    order is refused, and the default font is a FreeType font. *)
Definition reference_backend : Backend :=
  {| ellipse_region := ideal_ellipse; strict_boxes := true;
     bitmap_default_font := false |}.

(** *** The canvas as the list of calls made on it

    Text rendering and the contents of asset files are outside the
    model, so the canvas the layout routines draw on is represented by
    its size, its background and the drawing calls made on it, oldest
    first. *)

Inductive Font : Type :=
| TrueType (path : string) (size : Z)
| DefaultFont.

(** A text that Latin-1 can encode.  Texts are kept as their UTF-8
    bytes, where a character above U+00FF is one whose encoding starts
    with a byte of 0xC4 or more. *)
Definition latin1 (s : string) : bool :=
  forallb (fun c => Py.code c <? 196) (list_ascii_of_string s).

(** Whether [draw.text] can draw a text with a font.  A FreeType font
    draws any text (a character it lacks becomes the missing-glyph
    box); the bitmap font encodes the text to Latin-1 first, which is a
    [UnicodeEncodeError] for a text with any other character. *)
Definition draws `{Backend} (font : Font) (s : string) : bool :=
  latin1 s ||
  match font with
  | TrueType _ _ => true
  | DefaultFont => negb bitmap_default_font
  end.

(** What is pasted: an asset read from a file (after conversion and
    resizing) or a buffer drawn by the script. *)
Inductive Picture : Type :=
| Asset (path : string) (mode : string) (size : Z * Z)
| Buffer (im : Image RGBA).

Inductive Call : Type :=
| Rectangle (xy : Box) (fill : RGB)
| Ellipse (xy : Box) (fill : RGB)
| Text (xy : Z * Z) (text : string) (font : Font) (fill : RGB)
       (anchor : option string)
| Paste (im : Picture) (xy : Z * Z) (masked : bool)
| Crop (box : Box).

Record Canvas : Type := mkCanvas {
  canvas_size : Z * Z;
  background : RGB;
  calls : list Call
}.

(** [Image.new('RGB', size, color)] *)
Definition new_canvas (size : Z * Z) (color : RGB) : option Canvas :=
  let '(w, h) := size in
  if (w <? 0) || (h <? 0) then None else Some (mkCanvas size color []).

Definition record (c : Canvas) (call : Call) : Canvas :=
  mkCanvas (canvas_size c) (background c) (calls c ++ [call]).

(** [img.crop((left, upper, right, lower))]: a new image of the box's
    size. *)
Definition crop (c : Canvas) (box : Box) : Canvas :=
  let '(x0, y0, x1, y1) := box in
  mkCanvas (x1 - x0, y1 - y0) (background c) (calls c ++ [Crop box]).

#[export] Instance canvas_draw `{Backend} : ImageDraw Canvas RGB := {
  rectangle c xy fill :=
    if accepts xy then Some (record c (Rectangle xy fill)) else None;
  ellipse c xy fill :=
    if accepts xy then Some (record c (Ellipse xy fill)) else None
}.

#[export] Instance canvas_paste : PasteTarget Canvas := {
  paste c src xy := Some (record c (Paste (Buffer src) xy true))
}.

End Pillow.

Import Pillow.

(** ** The layout routines' state

    A layout routine threads the canvas and the vertical cursor through
    its statements.  [st_trail] lists the values the cursor has taken,
    oldest first; [st_files] lists the files written.  A computation
    returns [None] when an exception is raised, with the state reached
    at that point.  Of the library calls, loading a font, opening an
    image, measuring a text, drawing a text and saving can raise;
    pasting is taken to succeed.  (The scripts' [print] calls are left
    out.) *)

Module Script.

Record State : Type := mkState {
  st_img : Canvas;
  st_y : Z;
  st_trail : list Z;
  st_files : list (string * Canvas)
}.

Definition M (A : Type) : Type := State -> option A * State.

Definition ret {A : Type} (a : A) : M A := fun s => (Some a, s).

Definition bind {A B : Type} (m : M A) (k : A -> M B) : M B :=
  fun s => match m s with
           | (Some a, s') => k a s'
           | (None, s') => (None, s')
           end.

Definition raise {A : Type} : M A := fun s => (None, s).

(** An [option]-valued computation, [None] raising. *)
Definition lift {A : Type} (o : option A) : M A :=
  match o with Some a => ret a | None => raise end.

(** [try: body / except Exception: handler] *)
Definition try_except {A : Type} (body handler : M A) : M A :=
  fun s => match body s with
           | (Some a, s') => (Some a, s')
           | (None, s') => handler s'
           end.

Declare Scope script_scope.
Delimit Scope script_scope with script.
Notation "x <- e ;; k" := (bind e (fun x => k))
  (at level 61, e at next level, right associativity) : script_scope.
Notation "e ;; k" := (bind e (fun _ => k))
  (at level 61, right associativity) : script_scope.
Local Open Scope script_scope.

(** The cursor: reading it, and [y += n]. *)
Definition get_y : M Z := fun s => (Some (st_y s), s).

Definition advance (n : Z) : M unit :=
  fun s => (Some tt,
            mkState (st_img s) (st_y s + n) (st_trail s ++ [st_y s + n])
                    (st_files s)).

(** A call on the canvas, which may raise (what a helper drew before it
    raised is then dropped: no handler of the scripts would see it). *)
Definition on_img (f : Canvas -> option Canvas) : M unit :=
  fun s => match f (st_img s) with
           | Some c => (Some tt, mkState c (st_y s) (st_trail s) (st_files s))
           | None => (None, s)
           end.

(** [for a in l: body] *)
Fixpoint for_each {A : Type} (l : list A) (body : A -> M unit) : M unit :=
  match l with
  | [] => ret tt
  | a :: l' => body a ;; for_each l' body
  end.

(** A loop that also updates a local variable. *)
Fixpoint for_fold {A B : Type} (l : list A) (b : B) (body : B -> A -> M B)
  : M B :=
  match l with
  | [] => ret b
  | a :: l' => b' <- body b a ;; for_fold l' b' body
  end.

(** What the scripts find when they run: which font files load, which
    image files open (and with which mode), what the library measures
    for a text, and which paths can be written. *)
Record Env : Type := mkEnv {
  font_file : string -> bool;
  image_file : string -> option string;
  text_bbox : Font -> string -> option Box;
  writable : string -> bool
}.

(** [ImageFont.truetype(path, size)] *)
Definition truetype (env : Env) (path : string) (size : Z) : option Font :=
  if font_file env path then Some (TrueType path size) else None.

(** [draw.text(xy, text, font=font, fill=hex_to_rgb(color), anchor=anchor)]:
    the colour is converted first; the call then raises when the font
    cannot draw the text. *)
Definition text `{Backend} (xy : Z * Z) (s : string) (font : Font)
    (color : string) (anchor : option string) : M unit :=
  fill <- lift (hex_to_rgb color) ;;
  on_img (fun c => if draws font s
                   then Some (record c (Text xy s font fill anchor))
                   else None).

(** [draw.rectangle(xy, fill=hex_to_rgb(color))] and the same for
    [draw.ellipse]. *)
Definition fill_rectangle `{Backend} (xy : Box) (color : string) : M unit :=
  fill <- lift (hex_to_rgb color) ;;
  on_img (fun c => rectangle c xy fill).

Definition fill_ellipse `{Backend} (xy : Box) (color : string) : M unit :=
  fill <- lift (hex_to_rgb color) ;;
  on_img (fun c => ellipse c xy fill).

(** [img.paste(im, xy, mask)] for an asset; [masked] tells whether the
    asset is its own mask. *)
Definition paste_asset (im : Picture) (xy : Z * Z) (masked : bool) : M unit :=
  on_img (fun c => Some (record c (Paste im xy masked))).

(** [img.save(path, "PNG", quality=95)] *)
Definition save (env : Env) (path : string) : M unit :=
  fun s => if writable env path
           then (Some tt,
                 mkState (st_img s) (st_y s) (st_trail s)
                         (st_files s ++ [(path, st_img s)]))
           else (None, s).

Definition start (img : Canvas) (y0 : Z) : State := mkState img y0 [y0] [].

Definition mm : option string := Some "mm"%string.

(** A line feed, and [s.split('\n')]. *)
Definition nl : string := String (ascii_of_nat 10) EmptyString.

Definition lines (s : string) : list string := Py.split (ascii_of_nat 10) s.

End Script.

(** ** [create_infographic.py] *)

Module Yield.
Import Script.
Local Open Scope string_scope.
Local Open Scope Z_scope.

Definition WIDTH : Z := 1200.
Definition HEIGHT : Z := 1600.
Definition BACKGROUND_COLOR : string := "#0f1419".
Definition PRIMARY_COLOR : string := "#00d4aa".
Definition SECONDARY_COLOR : string := "#1da1f2".
Definition TEXT_COLOR : string := "#ffffff".
Definition MUTED_COLOR : string := "#8899a6".
Definition CARD_COLOR : string := "#192734".

Definition OUTPUT_PATH : string :=
  "/home/rickc/OmniBazaar/Documents/OmniBazaar_Yield_Infographic.png".
Definition LOGO_PATH : string :=
  "/home/rickc/OmniBazaar/OmniCoin-WhiteLetters1000x300.png".
Definition GLOBE_PATH : string :=
  "/home/rickc/OmniBazaar/UI Mockup/OmniBazaar Globe-clear-256x256.png".

Definition draw_rounded_rect {D F : Type} `{ImageDraw D F}
    (draw : D) (coords : Box) (radius : Z) (fill : F) : option D :=
  let '(x1, y1, x2, y2) := coords in
  (draw <- rectangle draw (x1 + radius, y1, x2 - radius, y2) fill ;;
   draw <- rectangle draw (x1, y1 + radius, x2, y2 - radius) fill ;;
   draw <- ellipse draw (x1, y1, x1 + 2 * radius, y1 + 2 * radius) fill ;;
   draw <- ellipse draw (x2 - 2 * radius, y1, x2, y1 + 2 * radius) fill ;;
   draw <- ellipse draw (x1, y2 - 2 * radius, x1 + 2 * radius, y2) fill ;;
   draw <- ellipse draw (x2 - 2 * radius, y2 - 2 * radius, x2, y2) fill ;;
   Some draw)%opt.

Local Open Scope script_scope.

(** [draw_rounded_rect(draw, coords, radius, hex_to_rgb(color))] *)
Definition rounded_rect `{Backend} (coords : Box) (radius : Z) (color : string)
  : M unit :=
  fill <- lift (hex_to_rgb color) ;;
  on_img (fun c => draw_rounded_rect c coords radius fill).

Record Fonts : Type := mkFonts {
  font_large : Font;
  font_medium : Font;
  font_normal : Font;
  font_small : Font;
  font_tiny : Font
}.

Definition DEJAVU_BOLD : string :=
  "/usr/share/fonts/truetype/dejavu/DejaVuSans-Bold.ttf".
Definition DEJAVU : string := "/usr/share/fonts/truetype/dejavu/DejaVuSans.ttf".

(** The [try] block that loads the fonts, and its bare [except]. *)
Definition load_fonts (env : Env) : Fonts :=
  match
    (font_large <- truetype env DEJAVU_BOLD 48 ;;
     font_medium <- truetype env DEJAVU_BOLD 32 ;;
     font_normal <- truetype env DEJAVU 24 ;;
     font_small <- truetype env DEJAVU 20 ;;
     font_tiny <- truetype env DEJAVU 16 ;;
     Some (mkFonts font_large font_medium font_normal font_small font_tiny))%opt
  with
  | Some fonts => fonts
  | None =>
      let font_large := DefaultFont in
      mkFonts font_large font_large font_large font_large font_large
  end.

Record Strategy : Type := mkStrategy {
  title : string;
  subtitle : string;
  apy : string;
  details : list string;
  color : string
}.

Definition stats : list (string * string) :=
  [("APY Range", "45-180%");
   ("Treasury", "2.5B XOM");
   ("Total Supply", "16.6B");
   ("Launch", "Day 1 Full Platform")].

Definition strategies : list Strategy :=
  [mkStrategy "LBP" "Dutch Auction" "80-150%"
     ["Price starts HIGH"; "Falls over 72 hours"; "Enter at YOUR price";
      "No front-running"]
     PRIMARY_COLOR;
   mkStrategy "BONDING" "Guaranteed Discount" "182-260%"
     ["5-15% discount"; "7-30 day vesting"; "No impermanent loss";
      "Compound returns"]
     SECONDARY_COLOR;
   mkStrategy "MINING" "Passive Income" "36-365%"
     ["Stake LP tokens"; "30% immediate"; "70% vests 90 days";
      "Early = highest APY"]
     "#9b59b6"].

Definition phases : list (string * string * string) :=
  [("Week 1-2", "LBP Launch", "Dutch auction price discovery");
   ("Week 2+", "Bonding Opens", "5-15% guaranteed discounts");
   ("Week 3+", "Mining Active", "Stake LP for rewards")].

Definition headers : list string :=
  ["Scenario"; "LBP"; "Bonding"; "Mining"; "Blended"].

Definition scenarios : list (list string) :=
  [["Conservative"; "+15%"; "+26%"; "+36%"; "+25%"];
   ["Base Case"; "+75%"; "+67%"; "+50%"; "+65%"];
   ["Optimistic"; "+275%"; "+220%"; "+175%"; "+220%"]].

Definition components : list (string * string) :=
  [("RWA Aggregator", "Tokenized real-world assets");
   ("DEX", "10,000+ orders/sec");
   ("Web3 Wallet", "128 chains");
   ("Marketplace", "Zero on-chain fees")].

(** The logo block: paste the logo, or draw a text header when anything
    in the [try] block raises. *)
Definition header `{Backend} (env : Env) (fonts : Fonts) : M unit :=
  try_except
    (mode <- lift (image_file env LOGO_PATH) ;;
     let logo := Asset LOGO_PATH mode (400, 120) in
     let logo_x := (WIDTH - 400) / 2 in
     y_pos <- get_y ;;
     paste_asset logo (logo_x, y_pos) (String.eqb mode "RGBA") ;;
     advance 140)
    (y_pos <- get_y ;;
     text (WIDTH / 2, y_pos + 50) "OmniBazaar" (font_large fonts)
          PRIMARY_COLOR mm ;;
     advance 120).

(** From the title down to the disclaimer. *)
Definition body `{Backend} (fonts : Fonts) : M unit :=
  (* Title *)
  y_pos <- get_y ;;
  text (WIDTH / 2, y_pos) "YIELD OPPORTUNITY" (font_large fonts) TEXT_COLOR mm ;;
  advance 60 ;;
  (* Subtitle *)
  y_pos <- get_y ;;
  text (WIDTH / 2, y_pos)
       "45-180% Projected APY | Dutch Auction LBP | Guaranteed Bonding Discounts"
       (font_small fonts) MUTED_COLOR mm ;;
  advance 50 ;;
  (* Key stats bar *)
  y_pos <- get_y ;;
  rounded_rect (50, y_pos, WIDTH - 50, y_pos + 80) 10 CARD_COLOR ;;
  let stat_width := (WIDTH - 100) / 4 in
  for_each (Py.enumerate stats) (fun '(i, (label, value)) =>
    let x := 50 + stat_width * i + stat_width / 2 in
    text (x, y_pos + 25) value (font_medium fonts) PRIMARY_COLOR mm ;;
    text (x, y_pos + 55) label (font_tiny fonts) MUTED_COLOR mm) ;;
  advance 100 ;;
  (* Three strategy cards *)
  let card_width := (WIDTH - 140) / 3 in
  let card_height := 280 in
  y_pos <- get_y ;;
  for_each (Py.enumerate strategies) (fun '(i, strat) =>
    let x := 50 + (card_width + 20) * i in
    rounded_rect (x, y_pos, x + card_width, y_pos + card_height) 15 CARD_COLOR ;;
    text (x + card_width / 2, y_pos + 30) (title strat) (font_medium fonts)
         (color strat) mm ;;
    text (x + card_width / 2, y_pos + 60) (subtitle strat) (font_tiny fonts)
         MUTED_COLOR mm ;;
    text (x + card_width / 2, y_pos + 100) (apy strat ++ " APY")
         (font_medium fonts) TEXT_COLOR mm ;;
    for_each (Py.enumerate (details strat)) (fun '(j, detail) =>
      text (x + 20, y_pos + 140 + j * 30) ("â€¢ " ++ detail) (font_small fonts)
           TEXT_COLOR None)) ;;
  advance (card_height + 30) ;;
  (* Timeline section *)
  y_pos <- get_y ;;
  text (WIDTH / 2, y_pos) "LAUNCH TIMELINE" (font_medium fonts) TEXT_COLOR mm ;;
  advance 50 ;;
  y_pos <- get_y ;;
  let timeline_y := y_pos + 20 in
  fill_rectangle (100, timeline_y, WIDTH - 100, timeline_y + 4) MUTED_COLOR ;;
  let phase_width := (WIDTH - 200) / 3 in
  for_each (Py.enumerate phases) (fun '(i, (timing, title, desc)) =>
    let x := 100 + phase_width * i + phase_width / 2 in
    fill_ellipse (x - 8, timeline_y - 6, x + 8, timeline_y + 10) PRIMARY_COLOR ;;
    text (x, timeline_y + 30) timing (font_small fonts) PRIMARY_COLOR mm ;;
    text (x, timeline_y + 55) title (font_normal fonts) TEXT_COLOR mm ;;
    text (x, timeline_y + 80) desc (font_tiny fonts) MUTED_COLOR mm) ;;
  advance 140 ;;
  (* Return scenarios *)
  y_pos <- get_y ;;
  text (WIDTH / 2, y_pos) "RETURN SCENARIOS (6-MONTH)" (font_medium fonts)
       TEXT_COLOR mm ;;
  advance 40 ;;
  (* Table header *)
  y_pos <- get_y ;;
  rounded_rect (50, y_pos, WIDTH - 50, y_pos + 40) 5 CARD_COLOR ;;
  let col_width := (WIDTH - 100) / 5 in
  for_each (Py.enumerate headers) (fun '(i, header) =>
    let x := 50 + col_width * i + col_width / 2 in
    text (x, y_pos + 20) header (font_small fonts) MUTED_COLOR mm) ;;
  advance 45 ;;
  (* Table rows *)
  for_each scenarios (fun scenario =>
    y_pos <- get_y ;;
    for_each (Py.enumerate scenario) (fun '(i, val) =>
      let x := 50 + col_width * i + col_width / 2 in
      let color := if (i =? 4)%Z then PRIMARY_COLOR else TEXT_COLOR in
      text (x, y_pos + 15) val (font_small fonts) color mm) ;;
    advance 35) ;;
  advance 20 ;;
  (* Treasury backing section *)
  y_pos <- get_y ;;
  rounded_rect (50, y_pos, WIDTH - 50, y_pos + 120) 15 CARD_COLOR ;;
  text (WIDTH / 2, y_pos + 25) "TREASURY BACKING YOUR RETURNS" (font_normal fonts)
       PRIMARY_COLOR mm ;;
  text (WIDTH / 2, y_pos + 60)
       "2.5 Billion XOM = $12.5M dedicated to investor rewards"
       (font_small fonts) TEXT_COLOR mm ;;
  text (WIDTH / 2, y_pos + 90)
       "Self-funding model: Bonding & LBP generate USDC inflows exceeding commitments"
       (font_tiny fonts) MUTED_COLOR mm ;;
  advance 140 ;;
  (* Platform components *)
  y_pos <- get_y ;;
  text (WIDTH / 2, y_pos) "LAUNCHING DAY 1" (font_medium fonts) TEXT_COLOR mm ;;
  advance 40 ;;
  y_pos <- get_y ;;
  let comp_width := (WIDTH - 100) / 4 in
  for_each (Py.enumerate components) (fun '(i, (name, desc)) =>
    let x := 50 + comp_width * i + comp_width / 2 in
    text (x, y_pos) name (font_small fonts) PRIMARY_COLOR mm ;;
    text (x, y_pos + 25) desc (font_tiny fonts) MUTED_COLOR mm) ;;
  advance 70 ;;
  (* Call to action *)
  y_pos <- get_y ;;
  rounded_rect (200, y_pos, WIDTH - 200, y_pos + 60) 30 PRIMARY_COLOR ;;
  text (WIDTH / 2, y_pos + 30) "PARTICIPATION WINDOW IS LIMITED"
       (font_normal fonts) BACKGROUND_COLOR mm ;;
  advance 80 ;;
  (* Links *)
  y_pos <- get_y ;;
  text (WIDTH / 2, y_pos)
       "omnibazaar.com | whitepaper.omnibazaar.com | tinyurl.com/obdeck1"
       (font_tiny fonts) MUTED_COLOR mm ;;
  advance 30 ;;
  (* Disclaimer *)
  y_pos <- get_y ;;
  text (WIDTH / 2, y_pos)
       "Not financial advice. Crypto investments carry significant risk."
       (font_tiny fonts) MUTED_COLOR mm.

(** The "Save" step: the canvas is written as it is. *)
Definition export (env : Env) : M string :=
  save env OUTPUT_PATH ;;
  ret OUTPUT_PATH.

(** Everything between the fonts and the "Save" step. *)
Definition layout `{Backend} (env : Env) (fonts : Fonts) : M unit :=
  header env fonts ;;
  body fonts.

(** [create_infographic()]: the value returned, or [None] for an
    exception, with the final state. *)
Definition create_infographic `{Backend} (env : Env) : option (option string * State) :=
  (bg <- hex_to_rgb BACKGROUND_COLOR ;;
   img <- new_canvas (WIDTH, HEIGHT) bg ;;
   let fonts := load_fonts env in
   let y_pos := 30 in
   Some ((layout env fonts ;; export env) (start img y_pos)))%opt.

End Yield.

(** ** [create_features_infographic.py]: the drawing helpers *)

Module Features.
Import Script.
Local Open Scope string_scope.
Local Open Scope Z_scope.

Definition WIDTH : Z := 1200.
Definition HEIGHT : Z := 3200.
Definition BACKGROUND_COLOR : string := "#0f1419".
Definition PRIMARY_COLOR : string := "#00d4aa".
Definition SECONDARY_COLOR : string := "#1da1f2".
Definition ACCENT_PURPLE : string := "#9b59b6".
Definition ACCENT_ORANGE : string := "#f39c12".
Definition TEXT_COLOR : string := "#ffffff".
Definition MUTED_COLOR : string := "#8899a6".
Definition CARD_COLOR : string := "#192734".
Definition CARD_HIGHLIGHT : string := "#1e3044".

Definition OUTPUT_PATH : string := "/home/rickc/OmniBazaar/OmniBazaar_Infographic.png".
Definition GLOBE_PATH : string :=
  "/home/rickc/OmniBazaar/UI Mockup/OmniBazaar Globe-clear-256x256.png".

(** The radius [draw_rounded_rect] works with ([//] is floor division). *)
Definition effective_radius (coords : Box) (radius : Z) : Z :=
  let '(x1, y1, x2, y2) := coords in
  Z.min radius (Z.min ((x2 - x1) / 2) ((y2 - y1) / 2)).

Definition draw_rounded_rect {D F : Type} `{ImageDraw D F}
    (draw : D) (coords : Box) (radius : Z) (fill : F) : option D :=
  let '(x1, y1, x2, y2) := coords in
  let r := Z.min radius (Z.min ((x2 - x1) / 2) ((y2 - y1) / 2)) in
  (draw <- rectangle draw (x1 + r, y1, x2 - r, y2) fill ;;
   draw <- rectangle draw (x1, y1 + r, x2, y2 - r) fill ;;
   draw <- ellipse draw (x1, y1, x1 + 2 * r, y1 + 2 * r) fill ;;
   draw <- ellipse draw (x2 - 2 * r, y1, x2, y1 + 2 * r) fill ;;
   draw <- ellipse draw (x1, y2 - 2 * r, x1 + 2 * r, y2) fill ;;
   draw <- ellipse draw (x2 - 2 * r, y2 - 2 * r, x2, y2) fill ;;
   Some draw)%opt.

(** One channel of one row of the gradient:
    [int(ct + (cb - ct) * t)] with [t = row / max(h - 1, 1)]. *)
Definition gradient_channel (ct cb h row : Z) : Z :=
  let t := Py.Float.truediv row (Z.max (h - 1) 1) in
  Py.Float.to_int
    (Py.Float.add (Py.Float.of_int ct)
                  (Py.Float.mul (Py.Float.of_int (cb - ct)) t)).

(** The ink of one row: [(r, g, b, 255)]. *)
Definition gradient_color (ct cb : RGB) (h row : Z) : RGBA :=
  let '(ct0, ct1, ct2) := ct in
  let '(cb0, cb1, cb2) := cb in
  let r := gradient_channel ct0 cb0 h row in
  let g := gradient_channel ct1 cb1 h row in
  let b := gradient_channel ct2 cb2 h row in
  (r, g, b, 255).

(** The body of the loop [for row in range(h)]. *)
Definition gradient_row (ct cb : RGB) (w h : Z) (od : Image RGBA) (row : Z)
  : Image RGBA :=
  hline od 0 w row (ink_rgba (gradient_color ct cb h row)).

(** The overlay after the row loop and before any mask is applied. *)
Definition gradient_buffer (coords : Box) (ct cb : RGB) : option (Image RGBA) :=
  let '(x1, y1, x2, y2) := coords in
  let h := y2 - y1 in
  overlay <- new (x2 - x1, h) (0, 0, 0, 0) ;;
  Some (fold_left (gradient_row ct cb (x2 - x1) h) (Py.range h) overlay).

(** The [if radius > 0] block: the overlay's alpha becomes the rounded
    rectangle drawn with ink 255 on a black mask of the same size. *)
Definition round_corners `{Backend} (overlay : Image RGBA) (radius : Z)
  : option (Image RGBA) :=
  if 0 <? radius then
    mask <- new (size overlay) 0 ;;
    mask <- draw_rounded_rect mask (0, 0, width overlay, height overlay)
                              radius 255 ;;
    putalpha overlay mask
  else Some overlay.

Definition draw_gradient_rect {D : Type} `{PasteTarget D} `{Backend}
    (img : D) (coords : Box) (color_top color_bot : string) (radius : Z)
  : option D :=
  let '(x1, y1, x2, y2) := coords in
  ct <- hex_to_rgb color_top ;;
  cb <- hex_to_rgb color_bot ;;
  overlay <- gradient_buffer coords ct cb ;;
  overlay <- round_corners overlay radius ;;
  paste img overlay (x1, y1).

Local Open Scope script_scope.

(** [draw_rounded_rect(draw, coords, radius, hex_to_rgb(color))] *)
Definition rounded_rect `{Backend} (coords : Box) (radius : Z) (color : string)
  : M unit :=
  fill <- lift (hex_to_rgb color) ;;
  on_img (fun c => draw_rounded_rect c coords radius fill).

(** [draw_gradient_rect(img, coords, color_top, color_bot, radius=radius)] *)
Definition gradient_rect `{Backend} (coords : Box) (color_top color_bot : string)
    (radius : Z) : M unit :=
  on_img (fun c => draw_gradient_rect c coords color_top color_bot radius).

Definition draw_hr `{Backend} (y : Z) (margin : Z) : M unit :=
  fill_rectangle (margin, y, WIDTH - margin, y + 1) MUTED_COLOR.

Record Fonts : Type := mkFonts {
  f_title : Font;
  f_brand : Font;
  f_sect : Font;
  f_lg : Font;
  f_mb : Font;
  f_m : Font;
  f_n : Font;
  f_sb : Font;
  f_s : Font;
  f_tb : Font;
  f_t : Font;
  f_apy : Font
}.

(** The [try] block that loads the fonts, and its [except]. *)
Definition load_fonts (env : Env) : Fonts :=
  let B := "/usr/share/fonts/truetype/dejavu/DejaVuSans-Bold.ttf" in
  let R := "/usr/share/fonts/truetype/dejavu/DejaVuSans.ttf" in
  match
    (f_title <- truetype env B 52 ;;
     f_brand <- truetype env B 56 ;;
     f_sect <- truetype env B 36 ;;
     f_lg <- truetype env B 30 ;;
     f_mb <- truetype env B 24 ;;
     f_m <- truetype env R 24 ;;
     f_n <- truetype env R 20 ;;
     f_sb <- truetype env B 18 ;;
     f_s <- truetype env R 18 ;;
     f_tb <- truetype env B 15 ;;
     f_t <- truetype env R 15 ;;
     f_apy <- truetype env B 40 ;;
     Some (mkFonts f_title f_brand f_sect f_lg f_mb f_m f_n f_sb f_s f_tb f_t
                   f_apy))%opt
  with
  | Some fonts => fonts
  | None =>
      let f_title := DefaultFont in
      mkFonts f_title f_title f_title f_title f_title f_title
              f_title f_title f_title f_title f_title f_title
  end.

Definition stats : list (string * string) :=
  [("70+", "Blockchains"); ("10,000+", "Orders/Sec");
   ("1-2s", "Finality"); ("ZERO", "Gas Fees");
   ("12+", "Languages")].

Definition markets : list (string * string * string * string) :=
  [("GOODS &" ++ nl ++ "SERVICES",
    "Zero fees" ++ nl ++ "P2P escrow" ++ nl ++ "Seller ratings",
    "$3.5T+ sector", PRIMARY_COLOR);
   ("DEX",
    "10K+ orders/sec" ++ nl ++ "MEV protection" ++ nl ++ "Spot & perpetuals",
    "$1.5T+ sector", SECONDARY_COLOR);
   ("RWA",
    "Stocks & bonds" ++ nl ++ "Real estate" ++ nl ++ "Treasuries",
    "$16T by 2030", ACCENT_PURPLE);
   ("YIELD",
    "Staking & LP" ++ nl ++ "APY comparison" ++ nl ++ "Risk scoring",
    "$100B+ TVL", ACCENT_ORANGE);
   ("NFTs",
    "Multi-chain" ++ nl ++ "Send & receive" ++ nl ++ "List for sale",
    "$24B+ sector", "#e74c3c");
   ("PREDICTIONS",
    "Polymarket" ++ nl ++ "Omen aggregation" ++ nl ++ "Cross-chain",
    "$27.9B+ sector", "#2ecc71")].

Definition diffs : list (string * list string * string) :=
  [("DECENTRALIZED" ++ nl ++ "& SELF-SOVEREIGN",
    ["No central servers"; "No third-party data"; "No custodial risk";
     "Users hold their keys"; "Permissionless validators"],
    PRIMARY_COLOR);
   ("PRIVACY-ENABLED" ++ nl ++ "(COTI V2)",
    ["pXOM privacy token"; "MPC garbled circuits"; "Shielded transactions";
     "Optional — user choice"; "0.5% conversion fee"],
    ACCENT_PURPLE);
   ("PROOF OF" ++ nl ++ "PARTICIPATION",
    ["100-point scoring"; "KYC + reputation"; "Staking + activity";
     "Community policing"; "50 pts to validate"],
    SECONDARY_COLOR)].

Definition items_on : list string :=
  ["DEX settlement — dual EIP-712 sigs";
   "Multi-hop swap router";
   "Private DEX (COTI V2 MPC)";
   "Escrow — 2-of-3 multisig";
   "RWA AMM + compliance oracle";
   "MEV commit-reveal protection";
   "Circuit breaker emergency stop"].

Definition items_off : list string :=
  ["Order matching — 10K+ orders/sec";
   "Marketplace listings on IPFS";
   "Price discovery & routing";
   "P2P encrypted chat relay";
   "KYC document processing";
   "Participation scoring";
   "Search engine & indexing"].

Definition wfs : list (string * string * string) :=
  [("Multi-Chain",
    "ETH, BTC, SOL, DOT," ++ nl ++ "AVAX, ADA, XRP, NEAR," ++ nl
      ++ "20+ EVM networks",
    PRIMARY_COLOR);
   ("Hardware" ++ nl ++ "Wallets",
    "Ledger & Trezor" ++ nl ++ "USB + Bluetooth" ++ nl ++ "Secure signing",
    SECONDARY_COLOR);
   ("Easy" ++ nl ++ "Onboarding",
    "Email/password signup" ++ nl ++ "Embedded wallet" ++ nl
      ++ "5,000 XOM bonus",
    ACCENT_ORANGE);
   ("Accessibility",
    "12+ languages" ++ nl ++ "ARIA compliant" ++ nl ++ "Dark/Light mode",
    ACCENT_PURPLE)].

Definition liq_cards
  : list (string * string * string * list string * string) :=
  [("LBP", "Dutch Auction", "80-150%",
    ["Price starts HIGH, falls 72hr"; "Enter at YOUR price";
     "No front-running"; "Fair price discovery"],
    PRIMARY_COLOR);
   ("BONDING", "Guaranteed Discount", "182-260%",
    ["5-15% discount locked in"; "7-30 day vesting"; "No impermanent loss";
     "Compound returns"],
    SECONDARY_COLOR);
   ("MINING", "Passive Income", "36-365%",
    ["Stake LP tokens"; "30% immediate payout"; "70% vests over 90 days";
     "Early = highest APY"],
    ACCENT_PURPLE)].

Definition hdrs : list string :=
  ["Stake Amount"; "Base APR"; "+ Duration"; "Max APR"].

Definition col_x : list Z := [150; 430; 680; 950].

Definition rows : list (list string) :=
  [["1 — 999K XOM"; "5%"; "+0-3%"; "8%"];
   ["1M — 9.99M XOM"; "6%"; "+0-3%"; "9%"];
   ["10M — 99.9M XOM"; "7%"; "+0-3%"; "10%"];
   ["100M — 999M XOM"; "8%"; "+0-3%"; "11%"];
   ["1B+ XOM"; "9%"; "+0-3%"; "12%"]].

Definition earn_cards : list (string * string * string * string) :=
  [("MARKETPLACE", "Sell goods and services" ++ nl ++ "with low 1% fee",
    "🛒", PRIMARY_COLOR);
   ("HOST LISTINGS",
    "70% of 0.25% on every" ++ nl ++ "sale + share block rewards",
    "📦", "#2ecc71");
   ("REFERRALS", "70% of 0.25%" ++ nl ++ "on every sale",
    "🤝", ACCENT_ORANGE);
   ("VALIDATORS", "15.6 XOM/block" ++ nl ++ "+ tx & service fees",
    "⚡", SECONDARY_COLOR);
   ("ARBITRATION", "70% of 5%" ++ nl ++ "dispute fee",
    "⚖", ACCENT_PURPLE)].

Definition coming : list (string * list string * string) :=
  [("PREDICTION" ++ nl ++ "MARKET",
    ["$27.9B+ sector volume"; "Polymarket + Omen"; "Cross-chain aggregator";
     "Trade with any token"; "On-chain price data"; "Position tracking"],
    ACCENT_ORANGE);
   ("BROWSER" ++ nl ++ "EXTENSION",
    ["Wallet + DEX + Market"; "DApp connectivity"; "Hardware wallets";
     "Privacy swaps"; "Chrome/Firefox/Brave"; "Compact popup UX"],
    SECONDARY_COLOR);
   ("MOBILE APP" ++ nl ++ "(iOS & Android)",
    ["Full feature parity"; "Native camera & QR"; "Biometric auth";
     "Push notifications"; "Deep linking"; "60% shared code"],
    PRIMARY_COLOR)].

Definition tok_l : list (string * string) :=
  [("Token:", "XOM (public) / pXOM (private)");
   ("Total Supply:", "16.6 Billion XOM");
   ("Circulating:", "~4.13 Billion XOM");
   ("Emissions:", "~12.47B over 40 years")].

Definition tok_r : list (string * string) :=
  [("Blockchain:", "Avalanche Subnet-EVM");
   ("Consensus:", "Snowman (1-2s finality)");
   ("Welcome Bonus:", "Up to 5,000 XOM");
   ("Referral Bonus:", "Up to 2,500 XOM")].

(** The logo block: the globe next to the brand name, or the brand name
    alone when anything in the [try] block raises. *)
Definition header `{Backend} (env : Env) (fonts : Fonts) : M unit :=
  try_except
    (mode <- lift (image_file env GLOBE_PATH) ;;
     let globe := Asset GLOBE_PATH "RGBA" (90, 90) in
     brand_bbox <- lift (text_bbox env (f_brand fonts) "OmniBazaar") ;;
     let '(bx0, _, bx2, _) := brand_bbox in
     let brand_w := bx2 - bx0 in
     let total_w := 90 + 16 + brand_w in
     let gx := (WIDTH - total_w) / 2 in
     y <- get_y ;;
     paste_asset globe (gx, y) true ;;
     text (gx + 106, y + 18) "OmniBazaar" (f_brand fonts) TEXT_COLOR None)
    (y <- get_y ;;
     text (WIDTH / 2, y + 40) "OmniBazaar" (f_brand fonts) PRIMARY_COLOR mm).

(** From the title down to the disclaimer. *)
Definition body `{Backend} (fonts : Fonts) : M unit :=
  (* TITLE *)
  y <- get_y ;;
  text (WIDTH / 2, y) "PLATFORM OVERVIEW" (f_title fonts) TEXT_COLOR mm ;;
  advance 48 ;;
  y <- get_y ;;
  text (WIDTH / 2, y) "One App. Every Market. Zero Middlemen." (f_n fonts)
       MUTED_COLOR mm ;;
  advance 42 ;;
  (* KEY STATS BAR *)
  y <- get_y ;;
  rounded_rect (40, y, WIDTH - 40, y + 78) 12 CARD_COLOR ;;
  let sw := (WIDTH - 80) / Py.len stats in
  for_each (Py.enumerate stats) (fun '(i, (val, lab)) =>
    let cx := 40 + sw * i + sw / 2 in
    text (cx, y + 25) val (f_mb fonts) PRIMARY_COLOR mm ;;
    text (cx, y + 54) lab (f_t fonts) MUTED_COLOR mm) ;;
  advance (96 + 14) ;;
  (* SIX INTEGRATED MARKETS *)
  y <- get_y ;;
  text (WIDTH / 2, y) "SIX INTEGRATED MARKETS" (f_sect fonts) TEXT_COLOR mm ;;
  advance 44 ;;
  y <- get_y ;;
  let cw := (WIDTH - 80 - 5 * 12) / 6 in
  let ch := 192 in
  for_each (Py.enumerate markets) (fun '(i, (title, desc, volume, color)) =>
    let cx := 40 + i * (cw + 12) in
    rounded_rect (cx, y, cx + cw, y + ch) 10 CARD_COLOR ;;
    rounded_rect (cx, y, cx + cw, y + 5) 3 color ;;
    let lines := lines title in
    let ty := y + 22 in
    ty <- for_fold lines ty (fun ty ln =>
      text (cx + cw / 2, ty) ln (f_sb fonts) color mm ;;
      ret (ty + 20)) ;;
    let ty := ty + 8 in
    ty <- for_fold (Script.lines desc) ty (fun ty ln =>
      text (cx + cw / 2, ty) ln (f_t fonts) TEXT_COLOR mm ;;
      ret (ty + 19)) ;;
    text (cx + cw / 2, y + ch - 16) volume (f_tb fonts) color mm) ;;
  advance (ch + 25) ;;
  (* DIFFERENTIATORS *)
  y <- get_y ;;
  draw_hr y 80 ;;
  advance 34 ;;
  y <- get_y ;;
  text (WIDTH / 2, y) "WHY OMNIBAZAAR IS DIFFERENT" (f_sect fonts) TEXT_COLOR mm ;;
  advance 48 ;;
  y <- get_y ;;
  let dw := (WIDTH - 100 - 24) / 3 in
  let dh := 215 in
  for_each (Py.enumerate diffs) (fun '(i, (title, bullets, color)) =>
    let cx := 50 + i * (dw + 12) in
    rounded_rect (cx, y, cx + dw, y + dh) 12 CARD_COLOR ;;
    let lines := lines title in
    let ty := y + 22 in
    ty <- for_fold lines ty (fun ty ln =>
      text (cx + dw / 2, ty) ln (f_sb fonts) color mm ;;
      ret (ty + 22)) ;;
    let ty := ty + 10 in
    ty <- for_fold bullets ty (fun ty b =>
      text (cx + 18, ty) ("• " ++ b) (f_t fonts) TEXT_COLOR None ;;
      ret (ty + 22)) ;;
    ret tt) ;;
  advance (dh + 25) ;;
  (* TRUSTLESS ARCHITECTURE *)
  y <- get_y ;;
  draw_hr y 80 ;;
  advance 34 ;;
  y <- get_y ;;
  text (WIDTH / 2, y) "TRUSTLESS HYBRID ARCHITECTURE" (f_sect fonts)
       TEXT_COLOR mm ;;
  advance 44 ;;
  y <- get_y ;;
  let hw := (WIDTH - 110) / 2 in
  let bh := 260 in
  (* On-chain *)
  let lx := 40 in
  rounded_rect (lx, y, lx + hw, y + bh) 12 CARD_COLOR ;;
  text (lx + hw / 2, y + 20) "ON-CHAIN (Trustless)" (f_mb fonts)
       PRIMARY_COLOR mm ;;
  let ty := y + 48 in
  ty <- for_fold items_on ty (fun ty it =>
    text (lx + 20, ty) ("✓ " ++ it) (f_t fonts) TEXT_COLOR None ;;
    ret (ty + 26)) ;;
  (* Off-chain *)
  let rx := lx + hw + 30 in
  rounded_rect (rx, y, rx + hw, y + bh) 12 CARD_COLOR ;;
  text (rx + hw / 2, y + 20) "OFF-CHAIN (Validators)" (f_mb fonts)
       SECONDARY_COLOR mm ;;
  let ty := y + 48 in
  ty <- for_fold items_off ty (fun ty it =>
    text (rx + 20, ty) ("✓ " ++ it) (f_t fonts) TEXT_COLOR None ;;
    ret (ty + 26)) ;;
  advance (bh + 25) ;;
  (* WALLET *)
  y <- get_y ;;
  draw_hr y 80 ;;
  advance 34 ;;
  y <- get_y ;;
  text (WIDTH / 2, y) "OMNIWALLET: 70+ CHAINS, ONE WALLET" (f_sect fonts)
       TEXT_COLOR mm ;;
  advance 42 ;;
  y <- get_y ;;
  let wcw := (WIDTH - 80 - 36) / 4 in
  let wch := 150 in
  for_each (Py.enumerate wfs) (fun '(i, (title, desc, color)) =>
    let cx := 40 + i * (wcw + 12) in
    rounded_rect (cx, y, cx + wcw, y + wch) 10 CARD_COLOR ;;
    let lines := lines title in
    let ty := y + 18 in
    ty <- for_fold lines ty (fun ty ln =>
      text (cx + wcw / 2, ty) ln (f_sb fonts) color mm ;;
      ret (ty + 20)) ;;
    let ty := ty + 6 in
    ty <- for_fold (Script.lines desc) ty (fun ty ln =>
      text (cx + wcw / 2, ty) ln (f_t fonts) TEXT_COLOR mm ;;
      ret (ty + 19)) ;;
    ret tt) ;;
  advance (wch + 8) ;;
  y <- get_y ;;
  text (WIDTH / 2, y + 8)
       ("BIP39 HD wallet  •  Cross-chain bridge  •  "
        ++ "ENS-style usernames (alice.omnibazaar)  •  "
        ++ "NFT gallery  •  Biometric auth  •  Listing imports")
       (f_t fonts) MUTED_COLOR mm ;;
  advance 35 ;;
  (* EARNING OPPORTUNITIES *)
  y <- get_y ;;
  draw_hr y 80 ;;
  advance 34 ;;
  y <- get_y ;;
  text (WIDTH / 2, y) "EARNING OPPORTUNITIES" (f_sect fonts) TEXT_COLOR mm ;;
  advance 50 ;;
  (* Liquidity Program: 3 strategy cards *)
  y <- get_y ;;
  text (WIDTH / 2, y) "LIQUIDITY PROGRAM  —  45-180% Projected APY" (f_mb fonts)
       PRIMARY_COLOR mm ;;
  advance 10 ;;
  y <- get_y ;;
  text (WIDTH / 2, y + 20) "2.5 Billion XOM treasury backing your returns"
       (f_t fonts) MUTED_COLOR mm ;;
  advance 48 ;;
  y <- get_y ;;
  let liq_w := (WIDTH - 100 - 24) / 3 in
  let liq_h := 200 in
  for_each (Py.enumerate liq_cards) (fun '(i, (title, sub, apy, bullets, color)) =>
    let cx := 50 + i * (liq_w + 12) in
    (* Gradient-tinted card *)
    gradient_rect (cx, y, cx + liq_w, y + liq_h) CARD_HIGHLIGHT CARD_COLOR 12 ;;
    (* Color accent bar at top *)
    rounded_rect (cx, y, cx + liq_w, y + 5) 3 color ;;
    (* Title *)
    text (cx + liq_w / 2, y + 22) title (f_mb fonts) color mm ;;
    text (cx + liq_w / 2, y + 44) sub (f_t fonts) MUTED_COLOR mm ;;
    (* Big APY *)
    text (cx + liq_w / 2, y + 78) (apy ++ " APY") (f_lg fonts) TEXT_COLOR mm ;;
    (* Bullets *)
    let ty := y + 106 in
    ty <- for_fold bullets ty (fun ty b =>
      text (cx + 16, ty) ("• " ++ b) (f_t fonts) TEXT_COLOR None ;;
      ret (ty + 21)) ;;
    ret tt) ;;
  advance (liq_h + 22) ;;
  (* Staking Rewards table *)
  y <- get_y ;;
  text (WIDTH / 2, y) "STAKING REWARDS  —  5-12% APR" (f_mb fonts)
       ACCENT_ORANGE mm ;;
  advance 32 ;;
  (* Table header *)
  y <- get_y ;;
  rounded_rect (60, y, WIDTH - 60, y + 32) 5 CARD_HIGHLIGHT ;;
  for_each (Py.enumerate hdrs) (fun '(i, h) =>
    x <- lift (Py.index col_x i) ;;
    text (x, y + 16) h (f_sb fonts) MUTED_COLOR mm) ;;
  advance 36 ;;
  for_each rows (fun row =>
    y <- get_y ;;
    for_each (Py.enumerate row) (fun '(i, val) =>
      let color := if i =? 3 then PRIMARY_COLOR else TEXT_COLOR in
      x <- lift (Py.index col_x i) ;;
      text (x, y + 11) val (f_s fonts) color mm) ;;
    advance 25) ;;
  advance 4 ;;
  y <- get_y ;;
  text (WIDTH / 2, y)
       ("Duration: No lock (+0%)  •  1 month (+1%)  "
        ++ "•  6 months (+2%)  •  2 years (+3%)")
       (f_t fonts) MUTED_COLOR mm ;;
  advance 30 ;;
  (* Additional Earnings: colored cards *)
  y <- get_y ;;
  text (WIDTH / 2, y) "ADDITIONAL REVENUE STREAMS" (f_mb fonts) TEXT_COLOR mm ;;
  advance 32 ;;
  y <- get_y ;;
  let ecw := (WIDTH - 80 - 48) / 5 in
  let ech := 105 in
  for_each (Py.enumerate earn_cards) (fun '(i, (title, desc, icon, color)) =>
    let cx := 40 + i * (ecw + 12) in
    (* Gradient card *)
    gradient_rect (cx, y, cx + ecw, y + ech) color CARD_COLOR 10 ;;
    (* Title with icon *)
    text (cx + ecw / 2, y + 20) title (f_sb fonts) TEXT_COLOR mm ;;
    (* Description lines *)
    let ty := y + 42 in
    ty <- for_fold (lines desc) ty (fun ty ln =>
      text (cx + ecw / 2, ty) ln (f_t fonts) TEXT_COLOR mm ;;
      ret (ty + 19)) ;;
    ret tt) ;;
  advance (ech + 25) ;;
  (* COMING SOON *)
  y <- get_y ;;
  draw_hr y 80 ;;
  advance 34 ;;
  y <- get_y ;;
  text (WIDTH / 2, y) "COMING SOON" (f_sect fonts) TEXT_COLOR mm ;;
  advance 44 ;;
  y <- get_y ;;
  let sw2 := (WIDTH - 100 - 24) / 3 in
  let sh2 := 220 in
  for_each (Py.enumerate coming) (fun '(i, (title, bullets, color)) =>
    let cx := 50 + i * (sw2 + 12) in
    rounded_rect (cx, y, cx + sw2, y + sh2) 12 CARD_COLOR ;;
    let lines := lines title in
    let ty := y + 22 in
    ty <- for_fold lines ty (fun ty ln =>
      text (cx + sw2 / 2, ty) ln (f_sb fonts) color mm ;;
      ret (ty + 22)) ;;
    let ty := ty + 8 in
    ty <- for_fold bullets ty (fun ty b =>
      text (cx + 18, ty) ("• " ++ b) (f_t fonts) TEXT_COLOR None ;;
      ret (ty + 24)) ;;
    ret tt) ;;
  advance (sh2 + 25) ;;
  (* TOKENOMICS *)
  y <- get_y ;;
  draw_hr y 80 ;;
  advance 34 ;;
  y <- get_y ;;
  text (WIDTH / 2, y) "TOKENOMICS SNAPSHOT" (f_sect fonts) TEXT_COLOR mm ;;
  advance 40 ;;
  y <- get_y ;;
  rounded_rect (60, y, WIDTH - 60, y + 175) 12 CARD_COLOR ;;
  let ty := y + 18 in
  ty <- for_fold tok_l ty (fun ty '(lab, val) =>
    text (90, ty) lab (f_sb fonts) MUTED_COLOR None ;;
    text (280, ty) val (f_s fonts) TEXT_COLOR None ;;
    ret (ty + 35)) ;;
  let ty := y + 18 in
  ty <- for_fold tok_r ty (fun ty '(lab, val) =>
    text (620, ty) lab (f_sb fonts) MUTED_COLOR None ;;
    text (840, ty) val (f_s fonts) TEXT_COLOR None ;;
    ret (ty + 35)) ;;
  advance 195 ;;
  (* CTA *)
  y <- get_y ;;
  gradient_rect (200, y, WIDTH - 200, y + 55) PRIMARY_COLOR "#009977" 28 ;;
  text (WIDTH / 2, y + 27) "OMNIBAZAAR: THERE'S A MARKET FOR EVERYTHING"
       (f_mb fonts) BACKGROUND_COLOR mm ;;
  advance 75 ;;
  y <- get_y ;;
  text (WIDTH / 2, y)
       ("omnibazaar.com  |  whitepaper.omnibazaar.com  |  "
        ++ "tinyurl.com/obdeck1")
       (f_t fonts) MUTED_COLOR mm ;;
  advance 28 ;;
  y <- get_y ;;
  text (WIDTH / 2, y)
       ("Not financial advice. Crypto investments carry "
        ++ "significant risk.")
       (f_t fonts) MUTED_COLOR mm ;;
  advance 30.

(** The "CROP" step and the save: the canvas is cut down to the height
    [final_h] when that is less than [HEIGHT], then written. *)
Definition export (env : Env) : M unit :=
  y <- get_y ;;
  let final_h := y + 10 in
  (if final_h <? HEIGHT
   then on_img (fun img => Some (crop img (0, 0, WIDTH, final_h)))
   else ret tt) ;;
  save env OUTPUT_PATH.

(** Everything between the fonts and the "CROP" step. *)
Definition layout `{Backend} (env : Env) (fonts : Fonts) : M unit :=
  header env fonts ;;
  advance 120 ;;
  body fonts.

(** [create_infographic()]: the value returned ([tt] for Python's
    [None]), or [None] for an exception, with the final state. *)
Definition create_infographic `{Backend} (env : Env)
  : option (option unit * State) :=
  (bg <- hex_to_rgb BACKGROUND_COLOR ;;
   img <- new_canvas (WIDTH, HEIGHT) bg ;;
   let fonts := load_fonts env in
   let y := 20 in
   Some ((layout env fonts ;; export env) (start img y)))%opt.

End Features.

(** ** Vocabulary of the colour-utility statements *)

(** Strings of exactly six hexadecimal digits. *)
Definition hex6 (s : string) : bool :=
  (String.length s =? 6)%nat && forallb Py.is_hex (list_ascii_of_string s).

Definition hex_value (c : ascii) : Z :=
  match Py.hex_digit c with Some d => d | None => 0 end.

(** The two characters at positions [i] and [i+1], read as a byte. *)
Definition hex_pair (s : string) (i : nat) : Z :=
  match String.get i s, String.get (S i) s with
  | Some c, Some d => 16 * hex_value c + hex_value d
  | _, _ => 0
  end.

(** A colour as the data model has it: three 8-bit channels. *)
Definition byte_rgb (c : RGB) : Prop :=
  let '(r, g, b) := c in
  0 <= r <= 255 /\ 0 <= g <= 255 /\ 0 <= b <= 255.

Definition byte_rgbb (c : RGB) : bool :=
  let '(r, g, b) := c in
  (0 <=? r) && (r <=? 255) && (0 <=? g) && (g <=? 255) &&
  (0 <=? b) && (b <=? 255).

(** [n] copies of the hash sign. *)
Fixpoint hashes (n : nat) : string :=
  match n with
  | O => EmptyString
  | S n' => String "#" (hashes n')
  end.

Definition lower_char (c : ascii) : ascii :=
  let n := Py.code c in
  if (65 <=? n) && (n <=? 90) then ascii_of_N (Z.to_N (n + 32)) else c.

Fixpoint lower (s : string) : string :=
  match s with
  | String c s' => String (lower_char c) (lower s')
  | EmptyString => EmptyString
  end.

Definition hex_char (d : Z) : ascii :=
  if d <? 10 then ascii_of_N (Z.to_N (48 + d)) else ascii_of_N (Z.to_N (87 + d)).

(** Modelled from the spec: the reformatting of a colour as six
    hexadecimal digits, which the scripts do not contain.  It is
    ['%02x%02x%02x' % (r, g, b)] on byte channels. *)
Definition rgb_to_hex (c : RGB) : string :=
  let '(r, g, b) := c in
  let two v := String (hex_char (v / 16)) (String (hex_char (v mod 16)) EmptyString) in
  (two r ++ two g ++ two b)%string.

Definition hex_chars : list ascii :=
  list_ascii_of_string "0123456789abcdefABCDEF".

(** What holds of every pair of hexadecimal digits, checked by
    enumeration. *)
Definition pair_ok (c d : ascii) : bool :=
  let s := String c (String d EmptyString) in
  let v := 16 * hex_value c + hex_value d in
  match Py.int16 s with
  | Some v' =>
      (v' =? v) && (0 <=? v) && (v <=? 255)
      && String.eqb
           (String (hex_char (v / 16)) (String (hex_char (v mod 16)) EmptyString))
           (lower s)
      && negb (Ascii.eqb c "#")
  | None => false
  end.

(** ** Vocabulary of the gradient statements *)

Definition opaque (c : RGB) : RGBA := let '(r, g, b) := c in (r, g, b, 255).

(** The same channel computed with the Standard Library's executable
    binary64 operations ([SpecFloat]), for cross-checking [Py.Float] on
    the gradients the script draws. *)
Module Binary64.

Definition prec : Z := 53.
Definition emax : Z := 1024.

Definition of_int (n : Z) : spec_float := binary_normalize prec emax n 0 false.

Definition to_int (x : spec_float) : Z :=
  match x with
  | S754_finite s m e =>
      let mag := if 0 <=? e then Zpos m * 2 ^ e else Zpos m / 2 ^ (- e) in
      if s then - mag else mag
  | _ => 0
  end.

Definition gradient_channel (ct cb h row : Z) : Z :=
  let t := SFdiv prec emax (of_int row) (of_int (Z.max (h - 1) 1)) in
  to_int (SFadd prec emax (of_int ct) (SFmul prec emax (of_int (cb - ct)) t)).

Definition agrees (ct cb : RGB) (h : Z) : bool :=
  let '(ct0, ct1, ct2) := ct in
  let '(cb0, cb1, cb2) := cb in
  forallb (fun row =>
             (Features.gradient_channel ct0 cb0 h row =? gradient_channel ct0 cb0 h row)
             && (Features.gradient_channel ct1 cb1 h row =? gradient_channel ct1 cb1 h row)
             && (Features.gradient_channel ct2 cb2 h row =? gradient_channel ct2 cb2 h row))
          (Py.range h).

End Binary64.

(** ** Vocabulary of the rasteriser statements *)

(** The shape the rounded-rectangle helper paints when it works with
    radius [r]: two strips and four corner ellipses. *)
Definition rounded_region `{Backend} (coords : Box) (r : Z) (x y : Z) : bool :=
  let '(x1, y1, x2, y2) := coords in
  rectangle_region (x1 + r, y1, x2 - r, y2) x y
  || rectangle_region (x1, y1 + r, x2, y2 - r) x y
  || ellipse_region (x1, y1, x1 + 2 * r, y1 + 2 * r) x y
  || ellipse_region (x2 - 2 * r, y1, x2, y1 + 2 * r) x y
  || ellipse_region (x1, y2 - 2 * r, x1 + 2 * r, y2) x y
  || ellipse_region (x2 - 2 * r, y2 - 2 * r, x2, y2) x y.

(** The destination pixels [draw_gradient_rect] can change when it is
    given a positive radius: those of the box [[x1, x2) x [y1, y2)] that
    the rounded rectangle drawn on the mask covers. *)
Definition gradient_footprint `{Backend} (coords : Box) (radius : Z) (x y : Z)
  : bool :=
  let '(x1, y1, x2, y2) := coords in
  let w := x2 - x1 in
  let h := y2 - y1 in
  (x1 <=? x) && (x <? x2) && (y1 <=? y) && (y <? y2)
  && rounded_region (0, 0, w, h)
       (Features.effective_radius (0, 0, w, h) radius) (x - x1) (y - y1).

(** The same rasteriser in an older library version, which accepts any
    box and whose default font is the bitmap font. *)
Definition legacy_backend : Backend :=
  {| ellipse_region := ideal_ellipse; strict_boxes := false;
     bitmap_default_font := true |}.

(** A black single-band image. *)
Definition black (w h : Z) : Image Z := mkImage w h (fun _ _ => 0).

(** An empty canvas. *)
Definition empty_canvas (w h : Z) : Canvas := mkCanvas (w, h) (0, 0, 0) [].

(** ** Vocabulary of the layout statements *)

(** Each value is strictly greater than the one before it. *)
Fixpoint increasing_from (y : Z) (l : list Z) : Prop :=
  match l with
  | [] => True
  | y' :: l' => y < y' /\ increasing_from y' l'
  end.

Definition increasing (l : list Z) : Prop :=
  match l with
  | [] => True
  | y :: l' => increasing_from y l'
  end.

Definition uses_default_font (c : Call) : bool :=
  match c with
  | Text _ _ DefaultFont _ _ => true
  | Text _ _ (TrueType _ _) _ _ => false
  | _ => true
  end.

Definition pastes_asset (c : Call) : bool :=
  match c with
  | Paste (Asset _ _ _) _ _ => true
  | _ => false
  end.

(** The latest call made on a canvas. *)
Definition last_call (c : Canvas) : option Call := hd_error (rev (calls c)).

(** A machine where every file is present, and one where no font and no
    image can be read; both can write the output. *)
Definition full_env : Script.Env :=
  Script.mkEnv (fun _ => true) (fun _ => Some "RGBA"%string)
               (fun _ _ => Some (0, 11, 372, 54)) (fun _ => true).

Definition bare_env : Script.Env :=
  Script.mkEnv (fun _ => false) (fun _ => None) (fun _ _ => None)
               (fun _ => true).

(** A computation that only moves the cursor upwards: the values it
    appends to the trail increase strictly from the cursor's value, and
    the cursor ends on the last of them. *)
Definition climbs {A : Type} (m : Script.M A) : Prop :=
  forall s, exists steps,
      Script.st_trail (snd (m s)) = Script.st_trail s ++ steps
      /\ increasing_from (Script.st_y s) steps
      /\ Script.st_y (snd (m s)) = last steps (Script.st_y s).

(** The state in which each script reaches its export step, with the
    outcome of the layout ([Some tt] unless an exception was raised). *)
Definition yield_working `{Backend} (env : Script.Env) : option unit * Script.State :=
  Yield.layout env (Yield.load_fonts env)
               (Script.start (mkCanvas (1200, 1600) (15, 20, 25) []) 30).

Definition features_working `{Backend} (env : Script.Env)
  : option unit * Script.State :=
  Features.layout env (Features.load_fonts env)
                  (Script.start (mkCanvas (1200, 3200) (15, 20, 25) []) 20).

(** Whether every font file the script asks for can be loaded. *)
Definition yield_fonts_load (env : Script.Env) : bool :=
  Script.font_file env Yield.DEJAVU_BOLD && Script.font_file env Yield.DEJAVU.

Definition features_fonts_load (env : Script.Env) : bool :=
  Script.font_file env "/usr/share/fonts/truetype/dejavu/DejaVuSans-Bold.ttf"
  && Script.font_file env "/usr/share/fonts/truetype/dejavu/DejaVuSans.ttf".

(** Whether every text of the script can be drawn: the fonts are
    loaded, or the default font that stands in for them is not the
    bitmap font (which cannot draw the bullets). *)
Definition yield_texts_draw `{Backend} (env : Script.Env) : bool :=
  yield_fonts_load env || negb bitmap_default_font.

Definition features_texts_draw `{Backend} (env : Script.Env) : bool :=
  features_fonts_load env || negb bitmap_default_font.

(** Whether the [try] block of the features header goes through: the
    globe opens and the brand name can be measured. *)
Definition features_logo_loads (env : Script.Env) : bool :=
  match Script.image_file env Features.GLOBE_PATH,
        Script.text_bbox env (Features.f_brand (Features.load_fonts env))
                         "OmniBazaar"
  with
  | Some _, Some _ => true
  | _, _ => false
  end.

Definition yield_trail_with_logo : list Z :=
  [30; 170; 230; 280; 380; 690; 740; 880; 920; 965; 1000; 1035; 1070; 1090;
   1230; 1270; 1340; 1420; 1450].

Definition yield_trail_without_logo : list Z :=
  [30; 150; 210; 260; 360; 670; 720; 860; 900; 945; 980; 1015; 1050; 1070;
   1210; 1250; 1320; 1400; 1430].

Definition features_trail : list Z :=
  [20; 140; 188; 230; 340; 384; 601; 635; 683; 923; 957; 1001; 1286; 1320;
   1362; 1520; 1555; 1589; 1639; 1649; 1697; 1919; 1951; 1987; 2012; 2037;
   2062; 2087; 2112; 2116; 2146; 2178; 2308; 2342; 2386; 2631; 2665; 2705;
   2900; 2975; 3003; 3033].

Definition yield_loaded_fonts : Yield.Fonts :=
  Yield.mkFonts (TrueType Yield.DEJAVU_BOLD 48) (TrueType Yield.DEJAVU_BOLD 32)
                (TrueType Yield.DEJAVU 24) (TrueType Yield.DEJAVU 20)
                (TrueType Yield.DEJAVU 16).

Definition yield_default_fonts : Yield.Fonts :=
  Yield.mkFonts DefaultFont DefaultFont DefaultFont DefaultFont DefaultFont.

Definition features_loaded_fonts : Features.Fonts :=
  let B := "/usr/share/fonts/truetype/dejavu/DejaVuSans-Bold.ttf"%string in
  let R := "/usr/share/fonts/truetype/dejavu/DejaVuSans.ttf"%string in
  Features.mkFonts (TrueType B 52) (TrueType B 56) (TrueType B 36)
                   (TrueType B 30) (TrueType B 24) (TrueType R 24)
                   (TrueType R 20) (TrueType B 18) (TrueType R 18)
                   (TrueType B 15) (TrueType R 15) (TrueType B 40).

Definition features_default_fonts : Features.Fonts :=
  Features.mkFonts DefaultFont DefaultFont DefaultFont DefaultFont
                   DefaultFont DefaultFont DefaultFont DefaultFont
                   DefaultFont DefaultFont DefaultFont DefaultFont.

(** ** Vocabulary of the further properties *)

(** Every 8-bit character, and the strings of at most two of them: the
    arguments [hex_to_rgb] can pass to [int]. *)
Definition all_chars : list ascii := List.map ascii_of_nat (List.seq 0 256).

Definition short_strings : list string :=
  EmptyString
  :: List.map (fun c => String c EmptyString) all_chars
  ++ List.flat_map
       (fun c => List.map (fun d => String c (String d EmptyString)) all_chars)
       all_chars.

Definition has_minus (s : string) : bool :=
  existsb (Ascii.eqb "-") (list_ascii_of_string s).

Definition same_int (a b : option Z) : bool :=
  match a, b with
  | Some v, Some w => v =? w
  | None, None => true
  | _, _ => false
  end.

(** What holds of [int(s, 16)] on every string of at most two
    characters, checked by enumeration: a value lies between -15 and
    255, is negative only if the string holds a minus sign, and does not
    depend on the case of the letters. *)
Definition short_ok (s : string) : bool :=
  match Py.int16 s with
  | Some v => (-15 <=? v) && (v <=? 255) && ((0 <=? v) || has_minus s)
  | None => true
  end
  && same_int (Py.int16 (lower s)) (Py.int16 s).

(** Three properties a rasteriser of ellipses can have: the ellipse
    stays inside its bounding box, it has the same shape wherever the
    box is moved by whole pixels, and it is symmetric about both axes of
    the box. *)
Definition ellipse_in_box (B : Backend) : Prop :=
  forall xy x y, ellipse_region xy x y = true -> rectangle_region xy x y = true.

Definition ellipse_translates (B : Backend) : Prop :=
  forall x0 y0 x1 y1 dx dy x y,
    ellipse_region (x0 + dx, y0 + dy, x1 + dx, y1 + dy) (x + dx) (y + dy)
    = ellipse_region (x0, y0, x1, y1) x y.

Definition ellipse_mirrors (B : Backend) : Prop :=
  forall x0 y0 x1 y1 x y,
    ellipse_region (x0, y0, x1, y1) (x0 + x1 - x) y
    = ellipse_region (x0, y0, x1, y1) x y
    /\ ellipse_region (x0, y0, x1, y1) x (y0 + y1 - y)
       = ellipse_region (x0, y0, x1, y1) x y.

(** The colour of an RGBA pixel. *)
Definition rgb_of (c : RGBA) : RGB := let '(r, g, b, _) := c in (r, g, b).

(** The destination pixels [draw_gradient_rect] writes: those of the
    box [[x1, x2) x [y1, y2)], restricted to the rounded rectangle of
    the mask when the radius is positive. *)
Definition gradient_cover `{Backend} (coords : Box) (radius : Z) (x y : Z) : bool :=
  let '(x1, y1, x2, y2) := coords in
  if 0 <? radius then gradient_footprint coords radius x y
  else (x1 <=? x) && (x <? x2) && (y1 <=? y) && (y <? y2).

(** Whether a shape drawn on the canvas (a rectangle, an ellipse or a
    pasted buffer) lies inside an image of [w] columns and [h] rows. *)
Definition box_inside (w h : Z) (xy : Box) : bool :=
  let '(x0, y0, x1, y1) := xy in
  (0 <=? x0) && (x0 <=? x1) && (x1 <? w) && (0 <=? y0) && (y0 <=? y1) && (y1 <? h).

Definition shape_inside (w h : Z) (c : Call) : bool :=
  match c with
  | Rectangle xy _ | Ellipse xy _ => box_inside w h xy
  | Paste (Buffer im) (x, y) _ =>
      (0 <=? x) && (x + width im <=? w) && (0 <=? y) && (y + height im <=? h)
  | _ => true
  end.

(** The rows a shape spans: its top and its bottom. *)
Definition rows_of (c : Call) : option (Z * Z) :=
  match c with
  | Rectangle (_, y0, _, y1) _ | Ellipse (_, y0, _, y1) _ => Some (y0, y1)
  | Paste (Buffer im) (_, y) _ => Some (y, y + height im)
  | _ => None
  end.

(** Whether the rows from [top] to [bottom] lie between two consecutive
    values of the cursor. *)
Fixpoint in_band (trail : list Z) (top bottom : Z) : bool :=
  match trail with
  | a :: ((b :: _) as rest) =>
      ((a <=? top) && (bottom <=? b)) || in_band rest top bottom
  | _ => false
  end.

Definition within_bands (trail : list Z) (c : Call) : bool :=
  match rows_of c with
  | Some (top, bottom) => in_band trail top bottom
  | None => true
  end.

(** A call moved down by [dy] rows. *)
Definition shift_call (dy : Z) (c : Call) : Call :=
  match c with
  | Rectangle (x0, y0, x1, y1) fill => Rectangle (x0, y0 + dy, x1, y1 + dy) fill
  | Ellipse (x0, y0, x1, y1) fill => Ellipse (x0, y0 + dy, x1, y1 + dy) fill
  | Text (x, y) text font fill anchor => Text (x, y + dy) text font fill anchor
  | Paste im (x, y) masked => Paste im (x, y + dy) masked
  | Crop box => Crop box
  end.

(** The same machine with no image file to open. *)
Definition without_images (env : Script.Env) : Script.Env :=
  Script.mkEnv (Script.font_file env) (fun _ => None) (Script.text_bbox env)
               (Script.writable env).
(* ================================================================== *)
(** * Part II: lemmas *)
(* ================================================================== *)

(** ** Binary64 rounding: monotone, and exact on small integers *)

Module FloatFacts.
Import Py.Float.
Local Open Scope Q_scope.

Lemma pow2_pos e : 0 < pow2 e.
Proof. apply Qpower_0_lt. reflexivity. Qed.

Lemma pow2_le a b : (a <= b)%Z -> pow2 a <= pow2 b.
Proof. intros H. apply Qpower_le_compat_l; [exact H | discriminate]. Qed.

Lemma pow2_plus a b : pow2 (a + b) == pow2 a * pow2 b.
Proof. apply Qpower_plus. discriminate. Qed.

Lemma pow2_inject n : (0 <= n)%Z -> pow2 n == inject_Z (2 ^ n).
Proof. intros H. unfold pow2. rewrite Zpower_Qpower by exact H. reflexivity. Qed.

Lemma pow2_lt_inv a b : pow2 a < pow2 b -> (a < b)%Z.
Proof.
  intros H. destruct (Z_lt_le_dec a b) as [L | L]; [exact L | ].
  apply pow2_le in L. lra.
Qed.

Lemma ilog2_spec x : 0 < x -> pow2 (ilog2 x) <= x /\ x < pow2 (ilog2 x + 1).
Proof.
  intros Hx. destruct x as [p q]. 
  assert (Hp : (0 < p)%Z).
  { unfold Qlt in Hx. simpl in Hx. lia. }
  unfold ilog2. cbn [Qnum Qden].
  set (a := Z.log2 p). set (b := Z.log2 (Zpos q)).
  assert (Ha0 : (0 <= a)%Z) by apply Z.log2_nonneg.
  assert (Hb0 : (0 <= b)%Z) by apply Z.log2_nonneg.
  destruct (Z.log2_spec p Hp) as [Ha1 Ha2]. fold a in Ha1, Ha2.
  destruct (Z.log2_spec (Zpos q) (eq_refl : (0 < Zpos q)%Z)) as [Hb1 Hb2].
  fold b in Hb1, Hb2.
  assert (E : inject_Z p == (p # q) * inject_Z (Zpos q)).
  { unfold Qeq, Qmult, inject_Z. simpl. rewrite Pos.mul_1_r. ring. }
  assert (Ia1 : pow2 a <= inject_Z p).
  { rewrite pow2_inject by exact Ha0. rewrite <- Zle_Qle. exact Ha1. }
  assert (Ia2 : inject_Z p < pow2 (a + 1)).
  { rewrite pow2_inject by lia. rewrite <- Zlt_Qlt. replace (a + 1)%Z with (Z.succ a) by lia. exact Ha2. }
  assert (Ib1 : pow2 b <= inject_Z (Zpos q)).
  { rewrite pow2_inject by exact Hb0. rewrite <- Zle_Qle. exact Hb1. }
  assert (Ib2 : inject_Z (Zpos q) < pow2 (b + 1)).
  { rewrite pow2_inject by lia. rewrite <- Zlt_Qlt. replace (b + 1)%Z with (Z.succ b) by lia. exact Hb2. }
  assert (Hup : (p # q) < pow2 (a - b + 1)).
  { apply (Qmult_lt_r _ _ (pow2 b) (pow2_pos b)).
    rewrite <- pow2_plus. replace (a - b + 1 + b)%Z with (a + 1)%Z by lia.
    apply Qle_lt_trans with (y := (p # q) * inject_Z (Zpos q)).
    - apply Qmult_le_l; [exact Hx | exact Ib1].
    - rewrite <- E. exact Ia2. }
  assert (Hlo : pow2 (a - b - 1) <= (p # q)).
  { apply (Qmult_le_r _ _ (pow2 (b + 1)) (pow2_pos (b + 1))).
    rewrite <- pow2_plus. replace (a - b - 1 + (b + 1))%Z with a by lia.
    apply Qle_trans with (y := (p # q) * inject_Z (Zpos q)).
    - rewrite <- E. exact Ia1.
    - apply Qmult_le_l; [exact Hx | apply Qlt_le_weak; exact Ib2]. }
  destruct (Qle_bool (pow2 (a - b)) (p # q)) eqn:T.
  - apply Qle_bool_iff in T. split; assumption.
  - split; [exact Hlo | ].
    replace (a - b - 1 + 1)%Z with (a - b)%Z by lia.
    apply Qnot_le_lt. intro C. apply Qle_bool_iff in C. congruence.
Qed.

Lemma ilog2_mono x y : 0 < x -> x <= y -> (ilog2 x <= ilog2 y)%Z.
Proof.
  intros Hx Hxy.
  destruct (ilog2_spec x Hx) as [X1 _].
  destruct (ilog2_spec y) as [_ Y2]; [lra | ].
  assert (pow2 (ilog2 x) < pow2 (ilog2 y + 1)) by lra.
  apply pow2_lt_inv in H. lia.
Qed.

Lemma rhe_lb x : (Qfloor x <= round_half_even x)%Z.
Proof.
  unfold round_half_even. destruct (Qcompare _ _); [ destruct (Z.even _) | | ]; lia.
Qed.

Lemma rhe_ub x : (round_half_even x <= Qfloor x + 1)%Z.
Proof.
  unfold round_half_even. destruct (Qcompare _ _); [ destruct (Z.even _) | | ]; lia.
Qed.

Lemma rhe_int n : round_half_even (inject_Z n) = n.
Proof.
  unfold round_half_even. rewrite Qfloor_Z.
  destruct (Qcompare_spec (inject_Z n - inject_Z n) (1 # 2)) as [H | H | H];
    try reflexivity; exfalso; lra.
Qed.

Lemma rhe_mono x y : x <= y -> (round_half_even x <= round_half_even y)%Z.
Proof.
  intros H. pose proof (Qfloor_resp_le _ _ H) as F.
  destruct (Z.eq_dec (Qfloor x) (Qfloor y)) as [E | NE].
  - unfold round_half_even. rewrite E.
    destruct (Qcompare_spec (x - inject_Z (Qfloor y)) (1 # 2)) as [A | A | A];
    destruct (Qcompare_spec (y - inject_Z (Qfloor y)) (1 # 2)) as [B | B | B];
      try destruct (Z.even (Qfloor y)); try lia; exfalso; lra.
  - pose proof (rhe_ub x). pose proof (rhe_lb y). lia.
Qed.

Lemma round_pos_eq x :
  round_pos x == inject_Z (round_half_even (x / pow2 (fexp (ilog2 x)))) * pow2 (fexp (ilog2 x)).
Proof. unfold round_pos. apply Qred_correct. Qed.

Lemma div_pow2_le x y e : x <= y -> x / pow2 e <= y / pow2 e.
Proof.
  intros H. unfold Qdiv. apply Qmult_le_compat_r; [exact H | ].
  apply Qinv_le_0_compat. apply Qlt_le_weak. apply pow2_pos.
Qed.

Lemma round_pos_nonneg x : 0 < x -> 0 <= round_pos x.
Proof.
  intros Hx. rewrite round_pos_eq.
  apply Qmult_le_0_compat; [ | apply Qlt_le_weak, pow2_pos].
  change 0 with (inject_Z 0). rewrite <- Zle_Qle.
  rewrite <- (rhe_int 0) at 1. apply rhe_mono.
  apply Qle_shift_div_l; [apply pow2_pos | ]. change (inject_Z 0) with 0. lra.
Qed.

Lemma round_pos_mono x y : 0 < x -> x <= y -> round_pos x <= round_pos y.
Proof.
  intros Hx Hxy. assert (Hy : 0 < y) by lra.
  rewrite (round_pos_eq x), (round_pos_eq y).
  pose proof (ilog2_mono x y Hx Hxy) as L.
  destruct (ilog2_spec x Hx) as [_ X2]. destruct (ilog2_spec y Hy) as [Y1 _].
  set (lx := ilog2 x) in *. set (ly := ilog2 y) in *.
  set (ex := fexp lx). set (ey := fexp ly).
  assert (Le : (ex <= ey)%Z) by (unfold ex, ey, fexp; lia).
  destruct (Z.eq_dec ex ey) as [E | NE].
  - rewrite E. apply Qmult_le_compat_r; [ | apply Qlt_le_weak, pow2_pos].
    rewrite <- Zle_Qle. apply rhe_mono. apply div_pow2_le. exact Hxy.
  - assert (Mx : (round_half_even (x / pow2 ex) <= 2 ^ 53)%Z).
    { rewrite <- (rhe_int (2 ^ 53)). apply rhe_mono.
      apply Qle_shift_div_r; [apply pow2_pos | ].
      rewrite <- pow2_inject by lia. rewrite <- pow2_plus.
      apply Qlt_le_weak. eapply Qlt_le_trans; [exact X2 | ].
      apply pow2_le. unfold ex, fexp, prec. lia. }
    assert (My : (2 ^ 52 <= round_half_even (y / pow2 ey))%Z).
    { rewrite <- (rhe_int (2 ^ 52)) at 1. apply rhe_mono.
      apply Qle_shift_div_l; [apply pow2_pos | ].
      rewrite <- pow2_inject by lia. rewrite <- pow2_plus.
      eapply Qle_trans; [ | exact Y1].
      apply pow2_le. unfold ex, ey, fexp, prec, emin in *. lia. }
    apply Qle_trans with (y := inject_Z (2 ^ 53) * pow2 ex).
    + apply Qmult_le_compat_r; [ | apply Qlt_le_weak, pow2_pos].
      rewrite <- Zle_Qle. exact Mx.
    + apply Qle_trans with (y := inject_Z (2 ^ 52) * pow2 ey).
      * rewrite <- !pow2_inject by lia. rewrite <- !pow2_plus.
        apply pow2_le. lia.
      * apply Qmult_le_compat_r; [ | apply Qlt_le_weak, pow2_pos].
        rewrite <- Zle_Qle. exact My.
Qed.

Lemma round_pos_comp x y : 0 < x -> x == y -> round_pos x == round_pos y.
Proof.
  intros Hx E. apply Qle_antisym; apply round_pos_mono; lra.
Qed.

Lemma round_cases x :
  (x == 0 /\ round x = 0) \/ (0 < x /\ round x = round_pos x)
  \/ (x < 0 /\ round x = - round_pos (- x)).
Proof.
  destruct x as [[ | p | p] q]; unfold round; cbn [Qnum].
  - left. split; reflexivity.
  - right. left. split; reflexivity.
  - right. right. split; reflexivity.
Qed.

Lemma round_mono x y : x <= y -> round x <= round y.
Proof.
  intros H.
  destruct (round_cases x) as [[X ->] | [[X ->] | [X ->]]];
  destruct (round_cases y) as [[Y ->] | [[Y ->] | [Y ->]]]; try (exfalso; lra).
  - lra.
  - apply round_pos_nonneg. exact Y.
  - apply round_pos_mono; assumption.
  - assert (0 <= round_pos (- x)) by (apply round_pos_nonneg; lra). lra.
  - assert (0 <= round_pos (- x)) by (apply round_pos_nonneg; lra).
    assert (0 <= round_pos y) by (apply round_pos_nonneg; lra). lra.
  - assert (round_pos (- y) <= round_pos (- x)) by (apply round_pos_mono; lra). lra.
Qed.

Lemma round_comp x y : x == y -> round x == round y.
Proof. intros E. apply Qle_antisym; apply round_mono; lra. Qed.

Lemma round_pos_int n : (0 < n < 2 ^ 53)%Z -> round_pos (inject_Z n) == inject_Z n.
Proof.
  intros Hn. rewrite round_pos_eq.
  assert (Hx : 0 < inject_Z n).
  { change 0 with (inject_Z 0). rewrite <- Zlt_Qlt. lia. }
  destruct (ilog2_spec _ Hx) as [L1 _].
  set (e := fexp (ilog2 (inject_Z n))).
  assert (He : (e <= 0)%Z).
  { assert (pow2 (ilog2 (inject_Z n)) < pow2 53).
    { eapply Qle_lt_trans; [exact L1 | ].
      rewrite pow2_inject by lia. rewrite <- Zlt_Qlt. lia. }
    apply pow2_lt_inv in H. unfold e, fexp, prec, emin. lia. }
  assert (P : pow2 e * pow2 (- e) == 1).
  { rewrite <- pow2_plus. replace (e + - e)%Z with 0%Z by lia. reflexivity. }
  assert (D : inject_Z n / pow2 e == inject_Z (n * 2 ^ (- e))).
  { rewrite inject_Z_mult. rewrite <- pow2_inject by lia.
    apply Qmult_inj_r with (z := pow2 e).
    - pose proof (pow2_pos e). lra.
    - unfold Qdiv. rewrite <- Qmult_assoc. rewrite (Qmult_comm (/ pow2 e)).
      rewrite Qmult_inv_r by (pose proof (pow2_pos e); lra).
      rewrite <- Qmult_assoc. rewrite (Qmult_comm (pow2 (- e))). rewrite P. ring. }
  assert (R : round_half_even (inject_Z n / pow2 e) = (n * 2 ^ (- e))%Z).
  { rewrite <- (rhe_int (n * 2 ^ (- e))).
    apply Z.le_antisymm; apply rhe_mono; rewrite D; apply Qle_refl. }
  rewrite R. rewrite inject_Z_mult. rewrite <- pow2_inject by lia.
  rewrite <- Qmult_assoc. rewrite (Qmult_comm (pow2 (- e))). rewrite P. ring.
Qed.

Lemma round_int n : (Z.abs n < 2 ^ 53)%Z -> round (inject_Z n) == inject_Z n.
Proof.
  intros Hn. destruct n as [ | p | p]; unfold round, inject_Z; cbn [Qnum].
  - reflexivity.
  - apply (round_pos_int (Zpos p)). lia.
  - change (- (Z.neg p # 1)) with (inject_Z (Zpos p)).
    rewrite (round_pos_int (Zpos p)) by lia. reflexivity.
Qed.

Lemma to_int_mono x y : x <= y -> (to_int x <= to_int y)%Z.
Proof.
  intros H. unfold to_int.
  destruct (Qle_bool 0 x) eqn:X; destruct (Qle_bool 0 y) eqn:Y.
  - apply Qfloor_resp_le. exact H.
  - apply Qle_bool_iff in X. assert (~ 0 <= y) by (rewrite <- Qle_bool_iff; congruence). lra.
  - assert (NX : ~ 0 <= x) by (rewrite <- Qle_bool_iff; congruence).
    apply Qle_bool_iff in Y.
    assert (Qceiling x <= Qceiling 0)%Z by (apply Qceiling_resp_le; lra).
    assert (Qfloor 0 <= Qfloor y)%Z by (apply Qfloor_resp_le; exact Y).
    change (Qceiling 0) with 0%Z in *. change (Qfloor 0) with 0%Z in *. lia.
  - apply Qceiling_resp_le. exact H.
Qed.

Lemma to_int_comp x y : x == y -> to_int x = to_int y.
Proof. intros E. apply Z.le_antisymm; apply to_int_mono; lra. Qed.

Lemma to_int_inject n : to_int (inject_Z n) = n.
Proof.
  unfold to_int. destruct (Qle_bool 0 (inject_Z n)).
  - apply Qfloor_Z.
  - apply Qceiling_Z.
Qed.

End FloatFacts.

(** ** The colour utility *)

Example hex_to_rgb_primary : hex_to_rgb "#00d4aa" = Some (0, 212, 170).
Proof. reflexivity. Qed.

Example hex_to_rgb_signs : hex_to_rgb "+1-2 f" = Some (1, -2, 15).
Proof. reflexivity. Qed.

Example hex_to_rgb_0x : hex_to_rgb "0x1234" = None.
Proof. reflexivity. Qed.

Example hex_to_rgb_short : hex_to_rgb "12345" = Some (18, 52, 5).
Proof. reflexivity. Qed.

Lemma is_hex_cases c : Py.is_hex c = true -> In c hex_chars.
Proof.
  destruct c as [[] [] [] [] [] [] [] []]; intros H;
    try (cbv in H; discriminate H); cbv; tauto.
Qed.

Lemma pair_ok_all c d :
  Py.is_hex c = true -> Py.is_hex d = true -> pair_ok c d = true.
Proof.
  intros Hc Hd. apply is_hex_cases in Hc. apply is_hex_cases in Hd.
  assert (A : forallb (fun c => forallb (pair_ok c) hex_chars) hex_chars = true)
    by (vm_compute; reflexivity).
  rewrite forallb_forall in A. specialize (A c Hc).
  rewrite forallb_forall in A. exact (A d Hd).
Qed.

Lemma pair_int16 c d :
  Py.is_hex c = true -> Py.is_hex d = true ->
  Py.int16 (String c (String d EmptyString)) = Some (16 * hex_value c + hex_value d)
  /\ 0 <= 16 * hex_value c + hex_value d <= 255
  /\ String (hex_char ((16 * hex_value c + hex_value d) / 16))
       (String (hex_char ((16 * hex_value c + hex_value d) mod 16)) EmptyString)
     = String (lower_char c) (String (lower_char d) EmptyString)
  /\ Ascii.eqb c "#" = false.
Proof.
  intros Hc Hd. pose proof (pair_ok_all c d Hc Hd) as P. unfold pair_ok in P.
  destruct (Py.int16 (String c (String d EmptyString))) as [v' | ]; [ | discriminate].
  repeat (apply andb_prop in P; destruct P as [P ?]).
  apply Z.eqb_eq in P. apply Z.leb_le in H2. apply Z.leb_le in H1.
  apply String.eqb_eq in H0. apply negb_true_iff in H.
  subst v'. repeat split; try assumption.
Qed.

Lemma hex6_inv s :
  hex6 s = true ->
  exists c1 c2 c3 c4 c5 c6,
    s = String c1 (String c2 (String c3 (String c4 (String c5 (String c6 EmptyString)))))
    /\ Py.is_hex c1 = true /\ Py.is_hex c2 = true /\ Py.is_hex c3 = true
    /\ Py.is_hex c4 = true /\ Py.is_hex c5 = true /\ Py.is_hex c6 = true.
Proof.
  unfold hex6. intros H. apply andb_prop in H. destruct H as [L F].
  destruct s as [ | c1 [ | c2 [ | c3 [ | c4 [ | c5 [ | c6 [ | c7 s]]]]]]];
    try discriminate L.
  simpl in F. repeat (apply andb_prop in F; destruct F as [? F]).
  exists c1, c2, c3, c4, c5, c6. repeat split; assumption.
Qed.

Lemma lstrip_hashes n s : Py.lstrip "#" (hashes n ++ s) = Py.lstrip "#" s.
Proof. induction n as [ | n IH]; simpl; [reflexivity | exact IH]. Qed.

Lemma hex_to_rgb_hashes n s : hex_to_rgb (hashes n ++ s) = hex_to_rgb s.
Proof. unfold hex_to_rgb. rewrite lstrip_hashes. reflexivity. Qed.

(** Six hexadecimal digits parse as their three pairs, each a byte, and
    printing the bytes in lower-case hexadecimal gives the digits back in
    lower case. *)
Lemma hex_to_rgb_hex6 s :
  hex6 s = true ->
  hex_to_rgb s = Some (hex_pair s 0, hex_pair s 2, hex_pair s 4)
  /\ byte_rgb (hex_pair s 0, hex_pair s 2, hex_pair s 4)
  /\ rgb_to_hex (hex_pair s 0, hex_pair s 2, hex_pair s 4) = lower s.
Proof.
  intros H. destruct (hex6_inv s H) as (c1 & c2 & c3 & c4 & c5 & c6 & -> & H1 & H2 & H3 & H4 & H5 & H6).
  destruct (pair_int16 c1 c2 H1 H2) as (A1 & A2 & A3 & A4).
  destruct (pair_int16 c3 c4 H3 H4) as (B1 & B2 & B3 & _).
  destruct (pair_int16 c5 c6 H5 H6) as (C1 & C2 & C3 & _).
  unfold hex_to_rgb. cbn [Py.lstrip]. rewrite A4.
  unfold Py.slice, hex_pair. cbn [Nat.sub String.substring String.get].
  rewrite A1, B1, C1. split; [reflexivity | ]. split.
  - unfold byte_rgb. tauto.
  - unfold rgb_to_hex. rewrite A3, B3, C3. reflexivity.
Qed.

Lemma lstrip_idem ch s : Py.lstrip ch (Py.lstrip ch s) = Py.lstrip ch s.
Proof.
  induction s as [ | c s IH]; simpl; [reflexivity | ].
  destruct (Ascii.eqb c ch) eqn:E; [exact IH | ].
  simpl. rewrite E. reflexivity.
Qed.

Lemma lstrip_slice6 ch s :
  Py.lstrip ch (Py.slice (Py.lstrip ch s) 0 6) = Py.slice (Py.lstrip ch s) 0 6.
Proof.
  induction s as [ | c s IH]; simpl; [reflexivity | ].
  destruct (Ascii.eqb c ch) eqn:E; [exact IH | ].
  unfold Py.slice. simpl. rewrite E. reflexivity.
Qed.

Lemma slice_slice6 s :
  Py.slice (Py.slice s 0 6) 0 2 = Py.slice s 0 2
  /\ Py.slice (Py.slice s 0 6) 2 4 = Py.slice s 2 4
  /\ Py.slice (Py.slice s 0 6) 4 6 = Py.slice s 4 6.
Proof.
  destruct s as [ | c1 [ | c2 [ | c3 [ | c4 [ | c5 [ | c6 [ | c7 s]]]]]]];
    repeat split; reflexivity.
Qed.

(** No validation: only the first six characters that follow the hash
    signs are looked at. *)
Lemma hex_to_rgb_first6 s :
  hex_to_rgb s = hex_to_rgb (Py.slice (Py.lstrip "#" s) 0 6).
Proof.
  unfold hex_to_rgb. rewrite lstrip_slice6.
  destruct (slice_slice6 (Py.lstrip "#" s)) as (-> & -> & ->). reflexivity.
Qed.


(** ** The colour utility: the claims *)

(** C5 (as amended).  A string of exactly six hexadecimal digits, with
    or without a leading hash sign, is parsed into the triple of its
    three two-digit pairs, each between 0 and 255; printing the triple
    back as six lower-case hexadecimal digits gives the digits of the
    input in lower case (the input itself when it has no upper-case
    digit). *)
Theorem hex_to_rgb_six_digits (s : string) (hash : bool) :
  hex6 s = true ->
  let c := (hex_pair s 0, hex_pair s 2, hex_pair s 4) in
  hex_to_rgb (if hash then String "#" s else s) = Some c
  /\ byte_rgb c
  /\ rgb_to_hex c = lower s
  /\ (lower s = s -> rgb_to_hex c = s).
Proof.
  intros H. cbv zeta.
  destruct (hex_to_rgb_hex6 s H) as (E & R & P).
  split; [ | split; [exact R | split; [exact P | intros L; congruence]]].
  destruct hash; [ | exact E].
  change (String "#" s) with (hashes 1 ++ s)%string.
  rewrite hex_to_rgb_hashes. exact E.
Qed.

Lemma hex_to_rgb_six_digits_witness :
  hex_to_rgb "#00d4aa" = Some (0, 212, 170)
  /\ rgb_to_hex (0, 212, 170) = "00d4aa"%string.
Proof.
  destruct (hex_to_rgb_six_digits "00d4aa" true eq_refl) as (E & _ & _ & P).
  split; [exact E | exact (P eq_refl)].
Defined.

(** C5, as stated, fails on the round trip: ["FFFFFF"] and ["ffffff"]
    are both strings of six hexadecimal digits and parse to the same
    triple, so no way of printing a triple gives every input back. *)
Lemma hex_round_trip_forgets_case :
  ~ exists reformat : RGB -> string,
      forall s, hex6 s = true ->
                exists c, hex_to_rgb s = Some c /\ reformat c = s.
Proof.
  intros [reformat H].
  destruct (H "FFFFFF"%string eq_refl) as (c1 & E1 & R1).
  destruct (H "ffffff"%string eq_refl) as (c2 & E2 & R2).
  vm_compute in E1, E2. injection E1 as <-. injection E2 as <-.
  rewrite R1 in R2. discriminate R2.
Qed.

(** C10 (as amended).  [hex_to_rgb] strips every leading hash sign: any
    number of them in front of a string leaves the result unchanged, and
    in front of six hexadecimal digits the result is the digits' triple.
    It validates nothing: the result, an exception or a triple of
    integers, depends only on the first six characters that follow the
    hash signs. *)
Theorem hex_to_rgb_strips_every_hash :
  (forall n s, hex_to_rgb (hashes n ++ s) = hex_to_rgb s)
  /\ (forall n s, hex6 s = true ->
                  hex_to_rgb (hashes n ++ s)
                  = Some (hex_pair s 0, hex_pair s 2, hex_pair s 4))
  /\ (forall s, hex_to_rgb s = hex_to_rgb (Py.slice (Py.lstrip "#" s) 0 6)).
Proof.
  split; [ | split].
  - apply hex_to_rgb_hashes.
  - intros n s H. rewrite hex_to_rgb_hashes. apply (hex_to_rgb_hex6 s H).
  - apply hex_to_rgb_first6.
Qed.

(** C10, as stated, fails on its second half: what follows the hash
    signs in ["##1234567"] is not six hexadecimal digits, yet the call
    neither raises nor returns a malformed triple, it returns the colour
    (18, 52, 86). *)
Lemma hex_to_rgb_accepts_seven_digits :
  hex6 (Py.lstrip "#" "##1234567") = false
  /\ hex_to_rgb "##1234567" = Some (18, 52, 86)
  /\ byte_rgb (18, 52, 86).
Proof.
  split; [reflexivity | ]. split; [reflexivity | ]. unfold byte_rgb. lia.
Qed.

(** Other malformed inputs do raise, or give a triple that is no colour. *)
Example hex_to_rgb_raises : hex_to_rgb "#12345g" = None /\ hex_to_rgb "" = None.
Proof. split; reflexivity. Qed.

Example hex_to_rgb_malformed_triple :
  hex_to_rgb "+1-2 f" = Some (1, -2, 15) /\ byte_rgbb (1, -2, 15) = false.
Proof. split; reflexivity. Qed.
(** ** The gradient: values of one channel *)

Module GradientFacts.
Import Py.Float FloatFacts.
Local Open Scope Q_scope.

#[export] Instance round_proper : Proper (Qeq ==> Qeq) round.
Proof. intros x y E. apply round_comp. exact E. Qed.

#[export] Instance to_int_proper : Proper (Qeq ==> eq) to_int.
Proof. intros x y E. apply to_int_comp. exact E. Qed.

Lemma of_int_exact n : (Z.abs n < 2 ^ 53)%Z -> of_int n == inject_Z n.
Proof. apply round_int. Qed.

Lemma of_int_sign_nonneg n : (0 <= n)%Z -> 0 <= of_int n.
Proof.
  intros H. change 0 with (round 0). apply round_mono.
  change 0 with (inject_Z 0). rewrite <- Zle_Qle. exact H.
Qed.

Lemma of_int_sign_nonpos n : (n <= 0)%Z -> of_int n <= 0.
Proof.
  intros H. change 0 with (round 0). apply round_mono.
  change 0 with (inject_Z 0). rewrite <- Zle_Qle. exact H.
Qed.

Lemma truediv_mono a b d : (a <= b)%Z -> (0 < d)%Z -> truediv a d <= truediv b d.
Proof.
  intros Hab Hd. apply round_mono. unfold Qdiv.
  apply Qmult_le_compat_r.
  - rewrite <- Zle_Qle. exact Hab.
  - apply Qinv_le_0_compat. change 0 with (inject_Z 0). rewrite <- Zle_Qle. lia.
Qed.

Lemma mul_mono_nonneg k x y : 0 <= k -> x <= y -> mul k x <= mul k y.
Proof.
  intros Hk Hxy. apply round_mono.
  rewrite (Qmult_comm k x), (Qmult_comm k y).
  apply Qmult_le_compat_r; assumption.
Qed.

Lemma mul_mono_nonpos k x y : k <= 0 -> x <= y -> mul k y <= mul k x.
Proof.
  intros Hk Hxy. apply round_mono.
  assert (A : x * (- k) <= y * (- k)) by (apply Qmult_le_compat_r; lra).
  assert (E1 : k * y == - (y * - k)) by ring.
  assert (E2 : k * x == - (x * - k)) by ring.
  rewrite E1, E2. lra.
Qed.

Lemma add_mono c x y : x <= y -> add c x <= add c y.
Proof. intros H. apply round_mono. lra. Qed.

End GradientFacts.

Import GradientFacts.

Lemma max_pred_pos h : 0 < Z.max (h - 1) 1.
Proof. lia. Qed.

Lemma gradient_channel_nondecreasing ct cb h r1 r2 :
  ct <= cb -> r1 <= r2 ->
  Features.gradient_channel ct cb h r1 <= Features.gradient_channel ct cb h r2.
Proof.
  intros Hc Hr. unfold Features.gradient_channel.
  apply FloatFacts.to_int_mono. apply add_mono.
  apply mul_mono_nonneg.
  - apply of_int_sign_nonneg. lia.
  - apply truediv_mono; [exact Hr | apply max_pred_pos].
Qed.

Lemma gradient_channel_nonincreasing ct cb h r1 r2 :
  cb <= ct -> r1 <= r2 ->
  Features.gradient_channel ct cb h r2 <= Features.gradient_channel ct cb h r1.
Proof.
  intros Hc Hr. unfold Features.gradient_channel.
  apply FloatFacts.to_int_mono. apply add_mono.
  apply mul_mono_nonpos.
  - apply of_int_sign_nonpos. lia.
  - apply truediv_mono; [exact Hr | apply max_pred_pos].
Qed.

(** The first row is the top colour: [t] is [0.0]. *)
Lemma gradient_channel_first ct cb h :
  Z.abs ct < 2 ^ 53 -> Features.gradient_channel ct cb h 0 = ct.
Proof.
  intros Hct. unfold Features.gradient_channel.
  transitivity (Py.Float.to_int (inject_Z ct));
    [ | apply FloatFacts.to_int_inject].
  apply FloatFacts.to_int_comp.
  unfold Py.Float.add, Py.Float.mul, Py.Float.truediv.
  assert (T : (inject_Z 0 / inject_Z (Z.max (h - 1) 1) == 0)%Q).
  { unfold Qdiv. change (inject_Z 0) with 0%Q. ring. }
  rewrite T. change (Py.Float.round 0) with 0%Q.
  assert (M : (Py.Float.of_int (cb - ct) * 0 == 0)%Q) by ring.
  rewrite M. change (Py.Float.round 0) with 0%Q.
  assert (A : (Py.Float.of_int ct + 0 == Py.Float.of_int ct)%Q) by ring.
  rewrite A. rewrite (of_int_exact ct Hct).
  apply FloatFacts.round_int. exact Hct.
Qed.

(** With at least two rows the last row is the bottom colour: [t] is
    [1.0]. *)
Lemma gradient_channel_last ct cb h :
  2 <= h -> Z.abs ct < 2 ^ 53 -> Z.abs cb < 2 ^ 53 -> Z.abs (cb - ct) < 2 ^ 53 ->
  Features.gradient_channel ct cb h (h - 1) = cb.
Proof.
  intros Hh Hct Hcb Hk. unfold Features.gradient_channel.
  transitivity (Py.Float.to_int (inject_Z cb));
    [ | apply FloatFacts.to_int_inject].
  apply FloatFacts.to_int_comp.
  unfold Py.Float.add, Py.Float.mul, Py.Float.truediv.
  replace (Z.max (h - 1) 1) with (h - 1) by lia.
  assert (T : (inject_Z (h - 1) / inject_Z (h - 1) == inject_Z 1)%Q).
  { change (inject_Z 1) with 1%Q. apply Qmult_inv_r.
    intro E. assert (h - 1 = 0).
    { unfold Qeq in E. simpl in E. lia. }
    lia. }
  rewrite T. rewrite (FloatFacts.round_int 1) by (simpl; lia).
  rewrite (of_int_exact (cb - ct) Hk).
  assert (M : (inject_Z (cb - ct) * inject_Z 1 == inject_Z (cb - ct))%Q).
  { change (inject_Z 1) with 1%Q. ring. }
  rewrite M. rewrite (FloatFacts.round_int (cb - ct) Hk).
  rewrite (of_int_exact ct Hct).
  rewrite <- inject_Z_plus. replace (ct + (cb - ct)) with cb by lia.
  apply FloatFacts.round_int. exact Hcb.
Qed.

(** Interpolated values stay between the two end values. *)
Lemma gradient_channel_between ct cb h row :
  0 <= ct <= 255 -> 0 <= cb <= 255 -> 1 <= h -> 0 <= row < h ->
  Z.min ct cb <= Features.gradient_channel ct cb h row <= Z.max ct cb.
Proof.
  intros Hct Hcb Hh Hrow.
  assert (P : 2 ^ 53 = 9007199254740992) by reflexivity.
  assert (F : Features.gradient_channel ct cb h 0 = ct)
    by (apply gradient_channel_first; lia).
  destruct (Z.eq_dec h 1) as [-> | Hn].
  - replace row with 0 by lia. lia.
  - assert (L : Features.gradient_channel ct cb h (h - 1) = cb)
      by (apply gradient_channel_last; lia).
    destruct (Z_le_gt_dec ct cb) as [C | C].
    + pose proof (gradient_channel_nondecreasing ct cb h 0 row C (proj1 Hrow)).
      pose proof (gradient_channel_nondecreasing ct cb h row (h - 1) C ltac:(lia)).
      lia.
    + pose proof (gradient_channel_nonincreasing ct cb h 0 row ltac:(lia) (proj1 Hrow)).
      pose proof (gradient_channel_nonincreasing ct cb h row (h - 1) ltac:(lia) ltac:(lia)).
      lia.
Qed.

(** Truncation can fall below the exact interpolation: with 50 rows from
    0 to 49 the exact value of row 1 is 1, the computed one is 0. *)
Example gradient_channel_truncates : Features.gradient_channel 0 49 50 1 = 0.
Proof. vm_compute. reflexivity. Qed.

(** ** The gradient buffer *)

Lemma clip8_byte v : 0 <= v <= 255 -> clip8 v = v.
Proof. unfold clip8. lia. Qed.

Lemma gradient_color_bytes ct cb h row :
  byte_rgb ct -> byte_rgb cb -> 1 <= h -> 0 <= row < h ->
  ink_rgba (Features.gradient_color ct cb h row) = Features.gradient_color ct cb h row.
Proof.
  destruct ct as [[ct0 ct1] ct2], cb as [[cb0 cb1] cb2].
  intros (T0 & T1 & T2) (B0 & B1 & B2) Hh Hrow.
  unfold Features.gradient_color, ink_rgba.
  pose proof (gradient_channel_between ct0 cb0 h row T0 B0 Hh Hrow).
  pose proof (gradient_channel_between ct1 cb1 h row T1 B1 Hh Hrow).
  pose proof (gradient_channel_between ct2 cb2 h row T2 B2 Hh Hrow).
  rewrite !clip8_byte by lia. reflexivity.
Qed.

Lemma gradient_rows_size ct cb w h rows od :
  size (fold_left (Features.gradient_row ct cb w h) rows od) = size od.
Proof.
  revert od. induction rows as [ | r rows IH]; intros od; simpl; [reflexivity | ].
  rewrite IH. reflexivity.
Qed.

(** After the loop over [rows], a pixel of one of these rows within the
    line's span carries the row's ink, every other pixel is untouched. *)
Lemma gradient_rows_pixel ct cb w h rows od x y :
  pixel (fold_left (Features.gradient_row ct cb w h) rows od) x y =
  if existsb (Z.eqb y) rows && (Z.min 0 w <=? x) && (x <=? Z.max 0 w)
  then ink_rgba (Features.gradient_color ct cb h y)
  else pixel od x y.
Proof.
  revert od. induction rows as [ | r rows IH]; intros od; [reflexivity | ].
  cbn [fold_left existsb]. rewrite IH.
  unfold Features.gradient_row, hline, paint, hline_region. cbn [pixel].
  destruct (Z.eqb_spec y r) as [E | N];
    destruct (existsb (Z.eqb y) rows);
    destruct (Z.min 0 w <=? x); destruct (x <=? Z.max 0 w);
    try rewrite E; reflexivity.
Qed.

Lemma range_spec n y : existsb (Z.eqb y) (Py.range n) = (0 <=? y) && (y <? n).
Proof.
  unfold Py.range. apply eq_true_iff_eq. rewrite existsb_exists.
  rewrite andb_true_iff, Z.leb_le, Z.ltb_lt. split.
  - intros (r & Hin & E). apply Z.eqb_eq in E. subst r.
    apply in_map_iff in Hin. destruct Hin as (k & <- & Hk).
    apply in_seq in Hk. lia.
  - intros [H0 Hn]. exists y. split; [ | apply Z.eqb_refl].
    apply in_map_iff. exists (Z.to_nat y). split; [lia | ].
    apply in_seq. lia.
Qed.

Lemma gradient_buffer_ok x1 y1 x2 y2 ct cb :
  0 <= x2 - x1 -> 0 <= y2 - y1 ->
  Features.gradient_buffer (x1, y1, x2, y2) ct cb =
  Some (fold_left (Features.gradient_row ct cb (x2 - x1) (y2 - y1))
                  (Py.range (y2 - y1))
                  (mkImage (x2 - x1) (y2 - y1) (fun _ _ => (0, 0, 0, 0)))).
Proof.
  intros Hw Hh. unfold Features.gradient_buffer, new.
  destruct (Z.ltb_spec (x2 - x1) 0); [lia | ].
  destruct (Z.ltb_spec (y2 - y1) 0); [lia | ]. reflexivity.
Qed.

Lemma gradient_buffer_inv coords ct cb buf :
  Features.gradient_buffer coords ct cb = Some buf ->
  let '(x1, y1, x2, y2) := coords in
  0 <= x2 - x1 /\ 0 <= y2 - y1 /\
  buf = fold_left (Features.gradient_row ct cb (x2 - x1) (y2 - y1))
                  (Py.range (y2 - y1))
                  (mkImage (x2 - x1) (y2 - y1) (fun _ _ => (0, 0, 0, 0))).
Proof.
  destruct coords as [[[x1 y1] x2] y2]. unfold Features.gradient_buffer, new.
  destruct (Z.ltb_spec (x2 - x1) 0); [discriminate | ].
  destruct (Z.ltb_spec (y2 - y1) 0); [discriminate | ].
  cbn [orb]. intros E. injection E as <-. auto.
Qed.

Lemma gradient_buffer_pixel x1 y1 x2 y2 ct cb buf x row :
  byte_rgb ct -> byte_rgb cb ->
  Features.gradient_buffer (x1, y1, x2, y2) ct cb = Some buf ->
  0 <= x < x2 - x1 -> 0 <= row < y2 - y1 ->
  pixel buf x row = Features.gradient_color ct cb (y2 - y1) row.
Proof.
  intros Ht Hb E Hx Hrow.
  apply gradient_buffer_inv in E. destruct E as (Hw & Hh & ->).
  rewrite gradient_rows_pixel, range_spec.
  destruct (Z.leb_spec 0 row); [ | lia].
  destruct (Z.ltb_spec row (y2 - y1)); [ | lia].
  destruct (Z.leb_spec (Z.min 0 (x2 - x1)) x); [ | lia].
  destruct (Z.leb_spec x (Z.max 0 (x2 - x1))); [ | lia].
  cbn [andb]. apply gradient_color_bytes; try assumption; lia.
Qed.

(** The rational model and [SpecFloat] give the same rows for the three
    kinds of gradient the features script draws (liquidity cards, a
    revenue card, the call-to-action banner), and on the truncation
    example. *)
Example binary64_agrees_liquidity :
  Binary64.agrees (30, 48, 68) (25, 39, 52) 200 = true.
Proof. vm_compute. reflexivity. Qed.

Example binary64_agrees_revenue :
  Binary64.agrees (243, 156, 18) (25, 39, 52) 105 = true.
Proof. vm_compute. reflexivity. Qed.

Example binary64_agrees_banner :
  Binary64.agrees (0, 212, 170) (0, 153, 119) 55 = true.
Proof. vm_compute. reflexivity. Qed.

Example binary64_truncates : Binary64.gradient_channel 0 49 50 1 = 0.
Proof. vm_compute. reflexivity. Qed.

(** C1 (as amended).  For a box of height [h >= 1] that the library can
    allocate (width [>= 0]) and byte colours, [draw_gradient_rect]'s
    buffer exists, has the box's size, and each row [row] holds the single
    ink [(r, g, b, 255)] with channels
    [int(top + (bot - top) * (row / max(h - 1, 1)))].  Row 0 is the top
    colour exactly; the last row is the bottom colour exactly when
    [h >= 2], and for [h = 1] the only row is the top colour. *)
Theorem gradient_buffer_rows x1 y1 x2 y2 ct cb :
  byte_rgb ct -> byte_rgb cb -> 1 <= y2 - y1 -> 0 <= x2 - x1 ->
  exists buf,
    Features.gradient_buffer (x1, y1, x2, y2) ct cb = Some buf
    /\ size buf = (x2 - x1, y2 - y1)
    /\ (forall x row, 0 <= x < x2 - x1 -> 0 <= row < y2 - y1 ->
        pixel buf x row = Features.gradient_color ct cb (y2 - y1) row)
    /\ (forall x, 0 <= x < x2 - x1 -> pixel buf x 0 = opaque ct)
    /\ (2 <= y2 - y1 -> forall x, 0 <= x < x2 - x1 ->
        pixel buf x (y2 - y1 - 1) = opaque cb)
    /\ (y2 - y1 = 1 -> forall x, 0 <= x < x2 - x1 ->
        pixel buf x (y2 - y1 - 1) = opaque ct).
Proof.
  intros Ht Hb Hh Hw.
  pose proof (gradient_buffer_ok x1 y1 x2 y2 ct cb Hw ltac:(lia)) as E.
  eexists. split; [exact E | ].
  assert (P : 2 ^ 53 = 9007199254740992) by reflexivity.
  assert (First : forall x, 0 <= x < x2 - x1 ->
            pixel (fold_left (Features.gradient_row ct cb (x2 - x1) (y2 - y1))
                     (Py.range (y2 - y1))
                     (mkImage (x2 - x1) (y2 - y1) (fun _ _ => (0, 0, 0, 0)))) x 0
            = opaque ct).
  { intros x Hx.
    rewrite (gradient_buffer_pixel x1 y1 x2 y2 ct cb _ x 0 Ht Hb E Hx ltac:(lia)).
    destruct ct as [[ct0 ct1] ct2], cb as [[cb0 cb1] cb2].
    destruct Ht as (T0 & T1 & T2).
    unfold Features.gradient_color, opaque.
    rewrite !gradient_channel_first by lia. reflexivity. }
  split; [ | split; [ | split; [ | split]]].
  - rewrite gradient_rows_size. reflexivity.
  - intros x row Hx Hrow.
    exact (gradient_buffer_pixel x1 y1 x2 y2 ct cb _ x row Ht Hb E Hx Hrow).
  - exact First.
  - intros H2 x Hx.
    rewrite (gradient_buffer_pixel x1 y1 x2 y2 ct cb _ x (y2 - y1 - 1) Ht Hb E Hx
               ltac:(lia)).
    destruct ct as [[ct0 ct1] ct2], cb as [[cb0 cb1] cb2].
    destruct Ht as (T0 & T1 & T2). destruct Hb as (B0 & B1 & B2).
    unfold Features.gradient_color, opaque.
    rewrite !gradient_channel_last by lia. reflexivity.
  - intros H1 x Hx. replace (y2 - y1 - 1) with 0 by lia. exact (First x Hx).
Qed.

Lemma gradient_buffer_rows_witness :
  exists buf,
    Features.gradient_buffer (50, 1697, 408, 1897) (30, 48, 68) (25, 39, 52) = Some buf
    /\ pixel buf 0 0 = (30, 48, 68, 255)
    /\ pixel buf 0 199 = (25, 39, 52, 255).
Proof.
  destruct (gradient_buffer_rows 50 1697 408 1897 (30, 48, 68) (25, 39, 52))
    as (buf & E & _ & _ & F & L & _);
    [unfold byte_rgb; lia | unfold byte_rgb; lia | lia | lia | ].
  exists buf. split; [exact E | ]. split.
  - apply F. lia.
  - apply (L ltac:(lia) 0). lia.
Defined.

(** C1, as stated, fails for a box of height 1: its last row is row 0,
    which is the top colour and not the bottom colour. *)
Lemma gradient_height_one_last_row :
  exists buf,
    Features.gradient_buffer (0, 0, 1, 1) (0, 0, 0) (255, 255, 255) = Some buf
    /\ pixel buf 0 (1 - 1) = (0, 0, 0, 255)
    /\ pixel buf 0 (1 - 1) <> opaque (255, 255, 255).
Proof.
  eexists. split; [reflexivity | ]. split.
  - vm_compute. reflexivity.
  - vm_compute. discriminate.
Qed.

(** C6.  Along the rows of a gradient each channel is monotone: it never
    decreases when the top value is at most the bottom value and never
    increases when it is at least the bottom value, for the value computed
    and for the byte stored. *)
Theorem gradient_channel_monotone ct cb h r1 r2 :
  0 <= r1 -> r1 <= r2 -> r2 < h ->
  (ct <= cb ->
   Features.gradient_channel ct cb h r1 <= Features.gradient_channel ct cb h r2
   /\ clip8 (Features.gradient_channel ct cb h r1)
      <= clip8 (Features.gradient_channel ct cb h r2))
  /\ (cb <= ct ->
      Features.gradient_channel ct cb h r2 <= Features.gradient_channel ct cb h r1
      /\ clip8 (Features.gradient_channel ct cb h r2)
         <= clip8 (Features.gradient_channel ct cb h r1)).
Proof.
  intros _ Hr _. split; intros Hc.
  - pose proof (gradient_channel_nondecreasing ct cb h r1 r2 Hc Hr).
    unfold clip8. lia.
  - pose proof (gradient_channel_nonincreasing ct cb h r1 r2 Hc Hr).
    unfold clip8. lia.
Qed.

Lemma gradient_channel_monotone_witness :
  Features.gradient_channel 0 49 50 1 <= Features.gradient_channel 0 49 50 2
  /\ Features.gradient_channel 212 153 55 40 <= Features.gradient_channel 212 153 55 7.
Proof.
  split.
  - apply (gradient_channel_monotone 0 49 50 1 2); lia.
  - apply (gradient_channel_monotone 212 153 55 7 40); lia.
Defined.

(** ** The rounded-rectangle helpers on raster images *)

Lemma paint_pixel {A : Type} (region : Z -> Z -> bool) (ink : A) im x y :
  pixel (paint region ink im) x y = if region x y then ink else pixel im x y.
Proof. reflexivity. Qed.

Section Raster.
Context {B : Backend} {A : Type}.

Lemma yield_rounded_rect_paints (im im' : Image A) coords r fill :
  Yield.draw_rounded_rect im coords r fill = Some im' ->
  size im' = size im
  /\ forall x y, pixel im' x y =
                 if rounded_region coords r x y then fill else pixel im x y.
Proof.
  destruct coords as [[[x1 y1] x2] y2].
  unfold Yield.draw_rounded_rect, rectangle, ellipse, raster_draw.
  repeat match goal with
         | |- context [accepts ?b] => destruct (accepts b); cbv beta iota
         end; try discriminate.
  intros E.
  apply (f_equal (fun o => match o with Some i => i | None => im end)) in E.
  cbv beta iota in E. subst im'. split; [reflexivity | ].
  intros x y. unfold rounded_region. rewrite !paint_pixel.
  destruct (rectangle_region (x1 + r, y1, x2 - r, y2) x y);
    destruct (rectangle_region (x1, y1 + r, x2, y2 - r) x y);
    destruct (ellipse_region (x1, y1, x1 + 2 * r, y1 + 2 * r) x y);
    destruct (ellipse_region (x2 - 2 * r, y1, x2, y1 + 2 * r) x y);
    destruct (ellipse_region (x1, y2 - 2 * r, x1 + 2 * r, y2) x y);
    destruct (ellipse_region (x2 - 2 * r, y2 - 2 * r, x2, y2) x y);
    reflexivity.
Qed.

Lemma accepts_ordered x0 y0 x1 y1 :
  x0 <= x1 -> y0 <= y1 -> accepts (x0, y0, x1, y1) = true.
Proof.
  intros Hx Hy. unfold accepts, ordered.
  destruct (Z.leb_spec x0 x1); [ | lia]. destruct (Z.leb_spec y0 y1); [ | lia].
  reflexivity.
Qed.

Lemma yield_rounded_rect_succeeds (im : Image A) x1 y1 x2 y2 r fill :
  0 <= r -> 2 * r <= x2 - x1 -> 2 * r <= y2 - y1 ->
  exists im', Yield.draw_rounded_rect im (x1, y1, x2, y2) r fill = Some im'.
Proof.
  intros Hr Hw Hh.
  unfold Yield.draw_rounded_rect, rectangle, ellipse, raster_draw.
  repeat (rewrite accepts_ordered by lia; cbv beta iota).
  eexists. reflexivity.
Qed.

End Raster.

(** The features helper is the yield helper run at the clamped radius,
    on any drawing target. *)
Lemma features_rounded_rect_clamps {D F : Type} `{ImageDraw D F}
    (draw : D) coords radius (fill : F) :
  Features.draw_rounded_rect draw coords radius fill =
  Yield.draw_rounded_rect draw coords (Features.effective_radius coords radius) fill.
Proof. destruct coords as [[[x1 y1] x2] y2]. reflexivity. Qed.

Lemma effective_radius_fits x1 y1 x2 y2 radius :
  let r := Features.effective_radius (x1, y1, x2, y2) radius in
  r <= radius /\ 2 * r <= x2 - x1 /\ 2 * r <= y2 - y1
  /\ (0 <= radius -> 0 <= x2 - x1 -> 0 <= y2 - y1 -> 0 <= r).
Proof.
  unfold Features.effective_radius.
  pose proof (Z.div_mod (x2 - x1) 2 ltac:(lia)).
  pose proof (Z.mod_pos_bound (x2 - x1) 2 ltac:(lia)).
  pose proof (Z.div_mod (y2 - y1) 2 ltac:(lia)).
  pose proof (Z.mod_pos_bound (y2 - y1) 2 ltac:(lia)).
  cbv zeta. lia.
Qed.

Lemma features_rounded_rect_succeeds {B : Backend} {A : Type}
    (im : Image A) x1 y1 x2 y2 radius fill :
  0 <= radius -> 0 <= x2 - x1 -> 0 <= y2 - y1 ->
  exists im', Features.draw_rounded_rect im (x1, y1, x2, y2) radius fill = Some im'.
Proof.
  intros Hr Hw Hh. rewrite features_rounded_rect_clamps.
  pose proof (effective_radius_fits x1 y1 x2 y2 radius) as (_ & F1 & F2 & F3).
  apply yield_rounded_rect_succeeds; auto.
Qed.

(** C4 (as amended).  For a box with [x1 <= x2] and [y1 <= y2] and a
    radius [R >= 0], [draw_rounded_rect] on a raster image returns, and
    it has given the fill colour to exactly the pixels of two
    rectangles, [[x1+r, y1, x2-r, y2]] and [[x1, y1+r, x2, y2-r]], and
    of four ellipses of diameter [2r] in the corners of the box, and has
    left every other pixel as it was, where [r] is the clamped radius
    [min(R, (x2-x1)//2, (y2-y1)//2)].  The helper of
    [create_features_infographic.py] does so for every such box and
    radius; the helper of [create_infographic.py], which has no clamp,
    does so where [2R] fits in both sides of the box, where [r = R]. *)
Theorem rounded_rect_painted_pixels {B : Backend} {A : Type}
    (im : Image A) x1 y1 x2 y2 radius fill :
  0 <= radius -> x1 <= x2 -> y1 <= y2 ->
  let r := Z.min radius (Z.min ((x2 - x1) / 2) ((y2 - y1) / 2)) in
  (exists im',
      Features.draw_rounded_rect im (x1, y1, x2, y2) radius fill = Some im'
      /\ size im' = size im
      /\ forall x y, pixel im' x y =
                     if rounded_region (x1, y1, x2, y2) r x y
                     then fill else pixel im x y)
  /\ (2 * radius <= x2 - x1 -> 2 * radius <= y2 - y1 ->
      r = radius
      /\ exists im',
          Yield.draw_rounded_rect im (x1, y1, x2, y2) radius fill = Some im'
          /\ size im' = size im
          /\ forall x y, pixel im' x y =
                         if rounded_region (x1, y1, x2, y2) r x y
                         then fill else pixel im x y).
Proof.
  intros Hr Hx Hy r. split.
  - destruct (features_rounded_rect_succeeds im x1 y1 x2 y2 radius fill)
      as [im' E]; [lia | lia | lia | ].
    exists im'. split; [exact E | ].
    rewrite features_rounded_rect_clamps in E.
    apply yield_rounded_rect_paints in E. exact E.
  - intros Hw Hh.
    assert (R : r = radius).
    { subst r.
      pose proof (Z.div_le_lower_bound (x2 - x1) 2 radius ltac:(lia) ltac:(lia)).
      pose proof (Z.div_le_lower_bound (y2 - y1) 2 radius ltac:(lia) ltac:(lia)).
      lia. }
    split; [exact R | ]. rewrite R.
    destruct (yield_rounded_rect_succeeds im x1 y1 x2 y2 radius fill)
      as [im' E]; [lia | lia | lia | ].
    exists im'. split; [exact E | ].
    apply yield_rounded_rect_paints in E. exact E.
Qed.

Lemma rounded_rect_painted_pixels_witness :
  exists im',
    Features.draw_rounded_rect (H := @raster_draw Z reference_backend) (black 300 300)
                               (40, 100, 216, 105) 3 255 = Some im'
    /\ pixel im' 40 102 = 255 /\ pixel im' 40 100 = 0.
Proof.
  destruct (rounded_rect_painted_pixels (B := reference_backend)
              (black 300 300) 40 100 216 105 3 255) as ((im' & E & _ & Q) & _);
    [lia | lia | lia | ].
  exists im'. split; [exact E | ].
  rewrite !Q. split; reflexivity.
Defined.

(** C4, as stated, fails for the features helper when the requested
    radius exceeds half a side: on the box [(0, 0, 100, 4)] with radius
    20 the claimed shape (with a corner circle of diameter 40) covers
    the pixel (20, 20), which the helper, working with radius 2, does not
    paint. *)
Lemma features_rounded_rect_not_requested_radius :
  exists im',
    Features.draw_rounded_rect (H := @raster_draw Z reference_backend) (black 120 120)
                               (0, 0, 100, 4) 20 255 = Some im'
    /\ rounded_region (H := reference_backend) (0, 0, 100, 4) 20 20 20 = true
    /\ pixel im' 20 20 = 0.
Proof.
  eexists. split; [reflexivity | ]. split; reflexivity.
Qed.

(** C2.  The helper of [create_infographic.py] does not clamp: on the box
    [(0, 0, 10, 10)] with radius 20 it asks for strips and circles of
    radius 20 (boxes with the corners out of order, circles of diameter
    40 around a box of side 10), which a library that checks its boxes
    refuses, where [min(20, 10 // 2, 10 // 2)] is 5 and the helper of
    [create_features_infographic.py] asks for the shapes of radius 5. *)
Theorem yield_rounded_rect_unclamped :
  let white := (255, 255, 255) in
  Yield.draw_rounded_rect (H := @canvas_draw legacy_backend)
                          (empty_canvas 50 50) (0, 0, 10, 10) 20 white
  = Some (mkCanvas (50, 50) (0, 0, 0)
            [Rectangle (20, 0, -10, 10) white;
             Rectangle (0, 20, 10, -10) white;
             Ellipse (0, 0, 40, 40) white;
             Ellipse (-30, 0, 10, 40) white;
             Ellipse (0, -30, 40, 10) white;
             Ellipse (-30, -30, 10, 10) white])
  /\ Yield.draw_rounded_rect (H := @canvas_draw reference_backend)
                             (empty_canvas 50 50) (0, 0, 10, 10) 20 white
     = None
  /\ Features.effective_radius (0, 0, 10, 10) 20 = 5
  /\ Features.draw_rounded_rect (H := @canvas_draw reference_backend)
                                (empty_canvas 50 50) (0, 0, 10, 10) 20 white
     = Some (mkCanvas (50, 50) (0, 0, 0)
               [Rectangle (5, 0, 5, 10) white;
                Rectangle (0, 5, 10, 5) white;
                Ellipse (0, 0, 10, 10) white;
                Ellipse (0, 0, 10, 10) white;
                Ellipse (0, 0, 10, 10) white;
                Ellipse (0, 0, 10, 10) white]).
Proof. repeat split; reflexivity. Qed.

(** The calls the yield script itself makes all pass a radius that fits. *)
Example yield_script_radii_fit :
  forallb (fun '(w, h, r) => (r =? Z.min r (Z.min (w / 2) (h / 2))))
          [(1100, 80, 10); (353, 280, 15); (1100, 40, 5); (1100, 120, 15);
           (800, 60, 30)] = true.
Proof. reflexivity. Qed.

(** ** Pasting the gradient *)

Lemma div255_byte v : 0 <= v <= 255 -> div255 (v * 255) = v.
Proof.
  intros H.
  assert (A : forallb (fun n => div255 (n * 255) =? n) (Py.range 256) = true)
    by (vm_compute; reflexivity).
  rewrite forallb_forall in A. apply Z.eqb_eq. apply A.
  unfold Py.range. apply in_map_iff. exists (Z.to_nat v). split; [lia | ].
  apply in_seq. lia.
Qed.

Lemma blend_transparent v w : 0 <= v <= 255 -> blend 0 v w = v.
Proof.
  intros H. unfold blend.
  replace (v * (255 - 0) + w * 0) with (v * 255) by lia.
  apply div255_byte. exact H.
Qed.

Lemma new_ok {A : Type} w h (c : A) :
  0 <= w -> 0 <= h -> new (w, h) c = Some (mkImage w h (fun _ _ => c)).
Proof.
  intros Hw Hh. unfold new.
  destruct (Z.ltb_spec w 0); [lia | ]. destruct (Z.ltb_spec h 0); [lia | ].
  reflexivity.
Qed.

(** With a positive radius the overlay keeps its colours and takes as
    alpha 255 on the rounded rectangle and 0 elsewhere. *)
Lemma round_corners_alpha {B : Backend} (overlay overlay' : Image RGBA) radius :
  0 < radius -> 0 <= width overlay -> 0 <= height overlay ->
  Features.round_corners overlay radius = Some overlay' ->
  size overlay' = size overlay
  /\ forall x y,
      pixel overlay' x y =
      let '(r, g, b, _) := pixel overlay x y in
      (r, g, b,
       if rounded_region (0, 0, width overlay, height overlay)
            (Features.effective_radius (0, 0, width overlay, height overlay) radius)
            x y
       then 255 else 0).
Proof.
  intros Hr Hw Hh. unfold Features.round_corners.
  destruct (Z.ltb_spec 0 radius); [ | lia].
  unfold size. rewrite new_ok by assumption.
  destruct (Features.draw_rounded_rect _ _ radius 255) as [mask | ] eqn:E;
    [ | discriminate].
  rewrite features_rounded_rect_clamps in E.
  apply yield_rounded_rect_paints in E. destruct E as [S P].
  unfold size in S. cbn [width height] in S.
  assert (Sw : width mask = width overlay) by congruence.
  assert (Sh : height mask = height overlay) by congruence.
  unfold putalpha. rewrite Sw, Sh, !Z.eqb_refl. cbn [andb].
  intros E. apply (f_equal (fun o => match o with Some i => i | None => overlay end)) in E.
  cbv beta iota in E. subst overlay'. split; [reflexivity | ].
  intros x y. cbn [pixel]. rewrite P. cbn [pixel].
  destruct (pixel overlay x y) as [[[r g] b] a].
  destruct (rounded_region _ _ x y); reflexivity.
Qed.

Lemma round_corners_succeeds {B : Backend} (overlay : Image RGBA) radius :
  0 <= width overlay -> 0 <= height overlay ->
  exists overlay', Features.round_corners overlay radius = Some overlay'.
Proof.
  intros Hw Hh. unfold Features.round_corners.
  destruct (Z.ltb_spec 0 radius); [ | eexists; reflexivity].
  unfold size. rewrite new_ok by assumption.
  destruct (features_rounded_rect_succeeds
              (mkImage (width overlay) (height overlay) (fun _ _ => 0))
              0 0 (width overlay) (height overlay) radius 255) as [mask E];
    try lia.
  rewrite E.
  rewrite features_rounded_rect_clamps in E.
  apply yield_rounded_rect_paints in E. destruct E as [S _].
  unfold size in S. cbn [width height] in S.
  assert (Sw : width mask = width overlay) by congruence.
  assert (Sh : height mask = height overlay) by congruence.
  unfold putalpha. rewrite Sw, Sh, !Z.eqb_refl. cbn [andb].
  eexists. reflexivity.
Qed.

Lemma gradient_buffer_size coords ct cb buf :
  Features.gradient_buffer coords ct cb = Some buf ->
  let '(x1, y1, x2, y2) := coords in
  width buf = x2 - x1 /\ height buf = y2 - y1 /\ 0 <= x2 - x1 /\ 0 <= y2 - y1.
Proof.
  intros E. apply gradient_buffer_inv in E.
  destruct coords as [[[x1 y1] x2] y2]. destruct E as (Hw & Hh & ->).
  pose proof (gradient_rows_size ct cb (x2 - x1) (y2 - y1) (Py.range (y2 - y1))
                (mkImage (x2 - x1) (y2 - y1) (fun _ _ => (0, 0, 0, 0)))) as S.
  unfold size in S. cbn [width height] in S.
  repeat split; try assumption; congruence.
Qed.

(** C8.  When [draw_gradient_rect] is called with a positive radius on an
    RGB image, the image keeps its size and every pixel outside the
    rounded rectangle of the box (the pixels of the box that the mask
    covers) keeps the colour it had; and the call returns whenever the
    two colours are six-digit hexadecimal strings and the box has
    non-negative sides. *)
Theorem gradient_rect_frame {B : Backend} (img : Image RGB)
    x1 y1 x2 y2 color_top color_bot radius :
  0 < radius -> rgb_bytes img ->
  (forall img',
      Features.draw_gradient_rect img (x1, y1, x2, y2) color_top color_bot radius
      = Some img' ->
      size img' = size img
      /\ forall x y,
          gradient_footprint (x1, y1, x2, y2) radius x y = false ->
          pixel img' x y = pixel img x y)
  /\ (hex6 (Py.lstrip "#" color_top) = true ->
      hex6 (Py.lstrip "#" color_bot) = true ->
      0 <= x2 - x1 -> 0 <= y2 - y1 ->
      exists img',
        Features.draw_gradient_rect img (x1, y1, x2, y2) color_top color_bot radius
        = Some img').
Proof.
  intros Hr Hb. split.
  - intros img'. unfold Features.draw_gradient_rect.
    destruct (hex_to_rgb color_top) as [ct | ]; [ | discriminate].
    destruct (hex_to_rgb color_bot) as [cb | ]; [ | discriminate].
    destruct (Features.gradient_buffer (x1, y1, x2, y2) ct cb) as [buf | ] eqn:Eb;
      [ | discriminate].
    apply gradient_buffer_size in Eb. destruct Eb as (Sw & Sh & Hw & Hh).
    destruct (Features.round_corners buf radius) as [ov | ] eqn:Eo; [ | discriminate].
    apply round_corners_alpha in Eo; try lia. destruct Eo as [So Po].
    unfold size in So.
    assert (Ow : width ov = x2 - x1) by congruence.
    assert (Oh : height ov = y2 - y1) by congruence.
    unfold paste, raster_paste. intros E.
    apply (f_equal (fun o => match o with Some i => i | None => img end)) in E.
    cbv beta iota in E. subst img'. split; [reflexivity | ].
    intros x y F. unfold paste_rgba. cbn [pixel]. rewrite Ow, Oh.
    unfold gradient_footprint in F.
    replace (x1 + (x2 - x1)) with x2 by lia.
    replace (y1 + (y2 - y1)) with y2 by lia.
    destruct ((x1 <=? x) && (x <? x2) && (y1 <=? y) && (y <? y2)) eqn:In;
      [ | reflexivity].
    cbn [andb] in F. rewrite Po. rewrite Sw, Sh. rewrite F.
    destruct (pixel buf (x - x1) (y - y1)) as [[[r g] b] a].
    specialize (Hb x y). destruct (pixel img x y) as [[r0 g0] b0].
    destruct Hb as (R0 & G0 & B0).
    rewrite !blend_transparent by assumption. reflexivity.
  - intros Ht Hc Hw Hh. unfold Features.draw_gradient_rect.
    rewrite (hex_to_rgb_first6 color_top), (hex_to_rgb_first6 color_bot).
    assert (S6 : forall s, hex6 s = true -> Py.slice s 0 6 = s).
    { intros s H6. destruct (hex6_inv s H6) as (c1 & c2 & c3 & c4 & c5 & c6 & -> & _).
      reflexivity. }
    rewrite (S6 _ Ht), (S6 _ Hc).
    destruct (hex_to_rgb_hex6 _ Ht) as (-> & _). destruct (hex_to_rgb_hex6 _ Hc) as (-> & _).
    rewrite gradient_buffer_ok by assumption.
    match goal with
    | |- context [Features.round_corners ?b radius] =>
        destruct (round_corners_succeeds b radius) as [ov ->]
    end.
    + pose proof (f_equal fst (gradient_rows_size
                    (hex_pair (Py.lstrip "#" color_top) 0,
                     hex_pair (Py.lstrip "#" color_top) 2,
                     hex_pair (Py.lstrip "#" color_top) 4)
                    (hex_pair (Py.lstrip "#" color_bot) 0,
                     hex_pair (Py.lstrip "#" color_bot) 2,
                     hex_pair (Py.lstrip "#" color_bot) 4)
                    (x2 - x1) (y2 - y1) (Py.range (y2 - y1))
                    (mkImage (x2 - x1) (y2 - y1) (fun _ _ => (0, 0, 0, 0))))) as S.
      cbn [fst size width] in S. rewrite S. exact Hw.
    + pose proof (f_equal snd (gradient_rows_size
                    (hex_pair (Py.lstrip "#" color_top) 0,
                     hex_pair (Py.lstrip "#" color_top) 2,
                     hex_pair (Py.lstrip "#" color_top) 4)
                    (hex_pair (Py.lstrip "#" color_bot) 0,
                     hex_pair (Py.lstrip "#" color_bot) 2,
                     hex_pair (Py.lstrip "#" color_bot) 4)
                    (x2 - x1) (y2 - y1) (Py.range (y2 - y1))
                    (mkImage (x2 - x1) (y2 - y1) (fun _ _ => (0, 0, 0, 0))))) as S.
      cbn [snd size height] in S. rewrite S. exact Hh.
    + eexists. reflexivity.
Qed.

Lemma gradient_rect_frame_witness :
  exists img',
    Features.draw_gradient_rect (H0 := reference_backend)
      (mkImage 1200 3200 (fun _ _ => (15, 20, 25)))
      (200, 2900, 1000, 2955) "#00d4aa" "#009977" 28 = Some img'
    /\ pixel img' 200 2900 = (15, 20, 25)
    /\ pixel img' 10 10 = (15, 20, 25).
Proof.
  destruct (gradient_rect_frame (B := reference_backend)
              (mkImage 1200 3200 (fun _ _ => (15, 20, 25)))
              200 2900 1000 2955 "#00d4aa" "#009977" 28) as [F S].
  - lia.
  - intros x y. cbn. lia.
  - destruct S as [img' E]; [reflexivity | reflexivity | lia | lia | ].
    exists img'. split; [exact E | ].
    destruct (F img' E) as [_ P]. split; apply P; vm_compute; reflexivity.
Defined.

(** ** The layout routines: the cursor *)

Import Script.

Lemma last_cons (a : Z) l d : last (a :: l) d = last l a.
Proof.
  revert a d. induction l as [ | b l IH]; intros a d; [reflexivity | ].
  change (last (a :: b :: l) d) with (last (b :: l) d).
  rewrite (IH b d), (IH b a). reflexivity.
Qed.

Lemma increasing_from_app y l1 l2 :
  increasing_from y l1 -> increasing_from (last l1 y) l2 ->
  increasing_from y (l1 ++ l2).
Proof.
  revert y. induction l1 as [ | a l1 IH]; intros y H1 H2; [exact H2 | ].
  destruct H1 as [Hy H1]. split; [exact Hy | ].
  apply IH; [exact H1 | ]. rewrite last_cons in H2. exact H2.
Qed.

Lemma last_app_last (l1 l2 : list Z) y : last (l1 ++ l2) y = last l2 (last l1 y).
Proof.
  revert y. induction l1 as [ | a l1 IH]; intros y; [reflexivity | ].
  change ((a :: l1) ++ l2) with (a :: (l1 ++ l2)).
  rewrite !last_cons. apply IH.
Qed.

Lemma climbs_still {A : Type} (m : M A) :
  (forall s, st_trail (snd (m s)) = st_trail s /\ st_y (snd (m s)) = st_y s) ->
  climbs m.
Proof.
  intros H s. destruct (H s) as [T Y]. exists []. rewrite app_nil_r.
  repeat split; assumption.
Qed.

Lemma climbs_ret {A : Type} (a : A) : climbs (ret a).
Proof. apply climbs_still. intros s. split; reflexivity. Qed.

Lemma climbs_raise {A : Type} : climbs (@raise A).
Proof. apply climbs_still. intros s. split; reflexivity. Qed.

Lemma climbs_lift {A : Type} (o : option A) : climbs (lift o).
Proof. destruct o; [apply climbs_ret | apply climbs_raise]. Qed.

Lemma climbs_get_y : climbs get_y.
Proof. apply climbs_still. intros s. split; reflexivity. Qed.

Lemma climbs_on_img f : climbs (on_img f).
Proof.
  apply climbs_still. intros s. unfold on_img.
  destruct (f (st_img s)); split; reflexivity.
Qed.

Lemma climbs_save env path : climbs (save env path).
Proof.
  apply climbs_still. intros s. unfold save.
  destruct (writable env path); split; reflexivity.
Qed.

(** [y += n] with a positive [n] is the one statement that moves the
    cursor. *)
Lemma climbs_advance n : 0 < n -> climbs (advance n).
Proof.
  intros Hn s. exists [st_y s + n]. cbn. repeat split. lia.
Qed.

Lemma climbs_bind {A B : Type} (m : M A) (k : A -> M B) :
  climbs m -> (forall a, climbs (k a)) -> climbs (bind m k).
Proof.
  intros Hm Hk s. unfold bind.
  destruct (Hm s) as (st1 & T1 & I1 & Y1).
  destruct (m s) as [[a | ] s1]; cbn [snd] in *.
  - destruct (Hk a s1) as (st2 & T2 & I2 & Y2).
    exists (st1 ++ st2). rewrite T2, T1, app_assoc. split; [reflexivity | ].
    split.
    + apply increasing_from_app; [exact I1 | ]. rewrite <- Y1. exact I2.
    + rewrite Y2, Y1. symmetry. apply last_app_last.
  - exists st1. repeat split; assumption.
Qed.

Lemma climbs_try_except {A : Type} (body handler : M A) :
  climbs body -> climbs handler -> climbs (try_except body handler).
Proof.
  intros Hb Hh s. unfold try_except.
  destruct (Hb s) as (st1 & T1 & I1 & Y1).
  destruct (body s) as [[a | ] s1]; cbn [snd] in *.
  - exists st1. repeat split; assumption.
  - destruct (Hh s1) as (st2 & T2 & I2 & Y2).
    exists (st1 ++ st2). rewrite T2, T1, app_assoc. split; [reflexivity | ].
    split.
    + apply increasing_from_app; [exact I1 | ]. rewrite <- Y1. exact I2.
    + rewrite Y2, Y1. symmetry. apply last_app_last.
Qed.

Lemma climbs_for_each {A : Type} (l : list A) (body : A -> M unit) :
  (forall a, climbs (body a)) -> climbs (for_each l body).
Proof.
  intros H. induction l as [ | a l IH]; [apply climbs_ret | ].
  cbn [for_each]. apply climbs_bind; [apply H | intros _; exact IH].
Qed.

Lemma climbs_for_fold {A B : Type} (l : list A) (b : B) (body : B -> A -> M B) :
  (forall b a, climbs (body b a)) -> climbs (for_fold l b body).
Proof.
  intros H. revert b. induction l as [ | a l IH]; intros b; [apply climbs_ret | ].
  cbn [for_fold]. apply climbs_bind; [apply H | intros b'; apply IH].
Qed.

Lemma climbs_text {B : Backend} xy s font color anchor :
  climbs (text xy s font color anchor).
Proof.
  unfold text. apply climbs_bind; [apply climbs_lift | intros; apply climbs_on_img].
Qed.

(** One step of the syntax-directed proof that a routine climbs. *)
Ltac climb_step :=
  lazymatch goal with
  | |- climbs (bind _ _) => apply climbs_bind; [ | intros ]
  | |- climbs (text _ _ _ _ _) => apply climbs_text
  | |- climbs get_y => apply climbs_get_y
  | |- climbs (ret _) => apply climbs_ret
  | |- climbs (lift _) => apply climbs_lift
  | |- climbs (on_img _) => apply climbs_on_img
  | |- climbs (save _ _) => apply climbs_save
  | |- climbs (advance _) => apply climbs_advance; lia
  | |- climbs (try_except _ _) => apply climbs_try_except
  | |- climbs (for_each _ _) => apply climbs_for_each; intros
  | |- climbs (for_fold _ _ _) => apply climbs_for_fold; intros
  | |- climbs (match ?p with _ => _ end) => destruct p
  | |- climbs (let _ := _ in _) => cbv zeta
  end.

Ltac climb := repeat climb_step.

Lemma yield_layout_climbs {B : Backend} env fonts :
  climbs (bind (Yield.layout env fonts) (fun _ => Yield.export env)).
Proof.
  unfold Yield.layout, Yield.header, Yield.body, Yield.export,
    Yield.rounded_rect, paste_asset, fill_rectangle, fill_ellipse.
  climb.
Qed.

Lemma features_layout_climbs {B : Backend} env fonts :
  climbs (bind (Features.layout env fonts) (fun _ => Features.export env)).
Proof.
  unfold Features.layout, Features.header, Features.body, Features.export,
    Features.rounded_rect, Features.gradient_rect, Features.draw_hr,
    paste_asset, fill_rectangle, fill_ellipse.
  climb.
Qed.

Lemma climbs_from_start {A : Type} (m : M A) img y0 :
  climbs m ->
  increasing (st_trail (snd (m (start img y0))))
  /\ hd_error (st_trail (snd (m (start img y0)))) = Some y0
  /\ st_y (snd (m (start img y0))) = last (st_trail (snd (m (start img y0)))) y0.
Proof.
  intros H. destruct (H (start img y0)) as (steps & T & I & Y).
  cbn [start st_trail st_y] in *. rewrite T, Y. cbn [app increasing hd_error].
  repeat split; [exact I | ]. symmetry. apply last_cons.
Qed.

Lemma yield_create_unfold {B : Backend} env :
  Yield.create_infographic env =
  Some (bind (Yield.layout env (Yield.load_fonts env)) (fun _ => Yield.export env)
             (start (mkCanvas (1200, 1600) (15, 20, 25) []) 30)).
Proof. reflexivity. Qed.

Lemma features_create_unfold {B : Backend} env :
  Features.create_infographic env =
  Some (bind (Features.layout env (Features.load_fonts env))
             (fun _ => Features.export env)
             (start (mkCanvas (1200, 3200) (15, 20, 25) []) 20)).
Proof. reflexivity. Qed.

(** C7.  In both scripts, whatever fonts and images are available, the
    run of [create_infographic] moves the cursor only upwards: the values
    it takes, from the initial one (30, respectively 20) to the final
    one, increase strictly. *)
Theorem cursor_strictly_increases {B : Backend} (env : Env) :
  (exists r s,
      Yield.create_infographic env = Some (r, s)
      /\ increasing (st_trail s)
      /\ hd_error (st_trail s) = Some 30
      /\ st_y s = last (st_trail s) 30)
  /\ (exists r s,
         Features.create_infographic env = Some (r, s)
         /\ increasing (st_trail s)
         /\ hd_error (st_trail s) = Some 20
         /\ st_y s = last (st_trail s) 20).
Proof.
  split.
  - rewrite yield_create_unfold.
    match goal with
    | |- exists r s, Some ?X = _ /\ _ => exists (fst X), (snd X)
    end.
    split; [rewrite <- surjective_pairing; reflexivity | ].
    apply climbs_from_start. apply yield_layout_climbs.
  - rewrite features_create_unfold.
    match goal with
    | |- exists r s, Some ?X = _ /\ _ => exists (fst X), (snd X)
    end.
    split; [rewrite <- surjective_pairing; reflexivity | ].
    apply climbs_from_start. apply features_layout_climbs.
Qed.

(** ** The layout routines: fonts, header and export *)

Lemma yield_load_fonts_cases env :
  Yield.load_fonts env =
  if yield_fonts_load env then yield_loaded_fonts else yield_default_fonts.
Proof.
  unfold Yield.load_fonts, yield_fonts_load, truetype.
  destruct (font_file env Yield.DEJAVU_BOLD); destruct (font_file env Yield.DEJAVU);
    reflexivity.
Qed.

Lemma features_load_fonts_cases env :
  Features.load_fonts env =
  if features_fonts_load env then features_loaded_fonts else features_default_fonts.
Proof.
  unfold Features.load_fonts, features_fonts_load, truetype. cbv zeta.
  destruct (font_file env "/usr/share/fonts/truetype/dejavu/DejaVuSans-Bold.ttf");
    destruct (font_file env "/usr/share/fonts/truetype/dejavu/DejaVuSans.ttf");
    reflexivity.
Qed.

(** Splitting a goal about a run into its cases. *)
Ltac run_cases :=
  repeat match goal with
         | |- _ /\ _ => split
         | |- _ -> _ => intro
         | |- forall _, _ => intro
         end;
  try discriminate;
  try match goal with
      | E : Some _ = Some _ |- _ => injection E as <-
      end.

(** Where its texts can be drawn, the layout of the yield script does
    not raise.  It ends with the cursor at 1450 when the logo was pasted
    and at 1430 when the text header was drawn instead, on the canvas
    allocated at the start. *)
Lemma yield_working_facts {B : Backend} env :
  yield_texts_draw env = true ->
  fst (yield_working env) = Some tt
  /\ st_files (snd (yield_working env)) = []
  /\ canvas_size (st_img (snd (yield_working env))) = (1200, 1600)
  /\ (yield_fonts_load env = false ->
      forallb uses_default_font (calls (st_img (snd (yield_working env)))) = true)
  /\ (image_file env Yield.LOGO_PATH = None ->
      st_trail (snd (yield_working env)) = yield_trail_without_logo
      /\ st_y (snd (yield_working env)) = 1430
      /\ existsb pastes_asset (calls (st_img (snd (yield_working env)))) = false
      /\ hd_error (calls (st_img (snd (yield_working env))))
         = Some (Text (600, 80) "OmniBazaar"
                      (Yield.font_large (Yield.load_fonts env))
                      (0, 212, 170) (Some "mm"%string)))
  /\ (forall mode, image_file env Yield.LOGO_PATH = Some mode ->
      st_trail (snd (yield_working env)) = yield_trail_with_logo
      /\ st_y (snd (yield_working env)) = 1450
      /\ hd_error (calls (st_img (snd (yield_working env))))
         = Some (Paste (Asset Yield.LOGO_PATH mode (400, 120)) (400, 30)
                       (String.eqb mode "RGBA"))).
Proof.
  destruct B as [er sb bd].
  unfold yield_texts_draw, yield_working, Yield.layout, Yield.header.
  rewrite yield_load_fonts_cases. cbn [bitmap_default_font].
  destruct (yield_fonts_load env); destruct bd; cbn [orb negb]; intros D;
    try discriminate D; clear D;
    destruct (image_file env Yield.LOGO_PATH);
    run_cases; lazy; reflexivity.
Qed.

(** With the bitmap font standing in for fonts that did not load, the
    layout of the yield script raises in the first strategy card: the
    title, the sub-title and the yield figure of the card are drawn, and
    the first bullet, whose text holds U+20AC, is not. *)
Lemma yield_working_breaks {B : Backend} env :
  yield_texts_draw env = false ->
  fst (yield_working env) = None
  /\ st_files (snd (yield_working env)) = []
  /\ canvas_size (st_img (snd (yield_working env))) = (1200, 1600)
  /\ forallb uses_default_font (calls (st_img (snd (yield_working env)))) = true
  /\ (image_file env Yield.LOGO_PATH = None ->
      st_trail (snd (yield_working env)) = [30; 150; 210; 260; 360]
      /\ st_y (snd (yield_working env)) = 360
      /\ hd_error (calls (st_img (snd (yield_working env))))
         = Some (Text (600, 80) "OmniBazaar"
                      (Yield.font_large (Yield.load_fonts env))
                      (0, 212, 170) (Some "mm"%string))
      /\ last_call (st_img (snd (yield_working env)))
         = Some (Text (226, 460) "80-150% APY" DefaultFont (255, 255, 255)
                      (Some "mm"%string)))
  /\ (forall mode, image_file env Yield.LOGO_PATH = Some mode ->
      st_trail (snd (yield_working env)) = [30; 170; 230; 280; 380]
      /\ st_y (snd (yield_working env)) = 380
      /\ hd_error (calls (st_img (snd (yield_working env))))
         = Some (Paste (Asset Yield.LOGO_PATH mode (400, 120)) (400, 30)
                       (String.eqb mode "RGBA"))
      /\ last_call (st_img (snd (yield_working env)))
         = Some (Text (226, 480) "80-150% APY" DefaultFont (255, 255, 255)
                      (Some "mm"%string))).
Proof.
  destruct B as [er sb bd].
  unfold yield_texts_draw, yield_working, Yield.layout, Yield.header.
  rewrite yield_load_fonts_cases. cbn [bitmap_default_font].
  destruct (yield_fonts_load env); destruct bd; cbn [orb negb]; intros D;
    try discriminate D; clear D;
    destruct (image_file env Yield.LOGO_PATH);
    run_cases; lazy; reflexivity.
Qed.

(** Where its texts can be drawn, the layout of the features script
    does not raise either, and always ends with the cursor at 3033. *)
Lemma features_working_facts {B : Backend} env :
  features_texts_draw env = true ->
  fst (features_working env) = Some tt
  /\ st_files (snd (features_working env)) = []
  /\ canvas_size (st_img (snd (features_working env))) = (1200, 3200)
  /\ st_trail (snd (features_working env)) = features_trail
  /\ st_y (snd (features_working env)) = 3033
  /\ (features_fonts_load env = false ->
      forallb uses_default_font (calls (st_img (snd (features_working env)))) = true)
  /\ (features_logo_loads env = false ->
      existsb pastes_asset (calls (st_img (snd (features_working env)))) = false
      /\ hd_error (calls (st_img (snd (features_working env))))
         = Some (Text (600, 60) "OmniBazaar"
                      (Features.f_brand (Features.load_fonts env))
                      (0, 212, 170) (Some "mm"%string)))
  /\ (features_logo_loads env = true ->
      exists gx,
        firstn 2 (calls (st_img (snd (features_working env))))
        = [Paste (Asset Features.GLOBE_PATH "RGBA" (90, 90)) (gx, 20) true;
           Text (gx + 106, 38) "OmniBazaar"
                (Features.f_brand (Features.load_fonts env))
                (255, 255, 255) None]).
Proof.
  destruct B as [er sb bd].
  unfold features_texts_draw, features_working, Features.layout, Features.header,
    features_logo_loads.
  rewrite features_load_fonts_cases. cbn [bitmap_default_font].
  destruct (features_fonts_load env); destruct bd; cbn [orb negb]; intros D;
    try discriminate D; clear D;
    cbn [Features.f_brand features_loaded_fonts features_default_fonts];
    destruct (image_file env Features.GLOBE_PATH);
    match goal with
    | |- context [text_bbox env ?f ?t] =>
        destruct (text_bbox env f t) as [[[[bx0 by0] bx2] by2] | ]
    end;
    run_cases;
    try (eexists; lazy; reflexivity);
    lazy; reflexivity.
Qed.

(** With the bitmap font standing in for fonts that did not load, the
    layout of the features script raises in the first card of "WHY
    OMNIBAZAAR IS DIFFERENT": the title of the card is drawn, and the
    first bullet, whose text starts with U+2022, is not. *)
Lemma features_working_breaks {B : Backend} env :
  features_texts_draw env = false ->
  fst (features_working env) = None
  /\ st_files (snd (features_working env)) = []
  /\ canvas_size (st_img (snd (features_working env))) = (1200, 3200)
  /\ st_trail (snd (features_working env))
     = [20; 140; 188; 230; 340; 384; 601; 635; 683]
  /\ st_y (snd (features_working env)) = 683
  /\ forallb uses_default_font (calls (st_img (snd (features_working env)))) = true
  /\ last_call (st_img (snd (features_working env)))
     = Some (Text (229, 727) "& SELF-SOVEREIGN" DefaultFont (0, 212, 170)
                  (Some "mm"%string))
  /\ (features_logo_loads env = false ->
      hd_error (calls (st_img (snd (features_working env))))
      = Some (Text (600, 60) "OmniBazaar"
                   (Features.f_brand (Features.load_fonts env))
                   (0, 212, 170) (Some "mm"%string))).
Proof.
  destruct B as [er sb bd].
  unfold features_texts_draw, features_working, Features.layout, Features.header,
    features_logo_loads.
  rewrite features_load_fonts_cases. cbn [bitmap_default_font].
  destruct (features_fonts_load env); destruct bd; cbn [orb negb]; intros D;
    try discriminate D; clear D;
    cbn [Features.f_brand features_loaded_fonts features_default_fonts];
    destruct (image_file env Features.GLOBE_PATH);
    match goal with
    | |- context [text_bbox env ?f ?t] =>
        destruct (text_bbox env f t) as [[[[bx0 by0] bx2] by2] | ]
    end;
    run_cases; lazy; reflexivity.
Qed.

(** The export step of the features script: crop to [y + 10] rows when
    that is less than [HEIGHT], then save. *)
Lemma features_export_spec env s :
  writable env Features.OUTPUT_PATH = true ->
  let final_h := st_y s + 10 in
  let saved := if final_h <? Features.HEIGHT
               then crop (st_img s) (0, 0, Features.WIDTH, final_h)
               else st_img s in
  Features.export env s
  = (Some tt,
     mkState saved (st_y s) (st_trail s)
             (st_files s ++ [(Features.OUTPUT_PATH, saved)])).
Proof.
  intros W. cbv zeta. unfold Features.export, bind, get_y, on_img, ret, save.
  destruct (st_y s + 10 <? Features.HEIGHT); cbn [st_img st_y st_trail st_files];
    rewrite W; reflexivity.
Qed.

(** The export step of the yield script: save, whatever the cursor. *)
Lemma yield_export_spec env s :
  writable env Yield.OUTPUT_PATH = true ->
  Yield.export env s
  = (Some Yield.OUTPUT_PATH,
     mkState (st_img s) (st_y s) (st_trail s)
             (st_files s ++ [(Yield.OUTPUT_PATH, st_img s)])).
Proof.
  intros W. unfold Yield.export, bind, ret, save. rewrite W. reflexivity.
Qed.

Lemma yield_export_fails env s :
  writable env Yield.OUTPUT_PATH = false -> Yield.export env s = (None, s).
Proof.
  intros W. unfold Yield.export, bind, ret, save. rewrite W. reflexivity.
Qed.

(** A run goes on to the export step when its layout did not raise, and
    ends where the layout raised otherwise. *)
Lemma yield_create_from_working {B : Backend} env :
  yield_texts_draw env = true ->
  Yield.create_infographic env = Some (Yield.export env (snd (yield_working env))).
Proof.
  intros D. rewrite yield_create_unfold. unfold bind. fold (yield_working env).
  destruct (yield_working_facts env D) as (F & _).
  destruct (yield_working env) as [[[] | ] w]; [reflexivity | discriminate].
Qed.

Lemma yield_create_breaks {B : Backend} env :
  yield_texts_draw env = false ->
  Yield.create_infographic env = Some (None, snd (yield_working env)).
Proof.
  intros D. rewrite yield_create_unfold. unfold bind. fold (yield_working env).
  destruct (yield_working_breaks env D) as (F & _).
  destruct (yield_working env) as [[[] | ] w]; [discriminate | reflexivity].
Qed.

Lemma features_create_from_working {B : Backend} env :
  features_texts_draw env = true ->
  Features.create_infographic env
  = Some (Features.export env (snd (features_working env))).
Proof.
  intros D. rewrite features_create_unfold. unfold bind. fold (features_working env).
  destruct (features_working_facts env D) as (F & _).
  destruct (features_working env) as [[[] | ] w]; [reflexivity | discriminate].
Qed.

Lemma features_create_breaks {B : Backend} env :
  features_texts_draw env = false ->
  Features.create_infographic env = Some (None, snd (features_working env)).
Proof.
  intros D. rewrite features_create_unfold. unfold bind. fold (features_working env).
  destruct (features_working_breaks env D) as (F & _).
  destruct (features_working env) as [[[] | ] w]; [discriminate | reflexivity].
Qed.

(** What a run leaves behind, in terms of the state reached before the
    export step. *)
Lemma yield_run_facts {B : Backend} env :
  yield_texts_draw env = true ->
  writable env Yield.OUTPUT_PATH = true ->
  exists s,
    Yield.create_infographic env = Some (Some Yield.OUTPUT_PATH, s)
    /\ st_img s = st_img (snd (yield_working env))
    /\ st_y s = st_y (snd (yield_working env))
    /\ st_files s = [(Yield.OUTPUT_PATH, st_img (snd (yield_working env)))].
Proof.
  intros D W. rewrite (yield_create_from_working env D).
  rewrite (yield_export_spec env _ W).
  destruct (yield_working_facts env D) as (_ & Fi & _).
  eexists. split; [reflexivity | ]. cbn [st_img st_y st_files]. rewrite Fi.
  repeat split.
Qed.

Lemma features_run_facts {B : Backend} env :
  features_texts_draw env = true ->
  writable env Features.OUTPUT_PATH = true ->
  exists s,
    Features.create_infographic env = Some (Some tt, s)
    /\ st_img s = crop (st_img (snd (features_working env))) (0, 0, 1200, 3043)
    /\ st_y s = 3033
    /\ st_files s
       = [(Features.OUTPUT_PATH,
           crop (st_img (snd (features_working env))) (0, 0, 1200, 3043))].
Proof.
  intros D W. rewrite (features_create_from_working env D).
  rewrite (features_export_spec env _ W).
  destruct (features_working_facts env D) as (_ & Fi & _ & _ & Y & _).
  cbv zeta. rewrite Y, Fi.
  change (3033 + 10 <? Features.HEIGHT) with true. cbv iota.
  eexists. split; [reflexivity | ]. cbn [st_img st_y st_files app].
  repeat split.
Qed.

(** The bitmap font cannot draw the bullet prefix of either script. *)
Lemma bitmap_font_cannot_draw_bullets {B : Backend} :
  bitmap_default_font = true ->
  forall d, draws DefaultFont ("â€¢ " ++ d) = false
            /\ draws DefaultFont ("• " ++ d) = false.
Proof.
  intros Hb d. unfold draws. rewrite Hb. split; reflexivity.
Qed.

(** C3 (as amended).  Where the output can be written:
    [create_features_infographic.py] saves the working canvas cropped to
    [(0, 0, WIDTH, final_h)], [final_h] being the final cursor plus 10,
    when [final_h < HEIGHT], and saves it as allocated otherwise; in a
    run that reaches the export, as every run does whose texts can be
    drawn, [final_h] is 3043, less than the allocated 3200, and the file
    is the 1200 x 3043 crop.  [create_infographic.py] has no crop: it
    always saves the canvas as allocated, 1200 x 1600, though its cursor
    ends at 1450 or 1430. *)
Theorem export_crops_in_features_only {B : Backend} (env : Env) :
  writable env Features.OUTPUT_PATH = true ->
  writable env Yield.OUTPUT_PATH = true ->
  (forall s,
      snd (Features.export env s)
      = let final_h := st_y s + 10 in
        let saved := if final_h <? Features.HEIGHT
                     then crop (st_img s) (0, 0, Features.WIDTH, final_h)
                     else st_img s in
        mkState saved (st_y s) (st_trail s)
                (st_files s ++ [(Features.OUTPUT_PATH, saved)]))
  /\ (features_texts_draw env = true ->
      exists s,
         Features.create_infographic env = Some (Some tt, s)
         /\ st_y (snd (features_working env)) + 10 = 3043
         /\ canvas_size (st_img (snd (features_working env))) = (1200, 3200)
         /\ st_files s
            = [(Features.OUTPUT_PATH,
                crop (st_img (snd (features_working env))) (0, 0, 1200, 3043))]
         /\ canvas_size (crop (st_img (snd (features_working env)))
                              (0, 0, 1200, 3043)) = (1200, 3043))
  /\ (forall s,
         snd (Yield.export env s)
         = mkState (st_img s) (st_y s) (st_trail s)
                   (st_files s ++ [(Yield.OUTPUT_PATH, st_img s)]))
  /\ (yield_texts_draw env = true ->
      exists s,
         Yield.create_infographic env = Some (Some Yield.OUTPUT_PATH, s)
         /\ (st_y s = 1450 \/ st_y s = 1430)
         /\ st_files s = [(Yield.OUTPUT_PATH, st_img (snd (yield_working env)))]
         /\ canvas_size (st_img (snd (yield_working env))) = (1200, 1600)).
Proof.
  intros WF WY. split; [ | split; [ | split]].
  - intros s. rewrite (features_export_spec env s WF). reflexivity.
  - intros D. destruct (features_run_facts env D WF) as (s & E & _ & _ & F).
    destruct (features_working_facts env D) as (_ & _ & Sz & _ & Y & _).
    exists s. split; [exact E | ]. split; [rewrite Y; reflexivity | ].
    split; [exact Sz | ]. split; [exact F | reflexivity].
  - intros s. rewrite (yield_export_spec env s WY). reflexivity.
  - intros D. destruct (yield_run_facts env D WY) as (s & E & _ & Y & F).
    destruct (yield_working_facts env D) as (_ & _ & Sz & _ & N & S).
    exists s. split; [exact E | ]. split; [ | split; [exact F | exact Sz]].
    rewrite Y. destruct (image_file env Yield.LOGO_PATH) as [mode | ].
    + left. apply (S mode eq_refl).
    + right. apply (N eq_refl).
Qed.

Lemma export_crops_in_features_only_witness :
  exists s,
    Yield.create_infographic (H := reference_backend) full_env
    = Some (Some Yield.OUTPUT_PATH, s)
    /\ (st_y s = 1450 \/ st_y s = 1430)
    /\ canvas_size (st_img (snd (yield_working (H := reference_backend) full_env)))
       = (1200, 1600).
Proof.
  destruct (export_crops_in_features_only (B := reference_backend) full_env)
    as (_ & _ & _ & R); [reflexivity | reflexivity | ].
  destruct (R eq_refl) as (s & E & Y & _ & Sz).
  exists s. repeat split; assumption.
Defined.

(** C3, as stated, fails for [create_infographic.py]: with every asset
    present its cursor ends at 1450, below the 1600 rows allocated, and
    the file written is the whole 1200 x 1600 canvas, not the
    1200 x 1450 crop. *)
Lemma yield_saves_uncropped :
  exists s,
    Yield.create_infographic (H := reference_backend) full_env
    = Some (Some Yield.OUTPUT_PATH, s)
    /\ st_y s = 1450
    /\ st_y s < Yield.HEIGHT
    /\ map (fun f => canvas_size (snd f)) (st_files s) = [(1200, 1600)]
    /\ canvas_size (crop (st_img s) (0, 0, Yield.WIDTH, st_y s)) = (1200, 1450).
Proof.
  destruct (yield_run_facts (B := reference_backend) full_env eq_refl eq_refl)
    as (s & E & I & Y & F).
  destruct (yield_working_facts (B := reference_backend) full_env eq_refl)
    as (_ & _ & Sz & _ & _ & S).
  destruct (S "RGBA"%string eq_refl) as (_ & Y' & _).
  exists s. split; [exact E | ]. rewrite Y, Y', F, I.
  split; [reflexivity | ]. split; [reflexivity | ].
  split; [ | reflexivity]. cbn [map snd]. rewrite Sz. reflexivity.
Qed.

(** C9.  Both [try] blocks catch whatever is raised in them, and what
    follows depends on the default font.  Where every text can be drawn
    -- the fonts load, or the default font is not the bitmap font -- and
    the output can be written, the run goes to the end: if a font failed
    to load, every text is drawn with the default font; if the logo (the
    globe) failed to open, no asset is pasted and the first call on the
    canvas draws the brand name as text.  Where the fonts fail to load
    and the default font is the bitmap font, the run does not complete:
    the default font is assigned and the texts up to the first bullet
    are drawn with it, then [draw.text] raises on the bullet, nothing
    catches the exception, and no file is written. *)
Theorem font_fallback_breaks_on_bitmap_font {B : Backend} (env : Env) :
  (yield_texts_draw env = true ->
   writable env Yield.OUTPUT_PATH = true ->
   exists s,
      Yield.create_infographic env = Some (Some Yield.OUTPUT_PATH, s)
      /\ (yield_fonts_load env = false ->
          forallb uses_default_font (calls (st_img s)) = true)
      /\ (image_file env Yield.LOGO_PATH = None ->
          existsb pastes_asset (calls (st_img s)) = false
          /\ hd_error (calls (st_img s))
             = Some (Text (600, 80) "OmniBazaar"
                          (Yield.font_large (Yield.load_fonts env))
                          (0, 212, 170) (Some "mm"%string))))
  /\ (features_texts_draw env = true ->
      writable env Features.OUTPUT_PATH = true ->
      exists s,
         Features.create_infographic env = Some (Some tt, s)
         /\ (features_fonts_load env = false ->
             forallb uses_default_font (calls (st_img s)) = true)
         /\ (image_file env Features.GLOBE_PATH = None ->
             existsb pastes_asset (calls (st_img s)) = false
             /\ hd_error (calls (st_img s))
                = Some (Text (600, 60) "OmniBazaar"
                             (Features.f_brand (Features.load_fonts env))
                             (0, 212, 170) (Some "mm"%string))))
  /\ (yield_fonts_load env = false ->
      bitmap_default_font = true ->
      (forall d, draws DefaultFont ("â€¢ " ++ d) = false)
      /\ exists s,
         Yield.create_infographic env = Some (None, s)
         /\ st_files s = []
         /\ forallb uses_default_font (calls (st_img s)) = true
         /\ (st_y s = 380 \/ st_y s = 360)
         /\ last_call (st_img s)
            = Some (Text (226, st_y s + 100) "80-150% APY" DefaultFont
                         (255, 255, 255) (Some "mm"%string)))
  /\ (features_fonts_load env = false ->
      bitmap_default_font = true ->
      (forall d, draws DefaultFont ("• " ++ d) = false)
      /\ exists s,
         Features.create_infographic env = Some (None, s)
         /\ st_files s = []
         /\ forallb uses_default_font (calls (st_img s)) = true
         /\ st_y s = 683
         /\ last_call (st_img s)
            = Some (Text (229, 727) "& SELF-SOVEREIGN" DefaultFont
                         (0, 212, 170) (Some "mm"%string))).
Proof.
  split; [ | split; [ | split]].
  - intros D WY. destruct (yield_run_facts env D WY) as (s & E & I & _).
    destruct (yield_working_facts env D) as (_ & _ & _ & Df & N & _).
    exists s. split; [exact E | ]. rewrite I. split; [exact Df | ].
    intros L. destruct (N L) as (_ & _ & P & H). split; assumption.
  - intros D WF. destruct (features_run_facts env D WF) as (s & E & I & _).
    destruct (features_working_facts env D) as (_ & _ & _ & _ & _ & Df & N & _).
    exists s. split; [exact E | ]. rewrite I. unfold crop. cbn [calls].
    split.
    + intros F. rewrite forallb_app, (Df F). reflexivity.
    + intros L.
      assert (L' : features_logo_loads env = false)
        by (unfold features_logo_loads; rewrite L; reflexivity).
      destruct (N L') as [P H]. split.
      * rewrite existsb_app, P. reflexivity.
      * destruct (calls (st_img (snd (features_working env))));
          [discriminate | exact H].
  - intros F Hb. split; [intros d; apply (bitmap_font_cannot_draw_bullets Hb d) | ].
    assert (D : yield_texts_draw env = false)
      by (unfold yield_texts_draw; rewrite F, Hb; reflexivity).
    destruct (yield_working_breaks env D) as (_ & Fi & _ & Df & N & S).
    exists (snd (yield_working env)). split; [apply (yield_create_breaks env D) | ].
    split; [exact Fi | ]. split; [exact Df | ].
    destruct (image_file env Yield.LOGO_PATH) as [mode | ].
    + destruct (S mode eq_refl) as (_ & Y & _ & L). rewrite Y.
      split; [left; reflexivity | exact L].
    + destruct (N eq_refl) as (_ & Y & _ & L). rewrite Y.
      split; [right; reflexivity | exact L].
  - intros F Hb. split; [intros d; apply (bitmap_font_cannot_draw_bullets Hb d) | ].
    assert (D : features_texts_draw env = false)
      by (unfold features_texts_draw; rewrite F, Hb; reflexivity).
    destruct (features_working_breaks env D) as (_ & Fi & _ & _ & Y & Df & L & _).
    exists (snd (features_working env)).
    split; [apply (features_create_breaks env D) | ]. repeat split; assumption.
Qed.

(** The failing run of C9: no font file, no image, and a library whose
    default font is the bitmap font.  Both scripts raise and write
    nothing. *)
Lemma font_fallback_breaks_on_bitmap_font_witness :
  (exists s, Yield.create_infographic (H := legacy_backend) bare_env = Some (None, s)
             /\ st_files s = [])
  /\ (exists s, Features.create_infographic (H := legacy_backend) bare_env
                = Some (None, s)
                /\ st_files s = [] /\ st_y s = 683).
Proof.
  destruct (font_fallback_breaks_on_bitmap_font (B := legacy_backend) bare_env)
    as (_ & _ & Y & F).
  destruct (Y eq_refl eq_refl) as (_ & s & E & Fi & _).
  destruct (F eq_refl eq_refl) as (_ & s' & E' & Fi' & _ & Y' & _).
  split; [exists s | exists s']; repeat split; assumption.
Defined.

(** Without a writable output the run ends with an exception at the
    save, which nothing catches. *)
Lemma yield_unwritable_raises {B : Backend} env :
  yield_texts_draw env = true ->
  writable env Yield.OUTPUT_PATH = false ->
  exists s, Yield.create_infographic env = Some (None, s).
Proof.
  intros D W. rewrite (yield_create_from_working env D).
  rewrite (yield_export_fails env _ W).
  eexists. reflexivity.
Qed.

(** ** The colour utility on arbitrary strings *)

Lemma all_chars_complete c : In c all_chars.
Proof.
  unfold all_chars. apply in_map_iff. exists (nat_of_ascii c). split.
  - apply ascii_nat_embedding.
  - apply in_seq. pose proof (nat_ascii_bounded c). lia.
Qed.

Lemma short_strings_complete s : (String.length s <= 2)%nat -> In s short_strings.
Proof.
  intros H. unfold short_strings.
  destruct s as [ | c [ | d [ | e s]]]; cbn [String.length] in H; try lia.
  - left. reflexivity.
  - right. apply in_or_app. left.
    apply (in_map (fun c => String c EmptyString)). apply all_chars_complete.
  - right. apply in_or_app. right. apply in_flat_map. exists c.
    split; [apply all_chars_complete | ].
    apply (in_map (fun d => String c (String d EmptyString))).
    apply all_chars_complete.
Qed.

Lemma short_ok_all s : (String.length s <= 2)%nat -> short_ok s = true.
Proof.
  intros H. apply short_strings_complete in H.
  assert (A : forallb short_ok short_strings = true) by (vm_compute; reflexivity).
  rewrite forallb_forall in A. exact (A s H).
Qed.

(** [int] on a string of at most two characters. *)
Lemma int16_short s :
  (String.length s <= 2)%nat ->
  Py.int16 (lower s) = Py.int16 s
  /\ forall v, Py.int16 s = Some v ->
               -15 <= v <= 255 /\ (has_minus s = false -> 0 <= v).
Proof.
  intros H. pose proof (short_ok_all s H) as A. unfold short_ok in A.
  apply andb_prop in A. destruct A as [A1 A2]. split.
  - unfold same_int in A2.
    destruct (Py.int16 (lower s)) as [v | ], (Py.int16 s) as [w | ];
      try discriminate; [ | reflexivity].
    apply Z.eqb_eq in A2. congruence.
  - intros v E. rewrite E in A1.
    apply andb_prop in A1. destruct A1 as [A1 A3].
    apply andb_prop in A1. destruct A1 as [A0 A1].
    apply Z.leb_le in A0, A1. split; [lia | ].
    intros M. rewrite M, orb_false_r in A3. apply Z.leb_le in A3. exact A3.
Qed.

Lemma substring_length n m s : (String.length (substring n m s) <= m)%nat.
Proof.
  revert n m. induction s as [ | c s IH]; intros n m.
  - destruct n, m; cbn; lia.
  - destruct n as [ | n].
    + destruct m as [ | m]; cbn; [lia | ]. specialize (IH 0%nat m). lia.
    + cbn. apply IH.
Qed.

Lemma substring_beyond n m s :
  (String.length s <= n)%nat -> substring n m s = EmptyString.
Proof.
  revert n m. induction s as [ | c s IH]; intros n m H.
  - destruct n, m; reflexivity.
  - destruct n as [ | n]; cbn in H; [lia | ]. cbn. apply IH. lia.
Qed.

Lemma slice_short s i : (String.length (Py.slice s i (i + 2)) <= 2)%nat.
Proof.
  unfold Py.slice. replace (i + 2 - i)%nat with 2%nat by lia.
  apply substring_length.
Qed.

Lemma has_minus_substring n m s :
  has_minus (substring n m s) = true -> has_minus s = true.
Proof.
  unfold has_minus. revert n m. induction s as [ | c s IH]; intros n m.
  - destruct n, m; intros H; exact H.
  - destruct n as [ | n].
    + destruct m as [ | m]; cbn [substring list_ascii_of_string existsb];
        [discriminate | ].
      destruct (Ascii.eqb "-" c); [reflexivity | ]. cbn [orb]. apply IH.
    + cbn [substring list_ascii_of_string existsb]. intros H. apply IH in H.
      rewrite H. apply orb_true_r.
Qed.

Lemma has_minus_lstrip ch s :
  has_minus (Py.lstrip ch s) = true -> has_minus s = true.
Proof.
  unfold has_minus. induction s as [ | c s IH]; [intros H; exact H | ].
  cbn [Py.lstrip]. destruct (Ascii.eqb c ch).
  - intros H. cbn [list_ascii_of_string existsb]. rewrite (IH H). apply orb_true_r.
  - intros H. exact H.
Qed.

Lemma lower_substring n m s : lower (substring n m s) = substring n m (lower s).
Proof.
  revert n m. induction s as [ | c s IH]; intros n m.
  - destruct n, m; reflexivity.
  - destruct n as [ | n].
    + destruct m as [ | m]; cbn; [reflexivity | ]. rewrite IH. reflexivity.
    + cbn. apply IH.
Qed.

Lemma lower_slice s i j : Py.slice (lower s) i j = lower (Py.slice s i j).
Proof. unfold Py.slice. symmetry. apply lower_substring. Qed.

Lemma lower_char_hash c : Ascii.eqb (lower_char c) "#" = Ascii.eqb c "#".
Proof. destruct c as [[] [] [] [] [] [] [] []]; reflexivity. Qed.

Lemma lower_lstrip s : Py.lstrip "#" (lower s) = lower (Py.lstrip "#" s).
Proof.
  induction s as [ | c s IH]; [reflexivity | ].
  cbn [lower Py.lstrip]. rewrite lower_char_hash.
  destruct (Ascii.eqb c "#"); [exact IH | reflexivity].
Qed.

(** X1.  [hex_to_rgb] raises [ValueError] on every string that has at
    most four characters after its leading hash signs (the empty string,
    ["#"], a three-digit colour such as ["#fff"]): the third slice,
    [hex_color[4:6]], is then empty, and [int] refuses the empty
    string. *)
Theorem hex_to_rgb_short_input_raises (s : string) :
  (String.length (Py.lstrip "#" s) <= 4)%nat -> hex_to_rgb s = None.
Proof.
  intros H. unfold hex_to_rgb.
  replace (Py.slice (Py.lstrip "#" s) 4 6) with EmptyString
    by (symmetry; apply substring_beyond; exact H).
  destruct (Py.int16 (Py.slice (Py.lstrip "#" s) 0 2)); [ | reflexivity].
  destruct (Py.int16 (Py.slice (Py.lstrip "#" s) 2 4)); reflexivity.
Qed.

Lemma hex_to_rgb_short_input_raises_witness : hex_to_rgb "#fff" = None.
Proof. apply hex_to_rgb_short_input_raises. vm_compute. lia. Defined.

(** X2.  [hex_to_rgb] validates nothing, yet whatever string it is
    given, a triple it returns has every channel between -15 and 255;
    and when the string holds no minus sign the triple is a colour, with
    every channel between 0 and 255. *)
Theorem hex_to_rgb_channel_bounds (s : string) (r g b : Z) :
  hex_to_rgb s = Some (r, g, b) ->
  (-15 <= r <= 255 /\ -15 <= g <= 255 /\ -15 <= b <= 255)
  /\ (has_minus s = false -> byte_rgb (r, g, b)).
Proof.
  unfold hex_to_rgb. set (t := Py.lstrip "#" s).
  destruct (Py.int16 (Py.slice t 0 2)) as [r' | ] eqn:Er; [ | discriminate].
  destruct (Py.int16 (Py.slice t 2 4)) as [g' | ] eqn:Eg; [ | discriminate].
  destruct (Py.int16 (Py.slice t 4 6)) as [b' | ] eqn:Eb; [ | discriminate].
  intros E. injection E as -> -> ->.
  destruct (int16_short _ (slice_short t 0)) as [_ R].
  destruct (int16_short _ (slice_short t 2)) as [_ G].
  destruct (int16_short _ (slice_short t 4)) as [_ B].
  destruct (R r Er) as [R1 R2]. destruct (G g Eg) as [G1 G2].
  destruct (B b Eb) as [B1 B2].
  split; [tauto | ]. intros M.
  assert (N : forall i j, has_minus (Py.slice t i j) = false).
  { intros i j. destruct (has_minus (Py.slice t i j)) eqn:X; [ | reflexivity].
    unfold Py.slice in X. apply has_minus_substring in X.
    apply has_minus_lstrip in X. congruence. }
  unfold byte_rgb. specialize (R2 (N _ _)). specialize (G2 (N _ _)).
  specialize (B2 (N _ _)). lia.
Qed.

Lemma hex_to_rgb_channel_bounds_witness :
  byte_rgb (0, 212, 170)
  /\ (-15 <= 1 <= 255 /\ -15 <= -2 <= 255 /\ -15 <= 15 <= 255).
Proof.
  split.
  - apply (proj2 (hex_to_rgb_channel_bounds "#00d4aa" 0 212 170 eq_refl)).
    reflexivity.
  - apply (proj1 (hex_to_rgb_channel_bounds "+1-2 f" 1 (-2) 15 eq_refl)).
Defined.

(** X3.  [hex_to_rgb] does not distinguish upper-case from lower-case
    letters: on every string, valid or not, the result (a triple or
    [ValueError]) is that of the string with its letters A to Z put in
    lower case. *)
Theorem hex_to_rgb_ignores_case (s : string) : hex_to_rgb (lower s) = hex_to_rgb s.
Proof.
  unfold hex_to_rgb. rewrite lower_lstrip. set (t := Py.lstrip "#" s).
  rewrite !lower_slice.
  pose proof (proj1 (int16_short _ (slice_short t 0))) as E0.
  pose proof (proj1 (int16_short _ (slice_short t 2))) as E2.
  pose proof (proj1 (int16_short _ (slice_short t 4))) as E4.
  cbn [Nat.add] in E0, E2, E4. rewrite E0, E2, E4. reflexivity.
Qed.

(** ** The gradient: how far truncation is from the exact interpolation *)

Module FloatError.
Import Py.Float FloatFacts.
Local Open Scope Q_scope.

(** Rounding to the nearest integer moves a number by at most 1/2. *)
Lemma rhe_err x :
  x - (1 # 2) <= inject_Z (round_half_even x)
  /\ inject_Z (round_half_even x) <= x + (1 # 2).
Proof.
  unfold round_half_even.
  pose proof (Qfloor_le x) as L. pose proof (Qlt_floor x) as U.
  rewrite inject_Z_plus in U. change (inject_Z 1) with 1 in U.
  destruct (Qcompare_spec (x - inject_Z (Qfloor x)) (1 # 2)) as [H | H | H].
  - destruct (Z.even (Qfloor x)).
    + split; lra.
    + rewrite inject_Z_plus. change (inject_Z 1) with 1. split; lra.
  - split; lra.
  - rewrite inject_Z_plus. change (inject_Z 1) with 1. split; lra.
Qed.

(** Rounding to binary64 moves a number by at most half a unit in the
    last place. *)
Lemma round_pos_err x :
  0 < x ->
  x - pow2 (fexp (ilog2 x)) * (1 # 2) <= round_pos x
  /\ round_pos x <= x + pow2 (fexp (ilog2 x)) * (1 # 2).
Proof.
  intros Hx. rewrite round_pos_eq.
  set (e := fexp (ilog2 x)).
  pose proof (pow2_pos e) as P.
  destruct (rhe_err (x / pow2 e)) as [A B].
  assert (E : x == x / pow2 e * pow2 e).
  { unfold Qdiv. rewrite <- Qmult_assoc. rewrite (Qmult_comm (/ pow2 e)).
    rewrite Qmult_inv_r by lra. ring. }
  set (m := inject_Z (round_half_even (x / pow2 e))) in *.
  set (q := x / pow2 e) in *.
  assert (A' : (q - (1 # 2)) * pow2 e <= m * pow2 e)
    by (apply Qmult_le_compat_r; lra).
  assert (B' : m * pow2 e <= (q + (1 # 2)) * pow2 e)
    by (apply Qmult_le_compat_r; lra).
  split.
  - rewrite E at 1. lra.
  - rewrite E at 1. lra.
Qed.

(** Below [2^n] in magnitude the error is at most [2^(n-54)]. *)
Lemma round_err x n :
  - pow2 n < x -> x < pow2 n -> (emin <= n - 53)%Z ->
  x - pow2 (n - 54) <= round x /\ round x <= x + pow2 (n - 54).
Proof.
  intros Hl Hu Hn.
  assert (Half : forall e, (e <= n - 53)%Z -> pow2 e * (1 # 2) <= pow2 (n - 54)).
  { intros e He. replace (n - 54)%Z with ((n - 53) + (-1))%Z by lia.
    rewrite pow2_plus. change (pow2 (-1)) with (1 # 2).
    apply Qmult_le_compat_r; [apply pow2_le; exact He | lra]. }
  assert (Pos : forall y, 0 < y -> y < pow2 n ->
                 y - pow2 (n - 54) <= round_pos y /\ round_pos y <= y + pow2 (n - 54)).
  { intros y Hy Hyn. destruct (round_pos_err y Hy) as [A B].
    destruct (ilog2_spec y Hy) as [L1 _].
    assert (L : (ilog2 y < n)%Z) by (apply pow2_lt_inv; lra).
    assert (F : (fexp (ilog2 y) <= n - 53)%Z) by (unfold fexp, prec; lia).
    pose proof (Half _ F). split; lra. }
  destruct (round_cases x) as [[X ->] | [[X ->] | [X ->]]].
  - pose proof (pow2_pos (n - 54)). split; lra.
  - apply Pos; assumption.
  - destruct (Pos (- x)) as [A B]; [lra | lra | ]. split; lra.
Qed.

Local Open Scope Z_scope.

Lemma Qfloor_between (s : Q) (n : Z) :
  (inject_Z n - 1 < s)%Q -> (s < inject_Z n + 1)%Q -> n - 1 <= Qfloor s <= n.
Proof.
  intros A B.
  pose proof (Qfloor_le s) as L. pose proof (Qlt_floor s) as U.
  rewrite inject_Z_plus in U. change (inject_Z 1) with 1%Q in U.
  assert (F1 : (inject_Z (Qfloor s) < inject_Z (n + 1))%Q).
  { rewrite inject_Z_plus. change (inject_Z 1) with 1%Q. lra. }
  assert (F2 : (inject_Z (n - 1) < inject_Z (Qfloor s + 1))%Q).
  { unfold Z.sub. rewrite !inject_Z_plus, inject_Z_opp.
    change (inject_Z 1) with 1%Q. lra. }
  rewrite <- Zlt_Qlt in F1, F2. lia.
Qed.

Lemma Qfloor_above (s : Q) (n : Z) : (inject_Z n <= s)%Q -> n <= Qfloor s.
Proof.
  intros A. pose proof (Qlt_floor s) as U.
  assert (F : (inject_Z n < inject_Z (Qfloor s + 1))%Q) by lra.
  rewrite <- Zlt_Qlt in F. lia.
Qed.

(** The float computed for one channel of one row,
    [ct + (cb - ct) * (row / max(h - 1, 1))], is within [2^-43] of the
    exact value of that expression. *)
Lemma gradient_float_error ct cb h row :
  0 <= ct <= 255 -> 0 <= cb <= 255 -> 1 <= h -> 0 <= row < h ->
  let d := Z.max (h - 1) 1 in
  let e := (inject_Z ct + inject_Z (cb - ct) * (inject_Z row / inject_Z d))%Q in
  let s := add (of_int ct) (mul (of_int (cb - ct)) (truediv row d)) in
  (e - (1 # 8796093022208) <= s /\ s <= e + (1 # 8796093022208))%Q.
Proof.
  intros Hct Hcb Hh Hrow d e s.
  assert (P53 : (2 ^ 53 = 9007199254740992)%Z) by reflexivity.
  assert (Hd : 0 < d) by (unfold d; lia).
  assert (Hrd : row <= d) by (unfold d; lia).
  set (q := (inject_Z row / inject_Z d)%Q) in *.
  assert (HD : (0 < inject_Z d)%Q).
  { change 0%Q with (inject_Z 0). rewrite <- Zlt_Qlt. exact Hd. }
  assert (Hq : (0 <= q <= 1)%Q).
  { unfold q. split.
    - apply Qle_shift_div_l; [exact HD | ]. rewrite Qmult_0_l.
      change 0%Q with (inject_Z 0). rewrite <- Zle_Qle. lia.
    - apply Qle_shift_div_r; [exact HD | ]. rewrite Qmult_1_l.
      rewrite <- Zle_Qle. exact Hrd. }
  assert (E53 : (pow2 (1 - 54) == 1 # 9007199254740992)%Q) by reflexivity.
  assert (E46 : (pow2 (8 - 54) == 1 # 70368744177664)%Q) by reflexivity.
  assert (E45 : (pow2 (9 - 54) == 1 # 35184372088832)%Q) by reflexivity.
  assert (E1 : (pow2 1 == 2)%Q) by reflexivity.
  assert (E8 : (pow2 8 == 256)%Q) by reflexivity.
  assert (E9 : (pow2 9 == 512)%Q) by reflexivity.
  (* t = row / max(h - 1, 1) *)
  set (t := truediv row d) in *.
  assert (Ht : (q - (1 # 9007199254740992) <= t /\ t <= q + (1 # 9007199254740992))%Q).
  { unfold t, truediv. fold q. rewrite <- E53.
    apply round_err; [rewrite E1; lra | rewrite E1; lra | unfold emin; lia]. }
  (* (cb - ct) * t *)
  set (k := cb - ct) in *.
  assert (Hk : (- 255 <= inject_Z k <= 255)%Q).
  { split.
    - change (- 255)%Q with (inject_Z (- 255)). rewrite <- Zle_Qle. unfold k. lia.
    - change 255%Q with (inject_Z 255). rewrite <- Zle_Qle. unfold k. lia. }
  assert (EK : (of_int k == inject_Z k)%Q)
    by (apply GradientFacts.of_int_exact; unfold k; lia).
  assert (EC : (of_int ct == inject_Z ct)%Q) by (apply GradientFacts.of_int_exact; lia).
  assert (HC : (0 <= inject_Z ct <= 255)%Q).
  { split.
    - change 0%Q with (inject_Z 0). rewrite <- Zle_Qle. lia.
    - change 255%Q with (inject_Z 255). rewrite <- Zle_Qle. lia. }
  set (K := inject_Z k) in *. set (C := inject_Z ct) in *.
  assert (Hkt : (K * q - (255 # 9007199254740992) <= K * t
                 /\ K * t <= K * q + (255 # 9007199254740992))%Q).
  { destruct Ht as [T1 T2]. split; nra. }
  assert (Hktb : (- 256 < K * t /\ K * t < 256)%Q).
  { destruct Ht as [T1 T2]. split; nra. }
  set (p := mul (of_int k) t) in *.
  assert (Hp : (K * t - (1 # 70368744177664) <= p
                /\ p <= K * t + (1 # 70368744177664))%Q).
  { unfold p, mul. rewrite EK. rewrite <- E46.
    apply round_err; [rewrite E8; lra | rewrite E8; lra | unfold emin; lia]. }
  (* ct + (cb - ct) * t *)
  assert (Hs : (C + p - (1 # 35184372088832) <= s
                /\ s <= C + p + (1 # 35184372088832))%Q).
  { unfold s, add. rewrite EC. rewrite <- E45.
    apply round_err; [rewrite E9; lra | rewrite E9; lra | unfold emin; lia]. }
  unfold e. fold K C. split; lra.
Qed.

End FloatError.

(** X11.  For 8-bit colours and a box of at most [2^31] rows, the
    channel [int(ct + (cb - ct) * (row / max(h - 1, 1)))] that
    [draw_gradient_rect] computes in floating point is the floor of the
    exact interpolation [(ct * d + (cb - ct) * row) / d], [d] being
    [max(h - 1, 1)], whenever that value is not an integer; when it is
    an integer the channel is that integer or one less.  So a channel
    is never above the exact value, and never as much as two levels
    below it. *)
Theorem gradient_channel_accuracy ct cb h row :
  0 <= ct <= 255 -> 0 <= cb <= 255 -> 1 <= h <= 2 ^ 31 -> 0 <= row < h ->
  let d := Z.max (h - 1) 1 in
  let m := ct * d + (cb - ct) * row in
  m / d - 1 <= Features.gradient_channel ct cb h row <= m / d
  /\ (m mod d <> 0 -> Features.gradient_channel ct cb h row = m / d).
Proof.
  intros Hct Hcb Hh Hrow d m.
  assert (P31 : 2 ^ 31 = 2147483648) by reflexivity.
  destruct (FloatError.gradient_float_error ct cb h row Hct Hcb ltac:(lia) Hrow)
    as [Lo Hi].
  fold d in Lo, Hi.
  unfold Features.gradient_channel. fold d.
  set (s := Py.Float.add _ _) in *.
  assert (Hd : 0 < d <= 2147483648) by (unfold d; lia).
  assert (Hm : 0 <= m) by (unfold m, d; nia).
  pose proof (Z.div_mod m d ltac:(lia)) as DM.
  pose proof (Z.mod_pos_bound m d ltac:(lia)) as MB.
  assert (Hn : 0 <= m / d) by (apply Z.div_pos; lia).
  set (n := m / d) in *. set (r := m mod d) in *.
  set (D := inject_Z d). set (N := inject_Z n). set (R := inject_Z r).
  assert (HD : (1 <= D <= 2147483648)%Q).
  { unfold D. split.
    - change 1%Q with (inject_Z 1). rewrite <- Zle_Qle. lia.
    - change 2147483648%Q with (inject_Z 2147483648). rewrite <- Zle_Qle. lia. }
  assert (HR : (0 <= R <= D - 1)%Q).
  { unfold R, D. split.
    - change 0%Q with (inject_Z 0). rewrite <- Zle_Qle. lia.
    - assert (X : (inject_Z (d - 1) == inject_Z d - 1)%Q).
      { unfold Z.sub. rewrite inject_Z_plus, inject_Z_opp. reflexivity. }
      rewrite <- X. rewrite <- Zle_Qle. lia. }
  assert (HN : (0 <= N)%Q).
  { unfold N. change 0%Q with (inject_Z 0). rewrite <- Zle_Qle. exact Hn. }
  set (i := (/ D)%Q).
  assert (Hi1 : (D * i == 1)%Q) by (apply Qmult_inv_r; lra).
  assert (Hi0 : (0 < i)%Q) by (apply Qinv_lt_0_compat; lra).
  assert (Hi2 : (1 # 2147483648 <= i)%Q) by nra.
  assert (Ee : (inject_Z ct + inject_Z (cb - ct) * (inject_Z row / inject_Z d)
                == N + R * i)%Q).
  { assert (M : (inject_Z m == D * N + R)%Q).
    { unfold D, N, R. rewrite <- inject_Z_mult, <- inject_Z_plus. rewrite <- DM.
      reflexivity. }
    unfold m in M. rewrite inject_Z_plus, !inject_Z_mult in M. fold D in M.
    unfold Qdiv. fold D. fold i.
    assert (X : (inject_Z ct + inject_Z (cb - ct) * (inject_Z row * i)
                 == (inject_Z ct * D + inject_Z (cb - ct) * inject_Z row) * i
                    + inject_Z ct * (1 - D * i))%Q) by ring.
    rewrite X, M, Hi1. transitivity (N * (D * i) + R * i)%Q; [ring | ].
    rewrite Hi1. ring. }
  rewrite Ee in Lo, Hi.
  assert (HRi : (R * i <= 1 - i)%Q) by nra.
  assert (HRi0 : (0 <= R * i)%Q) by nra.
  unfold Py.Float.to_int.
  destruct (Qle_bool 0 s) eqn:S0.
  - split.
    + apply FloatError.Qfloor_between; fold N; lra.
    + intros Hr. assert (Hr1 : (1 <= R)%Q).
      { unfold R. change 1%Q with (inject_Z 1). rewrite <- Zle_Qle. lia. }
      assert (i <= R * i)%Q by nra.
      pose proof (FloatError.Qfloor_between s n ltac:(fold N; lra) ltac:(fold N; lra)).
      pose proof (FloatError.Qfloor_above s n ltac:(fold N; lra)). lia.
  - assert (Sneg : (s < 0)%Q).
    { apply Qnot_le_lt. rewrite <- Qle_bool_iff. congruence. }
    assert (N0 : n = 0).
    { assert (F : (inject_Z n < inject_Z 1)%Q)
        by (fold N; change (inject_Z 1) with 1%Q; lra).
      rewrite <- Zlt_Qlt in F. lia. }
    assert (R0 : r = 0).
    { destruct (Z.eq_dec r 0) as [E | NE]; [exact E | exfalso].
      assert (Hr1 : (1 <= R)%Q).
      { unfold R. change 1%Q with (inject_Z 1). rewrite <- Zle_Qle. lia. }
      assert (i <= R * i)%Q by nra. lra. }
    assert (C0 : Qceiling s = 0).
    { unfold Qceiling.
      pose proof (FloatError.Qfloor_between (- s) 1
                    ltac:(change (inject_Z 1) with 1%Q; lra)
                    ltac:(change (inject_Z 1) with 1%Q; lra)).
      pose proof (FloatError.Qfloor_above (- s) 0
                    ltac:(change (inject_Z 0) with 0%Q; lra)).
      assert (Qfloor (- s) <> 1).
      { intros E1. pose proof (Qfloor_le (- s)) as L. rewrite E1 in L.
        change (inject_Z 1) with 1%Q in L. lra. }
      lia. }
    rewrite C0, N0. split; [lia | intros; reflexivity].
Qed.

Lemma gradient_channel_accuracy_witness :
  (0 <= Features.gradient_channel 0 49 50 1 <= 1)
  /\ Features.gradient_channel 212 153 55 7 = 204.
Proof.
  split.
  - apply (gradient_channel_accuracy 0 49 50 1); lia.
  - apply (gradient_channel_accuracy 212 153 55 7); [lia | lia | lia | lia | ].
    vm_compute. discriminate.
Defined.

(** ** The rounded-rectangle helpers: errors, agreement, extent, symmetry *)

(** The reference rasteriser has the three properties. *)
Lemma ideal_ellipse_in_box : ellipse_in_box reference_backend.
Proof.
  intros [[[x0 y0] x1] y1] x y. cbn [ellipse_region reference_backend].
  unfold ideal_ellipse, rectangle_region. intros H.
  repeat (apply andb_prop in H; destruct H as [H ?]).
  apply Z.leb_le in H, H1, H2, H3.
  repeat (apply andb_true_intro; split); apply Z.leb_le; lia.
Qed.

Lemma ideal_ellipse_translates : ellipse_translates reference_backend.
Proof.
  intros x0 y0 x1 y1 dx dy x y. cbn [ellipse_region reference_backend].
  unfold ideal_ellipse.
  replace (x1 + dx - (x0 + dx)) with (x1 - x0) by lia.
  replace (y1 + dy - (y0 + dy)) with (y1 - y0) by lia.
  replace (2 * (x + dx) - (x0 + dx) - (x1 + dx)) with (2 * x - x0 - x1) by lia.
  replace (2 * (y + dy) - (y0 + dy) - (y1 + dy)) with (2 * y - y0 - y1) by lia.
  set (p := (2 * x - x0 - x1) ^ 2 * (y1 - y0) ^ 2
            + (2 * y - y0 - y1) ^ 2 * (x1 - x0) ^ 2).
  set (q := (x1 - x0) ^ 2 * (y1 - y0) ^ 2).
  apply eq_true_iff_eq. rewrite !andb_true_iff, !Z.leb_le. lia.
Qed.

Lemma ideal_ellipse_mirrors : ellipse_mirrors reference_backend.
Proof.
  intros x0 y0 x1 y1 x y. cbn [ellipse_region reference_backend].
  unfold ideal_ellipse. split.
  - replace ((2 * (x0 + x1 - x) - x0 - x1) ^ 2) with ((2 * x - x0 - x1) ^ 2) by nia.
    set (p := (2 * x - x0 - x1) ^ 2 * (y1 - y0) ^ 2
              + (2 * y - y0 - y1) ^ 2 * (x1 - x0) ^ 2).
    set (q := (x1 - x0) ^ 2 * (y1 - y0) ^ 2).
    apply eq_true_iff_eq. rewrite !andb_true_iff, !Z.leb_le. lia.
  - replace ((2 * (y0 + y1 - y) - y0 - y1) ^ 2) with ((2 * y - y0 - y1) ^ 2) by nia.
    set (p := (2 * x - x0 - x1) ^ 2 * (y1 - y0) ^ 2
              + (2 * y - y0 - y1) ^ 2 * (x1 - x0) ^ 2).
    set (q := (x1 - x0) ^ 2 * (y1 - y0) ^ 2).
    apply eq_true_iff_eq. rewrite !andb_true_iff, !Z.leb_le. lia.
Qed.

Section RasterErrors.
Context {B : Backend} {A : Type}.

Lemma strict_accepts xy : strict_boxes = true -> accepts xy = ordered xy.
Proof. intros S. unfold accepts. rewrite S. apply orb_false_r. Qed.

Lemma lenient_accepts xy : strict_boxes = false -> accepts xy = true.
Proof. intros S. unfold accepts. rewrite S. apply orb_true_r. Qed.

(** One of the six boxes is out of order as soon as the radius is
    negative or does not fit twice in a side. *)
Lemma yield_rounded_rect_refused (im : Image A) x1 y1 x2 y2 r fill :
  strict_boxes = true ->
  r < 0 \/ x2 - x1 < 2 * r \/ y2 - y1 < 2 * r ->
  Yield.draw_rounded_rect im (x1, y1, x2, y2) r fill = None.
Proof.
  intros S H. unfold Yield.draw_rounded_rect, rectangle, ellipse, raster_draw.
  rewrite !strict_accepts by exact S. unfold ordered.
  repeat match goal with
         | |- context [?a <=? ?b] =>
             destruct (Z.leb_spec a b); cbn [andb]; cbv iota; try reflexivity
         end.
  exfalso. lia.
Qed.

Lemma yield_rounded_rect_lenient (im : Image A) coords r fill :
  strict_boxes = false ->
  exists im', Yield.draw_rounded_rect im coords r fill = Some im'.
Proof.
  intros S. destruct coords as [[[x1 y1] x2] y2].
  unfold Yield.draw_rounded_rect, rectangle, ellipse, raster_draw.
  repeat (rewrite lenient_accepts by exact S; cbv beta iota).
  eexists. reflexivity.
Qed.

End RasterErrors.

(** X4.  With a library that refuses a box whose corners are out of
    order, [draw_rounded_rect] of [create_infographic.py] raises exactly
    when the radius is negative or twice the radius exceeds a side of the
    box; with a library that accepts any box it never raises. *)
Theorem yield_rounded_rect_raises_iff {B : Backend} {A : Type}
    (im : Image A) x1 y1 x2 y2 radius fill :
  (strict_boxes = true ->
   (Yield.draw_rounded_rect im (x1, y1, x2, y2) radius fill = None
    <-> radius < 0 \/ x2 - x1 < 2 * radius \/ y2 - y1 < 2 * radius))
  /\ (strict_boxes = false ->
      Yield.draw_rounded_rect im (x1, y1, x2, y2) radius fill <> None).
Proof.
  split.
  - intros S. split.
    + intros E. destruct (Z_lt_le_dec radius 0) as [ | Hr]; [auto | ].
      destruct (Z_lt_le_dec (x2 - x1) (2 * radius)) as [ | Hw]; [auto | ].
      destruct (Z_lt_le_dec (y2 - y1) (2 * radius)) as [ | Hh]; [auto | ].
      destruct (yield_rounded_rect_succeeds im x1 y1 x2 y2 radius fill Hr Hw Hh)
        as [im' E'].
      congruence.
    + apply yield_rounded_rect_refused. exact S.
  - intros S. destruct (yield_rounded_rect_lenient im (x1, y1, x2, y2) radius fill S)
      as [im' E].
    congruence.
Qed.

Lemma yield_rounded_rect_raises_iff_witness :
  Yield.draw_rounded_rect (H := @raster_draw Z reference_backend) (black 50 50)
                          (0, 0, 10, 10) 20 255 = None.
Proof.
  apply (proj1 (yield_rounded_rect_raises_iff (B := reference_backend) (black 50 50)
                  0 0 10 10 20 255) eq_refl).
  lia.
Defined.

(** X5.  With a library that refuses a box whose corners are out of
    order, [draw_rounded_rect] of [create_features_infographic.py]
    raises exactly when the radius is negative or the box itself is out
    of order ([x2 < x1] or [y2 < y1]): thanks to the clamp, no radius is
    too large.  With a library that accepts any box it never raises. *)
Theorem features_rounded_rect_raises_iff {B : Backend} {A : Type}
    (im : Image A) x1 y1 x2 y2 radius fill :
  (strict_boxes = true ->
   (Features.draw_rounded_rect im (x1, y1, x2, y2) radius fill = None
    <-> radius < 0 \/ x2 < x1 \/ y2 < y1))
  /\ (strict_boxes = false ->
      Features.draw_rounded_rect im (x1, y1, x2, y2) radius fill <> None).
Proof.
  rewrite features_rounded_rect_clamps.
  pose proof (effective_radius_fits x1 y1 x2 y2 radius) as F. cbv zeta in F.
  set (r := Features.effective_radius (x1, y1, x2, y2) radius) in *.
  destruct F as (F0 & F1 & F2 & F3).
  split.
  - intros S. split.
    + intros E. destruct (Z_lt_le_dec radius 0) as [ | Hr]; [auto | ].
      destruct (Z_lt_le_dec x2 x1) as [ | Hw]; [auto | ].
      destruct (Z_lt_le_dec y2 y1) as [ | Hh]; [auto | ].
      destruct (yield_rounded_rect_succeeds im x1 y1 x2 y2 r fill) as [im' E'];
        try lia.
      congruence.
    + intros H. apply yield_rounded_rect_refused; [exact S | ]. left.
      unfold r, Features.effective_radius.
      pose proof (Z.div_lt_upper_bound (x2 - x1) 2 0 ltac:(lia)).
      pose proof (Z.div_lt_upper_bound (y2 - y1) 2 0 ltac:(lia)).
      lia.
  - intros S. destruct (yield_rounded_rect_lenient im (x1, y1, x2, y2) r fill S)
      as [im' E].
    congruence.
Qed.

Lemma features_rounded_rect_raises_iff_witness :
  Features.draw_rounded_rect (H := @raster_draw Z reference_backend) (black 50 50)
                             (0, 0, 10, 10) (-1) 255 = None
  /\ Features.draw_rounded_rect (H := @raster_draw Z reference_backend) (black 50 50)
                                (0, 0, 10, 10) 20 255 <> None.
Proof.
  split.
  - apply (proj1 (features_rounded_rect_raises_iff (B := reference_backend)
                    (black 50 50) 0 0 10 10 (-1) 255) eq_refl).
    lia.
  - intros E.
    apply (proj1 (features_rounded_rect_raises_iff (B := reference_backend)
                    (black 50 50) 0 0 10 10 20 255) eq_refl) in E.
    lia.
Defined.

(** X6.  Where twice the radius fits in both sides of the box, the two
    [draw_rounded_rect] helpers do the same thing, on any drawing
    target: they make the same six calls with the same boxes, and raise
    or return alike. *)
Theorem rounded_rect_helpers_agree {D F : Type} `{ImageDraw D F}
    (draw : D) x1 y1 x2 y2 radius (fill : F) :
  2 * radius <= x2 - x1 -> 2 * radius <= y2 - y1 ->
  Features.draw_rounded_rect draw (x1, y1, x2, y2) radius fill
  = Yield.draw_rounded_rect draw (x1, y1, x2, y2) radius fill.
Proof.
  intros Hw Hh. rewrite features_rounded_rect_clamps.
  replace (Features.effective_radius (x1, y1, x2, y2) radius) with radius;
    [reflexivity | ].
  unfold Features.effective_radius.
  pose proof (Z.div_le_lower_bound (x2 - x1) 2 radius ltac:(lia) Hw).
  pose proof (Z.div_le_lower_bound (y2 - y1) 2 radius ltac:(lia) Hh).
  lia.
Qed.

Lemma rounded_rect_helpers_agree_witness :
  Features.draw_rounded_rect (H := @canvas_draw reference_backend)
    (empty_canvas 1200 1600) (200, 1340, 1000, 1400) 30 (0, 212, 170)
  = Yield.draw_rounded_rect (H := @canvas_draw reference_backend)
      (empty_canvas 1200 1600) (200, 1340, 1000, 1400) 30 (0, 212, 170).
Proof.
  apply (rounded_rect_helpers_agree (H := @canvas_draw reference_backend)); lia.
Defined.

(** The shape stays inside the box when the ellipses do. *)
Lemma rounded_region_in_box {B : Backend} x1 y1 x2 y2 r x y :
  ellipse_in_box B -> 0 <= r -> 2 * r <= x2 - x1 -> 2 * r <= y2 - y1 ->
  rounded_region (x1, y1, x2, y2) r x y = true ->
  rectangle_region (x1, y1, x2, y2) x y = true.
Proof.
  intros E Hr Hw Hh. unfold rounded_region. rewrite !orb_true_iff.
  assert (R : forall a b c d,
             x1 <= a -> a <= c -> c <= x2 -> y1 <= b -> b <= d -> d <= y2 ->
             rectangle_region (a, b, c, d) x y = true ->
             rectangle_region (x1, y1, x2, y2) x y = true).
  { intros a b c d ? ? ? ? ? ?. unfold rectangle_region.
    rewrite !andb_true_iff, !Z.leb_le. lia. }
  intros [[[[[H | H] | H] | H] | H] | H];
    try apply E in H; revert H; apply R; lia.
Qed.

Lemma rounded_region_zero {B : Backend} x1 y1 x2 y2 x y :
  ellipse_in_box B -> x1 <= x2 -> y1 <= y2 ->
  rounded_region (x1, y1, x2, y2) 0 x y = rectangle_region (x1, y1, x2, y2) x y.
Proof.
  intros E Hw Hh.
  destruct (rectangle_region (x1, y1, x2, y2) x y) eqn:R.
  - unfold rounded_region. rewrite Z.add_0_r, Z.sub_0_r, R. reflexivity.
  - destruct (rounded_region (x1, y1, x2, y2) 0 x y) eqn:Q; [ | reflexivity].
    apply rounded_region_in_box in Q; try assumption; try lia. congruence.
Qed.

(** X7.  With a rasteriser whose ellipses stay inside their bounding
    boxes, [draw_rounded_rect] of [create_features_infographic.py],
    given a radius that is not negative and a box in order, changes no
    pixel outside the box [[x1, x2] x [y1, y2]] (both corners included),
    gives the fill colour to the whole of the two strips inset by the
    requested radius, and with radius 0 paints exactly the box. *)
Theorem rounded_rect_stays_in_box {B : Backend} {A : Type}
    (im im' : Image A) x1 y1 x2 y2 radius fill :
  ellipse_in_box B -> 0 <= radius -> x1 <= x2 -> y1 <= y2 ->
  Features.draw_rounded_rect im (x1, y1, x2, y2) radius fill = Some im' ->
  (forall x y, rectangle_region (x1, y1, x2, y2) x y = false ->
               pixel im' x y = pixel im x y)
  /\ (forall x y, (x1 + radius <= x <= x2 - radius /\ y1 <= y <= y2)
                  \/ (x1 <= x <= x2 /\ y1 + radius <= y <= y2 - radius) ->
                  pixel im' x y = fill)
  /\ (radius = 0 ->
      forall x y, pixel im' x y =
                  if rectangle_region (x1, y1, x2, y2) x y then fill else pixel im x y).
Proof.
  intros E Hr Hw Hh D. rewrite features_rounded_rect_clamps in D.
  pose proof (effective_radius_fits x1 y1 x2 y2 radius) as F. cbv zeta in F.
  set (r := Features.effective_radius (x1, y1, x2, y2) radius) in *.
  destruct F as (F0 & F1 & F2 & F3). specialize (F3 Hr ltac:(lia) ltac:(lia)).
  apply yield_rounded_rect_paints in D. destruct D as [_ P].
  split; [ | split].
  - intros x y O. rewrite P.
    destruct (rounded_region (x1, y1, x2, y2) r x y) eqn:Q; [ | reflexivity].
    apply rounded_region_in_box in Q; try assumption. congruence.
  - intros x y H. rewrite P.
    replace (rounded_region (x1, y1, x2, y2) r x y) with true; [reflexivity | ].
    symmetry. unfold rounded_region, rectangle_region.
    destruct H as [H | H].
    + replace ((Z.min (x1 + r) (x2 - r) <=? x) && (x <=? Z.max (x1 + r) (x2 - r))
               && (Z.min y1 y2 <=? y) && (y <=? Z.max y1 y2)) with true;
        [reflexivity | ].
      symmetry. rewrite !andb_true_iff, !Z.leb_le. lia.
    + replace ((Z.min x1 x2 <=? x) && (x <=? Z.max x1 x2)
               && (Z.min (y1 + r) (y2 - r) <=? y) && (y <=? Z.max (y1 + r) (y2 - r)))
        with true; [rewrite orb_true_r; reflexivity | ].
      symmetry. rewrite !andb_true_iff, !Z.leb_le. lia.
  - intros R0 x y. rewrite P.
    replace r with 0
      by (unfold r, Features.effective_radius; subst radius;
          pose proof (Z.div_pos (x2 - x1) 2 ltac:(lia) ltac:(lia));
          pose proof (Z.div_pos (y2 - y1) 2 ltac:(lia) ltac:(lia)); lia).
    rewrite rounded_region_zero by assumption. reflexivity.
Qed.

Lemma rounded_rect_stays_in_box_witness :
  exists im',
    Features.draw_rounded_rect (H := @raster_draw Z reference_backend) (black 300 300)
                               (40, 100, 216, 105) 3 255 = Some im'
    /\ pixel im' 39 102 = 0 /\ pixel im' 43 100 = 255.
Proof.
  destruct (features_rounded_rect_succeeds (B := reference_backend) (black 300 300)
              40 100 216 105 3 255) as [im' E]; [lia | lia | lia | ].
  exists im'. split; [exact E | ].
  destruct (rounded_rect_stays_in_box (B := reference_backend) (black 300 300) im'
              40 100 216 105 3 255 ideal_ellipse_in_box) as (O & I & _);
    [lia | lia | lia | exact E | ].
  split.
  - rewrite O; reflexivity.
  - apply I. lia.
Defined.

Section Mirror.
Context {B : Backend}.
Hypothesis HT : ellipse_translates B.
Hypothesis HM : ellipse_mirrors B.

(** The ellipse in one corner is the mirror image of the ellipse in the
    corner opposite. *)
Lemma corner_mirror_x a b w b' c x y :
  ellipse_region (c - w, b, c, b') (a + c - x) y = ellipse_region (a, b, a + w, b') x y.
Proof.
  rewrite <- (proj1 (HM a b (a + w) b' x y)).
  rewrite <- (HT a b (a + w) b' (c - w - a) 0 (a + (a + w) - x) y).
  f_equal; [f_equal; [f_equal; [f_equal | ] | ] | | ]; lia.
Qed.

Lemma corner_mirror_y a b h a' d x y :
  ellipse_region (a, d - h, a', d) x (b + d - y) = ellipse_region (a, b, a', b + h) x y.
Proof.
  rewrite <- (proj2 (HM a b a' (b + h) x y)).
  rewrite <- (HT a b a' (b + h) 0 (d - h - b) x (b + (b + h) - y)).
  f_equal; [f_equal; [f_equal; [f_equal | ] | ] | | ]; lia.
Qed.

Lemma rectangle_mirror_x a b c d x1 x2 x y :
  a + c = x1 + x2 ->
  rectangle_region (a, b, c, d) (x1 + x2 - x) y = rectangle_region (a, b, c, d) x y.
Proof.
  intros H. unfold rectangle_region. apply eq_true_iff_eq.
  rewrite !andb_true_iff, !Z.leb_le. lia.
Qed.

Lemma rectangle_mirror_y a b c d y1 y2 x y :
  b + d = y1 + y2 ->
  rectangle_region (a, b, c, d) x (y1 + y2 - y) = rectangle_region (a, b, c, d) x y.
Proof.
  intros H. unfold rectangle_region. apply eq_true_iff_eq.
  rewrite !andb_true_iff, !Z.leb_le. lia.
Qed.

Lemma rounded_region_mirror x1 y1 x2 y2 r x y :
  rounded_region (x1, y1, x2, y2) r (x1 + x2 - x) y = rounded_region (x1, y1, x2, y2) r x y
  /\ rounded_region (x1, y1, x2, y2) r x (y1 + y2 - y)
     = rounded_region (x1, y1, x2, y2) r x y.
Proof.
  unfold rounded_region. split.
  - rewrite !rectangle_mirror_x by lia.
    rewrite (corner_mirror_x x1 y1 (2 * r) (y1 + 2 * r) x2 x y).
    rewrite (corner_mirror_x x1 (y2 - 2 * r) (2 * r) y2 x2 x y).
    rewrite <- (corner_mirror_x x1 y1 (2 * r) (y1 + 2 * r) x2 (x1 + x2 - x) y).
    rewrite <- (corner_mirror_x x1 (y2 - 2 * r) (2 * r) y2 x2 (x1 + x2 - x) y).
    replace (x1 + x2 - (x1 + x2 - x)) with x by lia.
    destruct (rectangle_region (x1 + r, y1, x2 - r, y2) x y);
      destruct (rectangle_region (x1, y1 + r, x2, y2 - r) x y);
      destruct (ellipse_region (x1, y1, x1 + 2 * r, y1 + 2 * r) x y);
      destruct (ellipse_region (x2 - 2 * r, y1, x2, y1 + 2 * r) x y);
      destruct (ellipse_region (x1, y2 - 2 * r, x1 + 2 * r, y2) x y);
      destruct (ellipse_region (x2 - 2 * r, y2 - 2 * r, x2, y2) x y); reflexivity.
  - rewrite !rectangle_mirror_y by lia.
    rewrite (corner_mirror_y x1 y1 (2 * r) (x1 + 2 * r) y2 x y).
    rewrite (corner_mirror_y (x2 - 2 * r) y1 (2 * r) x2 y2 x y).
    rewrite <- (corner_mirror_y x1 y1 (2 * r) (x1 + 2 * r) y2 x (y1 + y2 - y)).
    rewrite <- (corner_mirror_y (x2 - 2 * r) y1 (2 * r) x2 y2 x (y1 + y2 - y)).
    replace (y1 + y2 - (y1 + y2 - y)) with y by lia.
    destruct (rectangle_region (x1 + r, y1, x2 - r, y2) x y);
      destruct (rectangle_region (x1, y1 + r, x2, y2 - r) x y);
      destruct (ellipse_region (x1, y1, x1 + 2 * r, y1 + 2 * r) x y);
      destruct (ellipse_region (x2 - 2 * r, y1, x2, y1 + 2 * r) x y);
      destruct (ellipse_region (x1, y2 - 2 * r, x1 + 2 * r, y2) x y);
      destruct (ellipse_region (x2 - 2 * r, y2 - 2 * r, x2, y2) x y); reflexivity.
Qed.

End Mirror.

(** X8.  With a rasteriser whose ellipses are symmetric and do not
    depend on where the box lies, the set of pixels either
    [draw_rounded_rect] paints is unchanged by mirroring the box left to
    right and by mirroring it top to bottom, whatever the radius. *)
Theorem rounded_rect_mirror_symmetric {B : Backend} {A : Type}
    (im im' : Image A) x1 y1 x2 y2 radius fill :
  ellipse_translates B -> ellipse_mirrors B ->
  Yield.draw_rounded_rect im (x1, y1, x2, y2) radius fill = Some im'
  \/ Features.draw_rounded_rect im (x1, y1, x2, y2) radius fill = Some im' ->
  exists painted : Z -> Z -> bool,
    (forall x y, pixel im' x y = if painted x y then fill else pixel im x y)
    /\ (forall x y, painted (x1 + x2 - x) y = painted x y)
    /\ (forall x y, painted x (y1 + y2 - y) = painted x y).
Proof.
  intros HT HM [E | E].
  - apply yield_rounded_rect_paints in E. destruct E as [_ P].
    exists (rounded_region (x1, y1, x2, y2) radius).
    split; [exact P | ].
    split; intros x y; apply (rounded_region_mirror HT HM).
  - rewrite features_rounded_rect_clamps in E.
    apply yield_rounded_rect_paints in E. destruct E as [_ P].
    exists (rounded_region (x1, y1, x2, y2)
              (Features.effective_radius (x1, y1, x2, y2) radius)).
    split; [exact P | ].
    split; intros x y; apply (rounded_region_mirror HT HM).
Qed.

Lemma rounded_rect_mirror_symmetric_witness :
  exists im',
    Yield.draw_rounded_rect (H := @raster_draw Z reference_backend) (black 1200 1600)
                            (50, 380, 403, 660) 15 255 = Some im'
    /\ pixel im' 52 383 = pixel im' 401 383
    /\ pixel im' 52 383 = pixel im' 52 657.
Proof.
  destruct (yield_rounded_rect_succeeds (B := reference_backend) (black 1200 1600)
              50 380 403 660 15 255) as [im' E]; [lia | lia | lia | ].
  exists im'. split; [exact E | ].
  destruct (rounded_rect_mirror_symmetric (B := reference_backend) (black 1200 1600) im'
              50 380 403 660 15 255 ideal_ellipse_translates ideal_ellipse_mirrors
              (or_introl E)) as (painted & P & Mx & My).
  rewrite !P. split.
  - rewrite <- (Mx 401 383). reflexivity.
  - rewrite <- (My 52 657). reflexivity.
Defined.

(** ** The gradient: errors, every pixel, and the plain card *)

Lemma clip8_range v : 0 <= clip8 v <= 255.
Proof. unfold clip8. lia. Qed.

Lemma blend_opaque v w : 0 <= w <= 255 -> blend 255 v w = w.
Proof.
  intros H. unfold blend.
  replace (v * (255 - 255) + w * 255) with (w * 255) by lia.
  apply div255_byte. exact H.
Qed.

Lemma ink_rgba_bytes c :
  let '(r, g, b, a) := ink_rgba c in
  0 <= r <= 255 /\ 0 <= g <= 255 /\ 0 <= b <= 255 /\ 0 <= a <= 255.
Proof.
  destruct c as [[[r g] b] a]. cbn [ink_rgba].
  pose proof (clip8_range r). pose proof (clip8_range g).
  pose proof (clip8_range b). pose proof (clip8_range a). tauto.
Qed.

Lemma gradient_color_alpha ct cb h row :
  ink_rgba (Features.gradient_color ct cb h row)
  = (let '(r, g, b, _) := ink_rgba (Features.gradient_color ct cb h row) in
     (r, g, b, 255)).
Proof.
  destruct ct as [[ct0 ct1] ct2], cb as [[cb0 cb1] cb2]. reflexivity.
Qed.

Lemma gradient_cover_in_box {B : Backend} x1 y1 x2 y2 radius x y :
  gradient_cover (x1, y1, x2, y2) radius x y = true ->
  x1 <= x < x2 /\ y1 <= y < y2.
Proof.
  unfold gradient_cover, gradient_footprint.
  destruct (0 <? radius); rewrite !andb_true_iff, !Z.leb_le, !Z.ltb_lt; lia.
Qed.

(** The overlay that [draw_gradient_rect] pastes: its size is the box's,
    its colours are the rows' inks, its alpha is 255 where the call
    writes and 0 elsewhere in the box. *)
Lemma gradient_overlay {B : Backend} x1 y1 x2 y2 ct cb radius buf ov :
  Features.gradient_buffer (x1, y1, x2, y2) ct cb = Some buf ->
  Features.round_corners buf radius = Some ov ->
  width ov = x2 - x1 /\ height ov = y2 - y1
  /\ forall x y, x1 <= x < x2 -> y1 <= y < y2 ->
       pixel ov (x - x1) (y - y1) =
       let '(r, g, b, _) :=
         ink_rgba (Features.gradient_color ct cb (y2 - y1) (y - y1)) in
       (r, g, b, if gradient_cover (x1, y1, x2, y2) radius x y then 255 else 0).
Proof.
  intros Eb Eo.
  pose proof (gradient_buffer_size _ _ _ _ Eb) as (Sw & Sh & Hw & Hh).
  assert (Pb : forall x y, x1 <= x < x2 -> y1 <= y < y2 ->
               pixel buf (x - x1) (y - y1)
               = ink_rgba (Features.gradient_color ct cb (y2 - y1) (y - y1))).
  { intros x y Hx Hy. apply gradient_buffer_inv in Eb. destruct Eb as (_ & _ & ->).
    rewrite gradient_rows_pixel, range_spec.
    replace ((0 <=? y - y1) && (y - y1 <? y2 - y1) && (Z.min 0 (x2 - x1) <=? x - x1)
             && (x - x1 <=? Z.max 0 (x2 - x1))) with true; [reflexivity | ].
    symmetry. rewrite !andb_true_iff, !Z.leb_le, Z.ltb_lt. lia. }
  assert (In : forall x y, x1 <= x < x2 -> y1 <= y < y2 ->
               (x1 <=? x) && (x <? x2) && (y1 <=? y) && (y <? y2) = true).
  { intros x y Hx Hy. rewrite !andb_true_iff, !Z.leb_le, !Z.ltb_lt. lia. }
  unfold gradient_cover.
  destruct (Z.ltb_spec 0 radius) as [Hr | Hr].
  - apply round_corners_alpha in Eo; try lia. destruct Eo as [So Po].
    unfold size in So.
    split; [congruence | ]. split; [congruence | ].
    intros x y Hx Hy. rewrite Po, (Pb x y Hx Hy), Sw, Sh.
    unfold gradient_footprint. rewrite (In x y Hx Hy). cbn [andb].
    destruct (ink_rgba (Features.gradient_color ct cb (y2 - y1) (y - y1)))
      as [[[r g] b] a].
    reflexivity.
  - unfold Features.round_corners in Eo.
    destruct (Z.ltb_spec 0 radius); [lia | ]. injection Eo as <-.
    split; [exact Sw | ]. split; [exact Sh | ].
    intros x y Hx Hy. rewrite (Pb x y Hx Hy), (In x y Hx Hy).
    apply gradient_color_alpha.
Qed.

(** Every pixel after [draw_gradient_rect], for any two colours that
    parse. *)
Lemma draw_gradient_rect_pixels {B : Backend} (img img' : Image RGB)
    x1 y1 x2 y2 color_top color_bot radius ct cb :
  rgb_bytes img ->
  hex_to_rgb color_top = Some ct -> hex_to_rgb color_bot = Some cb ->
  Features.draw_gradient_rect img (x1, y1, x2, y2) color_top color_bot radius
  = Some img' ->
  size img' = size img
  /\ forall x y,
      pixel img' x y =
      if gradient_cover (x1, y1, x2, y2) radius x y
      then rgb_of (ink_rgba (Features.gradient_color ct cb (y2 - y1) (y - y1)))
      else pixel img x y.
Proof.
  intros Hb Et Ec. unfold Features.draw_gradient_rect. rewrite Et, Ec.
  destruct (Features.gradient_buffer (x1, y1, x2, y2) ct cb) as [buf | ] eqn:Eb;
    [ | discriminate].
  destruct (Features.round_corners buf radius) as [ov | ] eqn:Eo; [ | discriminate].
  destruct (gradient_overlay x1 y1 x2 y2 ct cb radius buf ov Eb Eo) as (Ow & Oh & Po).
  unfold paste, raster_paste. intros E. injection E as <-.
  split; [reflexivity | ].
  intros x y. unfold paste_rgba. cbn [pixel]. rewrite Ow, Oh.
  replace (x1 + (x2 - x1)) with x2 by lia.
  replace (y1 + (y2 - y1)) with y2 by lia.
  destruct ((x1 <=? x) && (x <? x2) && (y1 <=? y) && (y <? y2)) eqn:In.
  - rewrite !andb_true_iff, !Z.leb_le, !Z.ltb_lt in In.
    rewrite Po by lia.
    pose proof (ink_rgba_bytes (Features.gradient_color ct cb (y2 - y1) (y - y1)))
      as Hi.
    destruct (ink_rgba (Features.gradient_color ct cb (y2 - y1) (y - y1)))
      as [[[r g] b] a].
    destruct Hi as (Hr' & Hg' & Hb' & _).
    specialize (Hb x y). destruct (pixel img x y) as [[r0 g0] b0].
    destruct Hb as (R0 & G0 & B0).
    destruct (gradient_cover (x1, y1, x2, y2) radius x y).
    + rewrite !blend_opaque by assumption. reflexivity.
    + rewrite !blend_transparent by assumption. reflexivity.
  - destruct (gradient_cover (x1, y1, x2, y2) radius x y) eqn:C; [ | reflexivity].
    apply gradient_cover_in_box in C.
    rewrite !andb_false_iff, !Z.leb_gt, !Z.ltb_ge in In. lia.
Qed.

(** X9.  [draw_gradient_rect] raises exactly when one of its two colour
    strings makes [hex_to_rgb] raise, or the box has a negative width or
    height.  No radius makes it raise, with any library: the mask is
    drawn by the helper that clamps, on a box that starts at the
    origin. *)
Theorem draw_gradient_rect_raises_iff {B : Backend} (img : Image RGB)
    x1 y1 x2 y2 color_top color_bot radius :
  Features.draw_gradient_rect img (x1, y1, x2, y2) color_top color_bot radius = None
  <-> hex_to_rgb color_top = None \/ hex_to_rgb color_bot = None
      \/ x2 < x1 \/ y2 < y1.
Proof.
  unfold Features.draw_gradient_rect.
  destruct (hex_to_rgb color_top) as [ct | ]; [ | split; auto].
  destruct (hex_to_rgb color_bot) as [cb | ]; [ | split; auto].
  destruct (Z_lt_le_dec x2 x1) as [Hw | Hw].
  { unfold Features.gradient_buffer, new.
    destruct (Z.ltb_spec (x2 - x1) 0); [ | lia]. cbn [orb]. split; auto. }
  destruct (Z_lt_le_dec y2 y1) as [Hh | Hh].
  { unfold Features.gradient_buffer, new.
    destruct (Z.ltb_spec (y2 - y1) 0); [ | lia]. rewrite orb_true_r. split; auto. }
  rewrite gradient_buffer_ok by lia.
  match goal with
  | |- context [Features.round_corners ?b radius] =>
      destruct (round_corners_succeeds b radius) as [ov ->]
  end.
  - pose proof (f_equal fst (gradient_rows_size ct cb (x2 - x1) (y2 - y1)
                    (Py.range (y2 - y1))
                    (mkImage (x2 - x1) (y2 - y1) (fun _ _ => (0, 0, 0, 0))))) as S.
    cbn [fst size width] in S. rewrite S. lia.
  - pose proof (f_equal snd (gradient_rows_size ct cb (x2 - x1) (y2 - y1)
                    (Py.range (y2 - y1))
                    (mkImage (x2 - x1) (y2 - y1) (fun _ _ => (0, 0, 0, 0))))) as S.
    cbn [snd size height] in S. rewrite S. lia.
  - unfold paste, raster_paste. split; [discriminate | ].
    intros [H | [H | [H | H]]]; try discriminate; lia.
Qed.

(** X10.  What [draw_gradient_rect] does to every pixel of an RGB image,
    for two 8-bit colours: a pixel of the box [[x1, x2) x [y1, y2)]
    (when the radius is positive: one that the rounded mask covers)
    takes exactly the colour interpolated for its row, [y - y1]; every
    other pixel keeps its colour.  The image keeps its size and its
    channels stay 8-bit values. *)
Theorem gradient_rect_pixels {B : Backend} (img img' : Image RGB)
    x1 y1 x2 y2 color_top color_bot radius ct cb :
  rgb_bytes img ->
  hex_to_rgb color_top = Some ct -> hex_to_rgb color_bot = Some cb ->
  byte_rgb ct -> byte_rgb cb ->
  Features.draw_gradient_rect img (x1, y1, x2, y2) color_top color_bot radius
  = Some img' ->
  size img' = size img
  /\ rgb_bytes img'
  /\ forall x y,
      pixel img' x y =
      if gradient_cover (x1, y1, x2, y2) radius x y
      then rgb_of (Features.gradient_color ct cb (y2 - y1) (y - y1))
      else pixel img x y.
Proof.
  intros Hb Et Ec Bt Bc E.
  destruct (draw_gradient_rect_pixels img img' x1 y1 x2 y2 color_top color_bot radius
              ct cb Hb Et Ec E) as [S P].
  assert (Q : forall x y,
             pixel img' x y =
             if gradient_cover (x1, y1, x2, y2) radius x y
             then rgb_of (Features.gradient_color ct cb (y2 - y1) (y - y1))
             else pixel img x y).
  { intros x y. rewrite P.
    destruct (gradient_cover (x1, y1, x2, y2) radius x y) eqn:C; [ | reflexivity].
    apply gradient_cover_in_box in C.
    rewrite gradient_color_bytes; try assumption; try lia. reflexivity. }
  split; [exact S | ]. split; [ | exact Q].
  intros x y. rewrite P.
  destruct (gradient_cover (x1, y1, x2, y2) radius x y).
  - pose proof (ink_rgba_bytes (Features.gradient_color ct cb (y2 - y1) (y - y1)))
      as Hi.
    destruct (ink_rgba (Features.gradient_color ct cb (y2 - y1) (y - y1)))
      as [[[r g] b] a].
    cbn [rgb_of]. tauto.
  - apply Hb.
Qed.

Lemma gradient_rect_pixels_witness :
  exists img',
    Features.draw_gradient_rect (H0 := reference_backend)
      (mkImage 1200 3200 (fun _ _ => (15, 20, 25)))
      (200, 2900, 1000, 2955) "#00d4aa" "#009977" 28 = Some img'
    /\ pixel img' 600 2900 = (0, 212, 170)
    /\ pixel img' 600 2954 = (0, 153, 119)
    /\ pixel img' 200 2900 = (15, 20, 25).
Proof.
  assert (E : exists img',
             Features.draw_gradient_rect (H0 := reference_backend)
               (mkImage 1200 3200 (fun _ _ => (15, 20, 25)))
               (200, 2900, 1000, 2955) "#00d4aa" "#009977" 28 = Some img')
    by (eexists; reflexivity).
  destruct E as [img' E]. exists img'. split; [exact E | ].
  destruct (gradient_rect_pixels (B := reference_backend)
              (mkImage 1200 3200 (fun _ _ => (15, 20, 25))) img'
              200 2900 1000 2955 "#00d4aa" "#009977" 28 (0, 212, 170) (0, 153, 119))
    as (_ & _ & P).
  - intros x y. cbn. lia.
  - reflexivity.
  - reflexivity.
  - cbn. lia.
  - cbn. lia.
  - exact E.
  - rewrite !P. repeat split; vm_compute; reflexivity.
Defined.

Lemma rectangle_region_translate a b c d dx dy x y :
  rectangle_region (a + dx, b + dy, c + dx, d + dy) (x + dx) (y + dy)
  = rectangle_region (a, b, c, d) x y.
Proof.
  unfold rectangle_region. apply eq_true_iff_eq.
  rewrite !andb_true_iff, !Z.leb_le. lia.
Qed.

Lemma rounded_region_translate {B : Backend} a b c d r dx dy x y :
  ellipse_translates B ->
  rounded_region (a + dx, b + dy, c + dx, d + dy) r (x + dx) (y + dy)
  = rounded_region (a, b, c, d) r x y.
Proof.
  intros T. unfold rounded_region.
  replace (a + dx + r) with (a + r + dx) by lia.
  replace (c + dx - r) with (c - r + dx) by lia.
  replace (b + dy + r) with (b + r + dy) by lia.
  replace (d + dy - r) with (d - r + dy) by lia.
  replace (a + dx + 2 * r) with (a + 2 * r + dx) by lia.
  replace (b + dy + 2 * r) with (b + 2 * r + dy) by lia.
  replace (c + dx - 2 * r) with (c - 2 * r + dx) by lia.
  replace (d + dy - 2 * r) with (d - 2 * r + dy) by lia.
  rewrite !rectangle_region_translate, !T. reflexivity.
Qed.

(** The pixels a gradient writes are among those the rounded rectangle
    of the same box and radius covers. *)
Lemma gradient_footprint_rounded {B : Backend} x1 y1 x2 y2 radius x y :
  ellipse_translates B ->
  gradient_footprint (x1, y1, x2, y2) radius x y = true ->
  rounded_region (x1, y1, x2, y2)
    (Features.effective_radius (x1, y1, x2, y2) radius) x y = true.
Proof.
  intros T. unfold gradient_footprint. rewrite andb_true_iff. intros [_ H].
  replace (Features.effective_radius (0, 0, x2 - x1, y2 - y1) radius)
    with (Features.effective_radius (x1, y1, x2, y2) radius) in H
    by (unfold Features.effective_radius; rewrite !Z.sub_0_r; reflexivity).
  rewrite <- (rounded_region_translate 0 0 (x2 - x1) (y2 - y1) _ x1 y1
                (x - x1) (y - y1) T) in H.
  replace (0 + x1) with x1 in H by lia. replace (0 + y1) with y1 in H by lia.
  replace (x2 - x1 + x1) with x2 in H by lia.
  replace (y2 - y1 + y1) with y2 in H by lia.
  replace (x - x1 + x1) with x in H by lia.
  replace (y - y1 + y1) with y in H by lia.
  exact H.
Qed.

(** X12.  A card drawn by [draw_gradient_rect] lies inside the card
    that [draw_rounded_rect] of the same script draws for the same box
    and radius, and is one column and one row smaller.  With a
    rasteriser whose ellipses do not depend on where their box lies, it
    changes only pixels that [draw_rounded_rect] paints.  With any
    rasteriser, it never changes a pixel of column [x2] or of row [y2],
    which [draw_rounded_rect] does paint between the corners.  (The mask
    is drawn on the box [(0, 0, width, height)], whose last column and
    row fall outside the overlay.) *)
Theorem gradient_card_inside_plain_card {B : Backend} (img img1 img2 : Image RGB)
    x1 y1 x2 y2 color_top color_bot radius fill :
  0 < radius -> rgb_bytes img ->
  Features.draw_gradient_rect img (x1, y1, x2, y2) color_top color_bot radius
  = Some img1 ->
  Features.draw_rounded_rect img (x1, y1, x2, y2) radius fill = Some img2 ->
  (ellipse_translates B ->
   forall x y, pixel img1 x y <> pixel img x y -> pixel img2 x y = fill)
  /\ (forall y, pixel img1 x2 y = pixel img x2 y)
  /\ (forall x, pixel img1 x y2 = pixel img x y2)
  /\ (let r := Features.effective_radius (x1, y1, x2, y2) radius in
      (forall y, y1 + r <= y <= y2 - r -> pixel img2 x2 y = fill)
      /\ (forall x, x1 + r <= x <= x2 - r -> pixel img2 x y2 = fill)).
Proof.
  intros Hr Hb E1 E2.
  assert (Ec : exists ct cb,
             hex_to_rgb color_top = Some ct /\ hex_to_rgb color_bot = Some cb).
  { unfold Features.draw_gradient_rect in E1.
    destruct (hex_to_rgb color_top) as [ct | ]; [ | discriminate].
    destruct (hex_to_rgb color_bot) as [cb | ]; [ | discriminate].
    exists ct, cb. split; reflexivity. }
  destruct Ec as (ct & cb & Et & Ecb).
  destruct (draw_gradient_rect_pixels img img1 x1 y1 x2 y2 color_top color_bot radius
              ct cb Hb Et Ecb E1) as [_ P1].
  rewrite features_rounded_rect_clamps in E2.
  apply yield_rounded_rect_paints in E2. destruct E2 as [_ P2].
  assert (C : forall x y, gradient_cover (x1, y1, x2, y2) radius x y
                          = gradient_footprint (x1, y1, x2, y2) radius x y).
  { intros x y. unfold gradient_cover.
    destruct (Z.ltb_spec 0 radius); [reflexivity | lia]. }
  assert (Out : forall x y, ~ (x1 <= x < x2 /\ y1 <= y < y2) ->
                            pixel img1 x y = pixel img x y).
  { intros x y N. rewrite P1.
    destruct (gradient_cover (x1, y1, x2, y2) radius x y) eqn:G; [ | reflexivity].
    apply gradient_cover_in_box in G. tauto. }
  split; [ | split; [ | split]].
  - intros T x y N. rewrite P2. rewrite P1, C in N.
    destruct (gradient_footprint (x1, y1, x2, y2) radius x y) eqn:F; [ | congruence].
    rewrite (gradient_footprint_rounded x1 y1 x2 y2 radius x y T F). reflexivity.
  - intros y. apply Out. lia.
  - intros x. apply Out. lia.
  - cbv zeta. set (r := Features.effective_radius (x1, y1, x2, y2) radius) in *.
    split.
    + intros y Hy. rewrite P2.
      replace (rounded_region (x1, y1, x2, y2) r x2 y) with true; [reflexivity | ].
      symmetry. unfold rounded_region.
      replace (rectangle_region (x1, y1 + r, x2, y2 - r) x2 y) with true;
        [rewrite orb_true_r; reflexivity | ].
      symmetry. unfold rectangle_region. rewrite !andb_true_iff, !Z.leb_le. lia.
    + intros x Hx. rewrite P2.
      replace (rounded_region (x1, y1, x2, y2) r x y2) with true; [reflexivity | ].
      symmetry. unfold rounded_region.
      replace (rectangle_region (x1 + r, y1, x2 - r, y2) x y2) with true;
        [reflexivity | ].
      symmetry. unfold rectangle_region. rewrite !andb_true_iff, !Z.leb_le. lia.
Qed.

Lemma gradient_card_inside_plain_card_witness :
  exists img1 img2,
    Features.draw_gradient_rect (H0 := reference_backend)
      (mkImage 1200 3200 (fun _ _ => (15, 20, 25)))
      (200, 2900, 1000, 2955) "#00d4aa" "#009977" 28 = Some img1
    /\ Features.draw_rounded_rect (H := @raster_draw RGB reference_backend)
         (mkImage 1200 3200 (fun _ _ => (15, 20, 25)))
         (200, 2900, 1000, 2955) 28 (0, 212, 170) = Some img2
    /\ pixel img1 1000 2927 = (15, 20, 25)
    /\ pixel img2 1000 2927 = (0, 212, 170).
Proof.
  assert (E1 : exists img1,
             Features.draw_gradient_rect (H0 := reference_backend)
               (mkImage 1200 3200 (fun _ _ => (15, 20, 25)))
               (200, 2900, 1000, 2955) "#00d4aa" "#009977" 28 = Some img1)
    by (eexists; reflexivity).
  assert (E2 : exists img2,
             Features.draw_rounded_rect (H := @raster_draw RGB reference_backend)
               (mkImage 1200 3200 (fun _ _ => (15, 20, 25)))
               (200, 2900, 1000, 2955) 28 (0, 212, 170) = Some img2)
    by (eexists; reflexivity).
  destruct E1 as [img1 E1]. destruct E2 as [img2 E2].
  exists img1, img2. split; [exact E1 | ]. split; [exact E2 | ].
  destruct (gradient_card_inside_plain_card (B := reference_backend)
              (mkImage 1200 3200 (fun _ _ => (15, 20, 25))) img1 img2
              200 2900 1000 2955 "#00d4aa" "#009977" 28 (0, 212, 170))
    as (_ & C & _ & R & _).
  - lia.
  - intros x y. cbn. lia.
  - exact E1.
  - exact E2.
  - split.
    + rewrite C. reflexivity.
    + apply R. vm_compute. split; discriminate.
Defined.

(** ** Whole runs: the save, the shapes, the header *)

(** The final state of a run of the yield script: the run gets to the
    save when its texts can be drawn, the save changes neither the
    canvas nor the cursor, and a file is written when the save
    succeeds. *)
Lemma yield_final {B : Backend} env :
  exists r s,
    Yield.create_infographic env = Some (r, s)
    /\ st_img s = st_img (snd (yield_working env))
    /\ st_trail s = st_trail (snd (yield_working env))
    /\ st_y s = st_y (snd (yield_working env))
    /\ r = (if yield_texts_draw env && writable env Yield.OUTPUT_PATH
            then Some Yield.OUTPUT_PATH else None)
    /\ st_files s = (if yield_texts_draw env && writable env Yield.OUTPUT_PATH
                     then [(Yield.OUTPUT_PATH, st_img (snd (yield_working env)))]
                     else []).
Proof.
  destruct (yield_texts_draw env) eqn:D; cbn [andb].
  - rewrite (yield_create_from_working env D).
    destruct (yield_working_facts env D) as (_ & Fi & _).
    destruct (writable env Yield.OUTPUT_PATH) eqn:W.
    + rewrite (yield_export_spec env _ W). eexists. eexists.
      split; [reflexivity | ]. cbn [st_img st_trail st_y st_files]. rewrite Fi.
      repeat split.
    + rewrite (yield_export_fails env _ W). eexists. eexists.
      split; [reflexivity | ]. rewrite Fi. repeat split.
  - rewrite (yield_create_breaks env D).
    destruct (yield_working_breaks env D) as (_ & Fi & _).
    eexists. eexists. split; [reflexivity | ]. rewrite Fi. repeat split.
Qed.

(** The export step of the features script when the save fails: the crop
    has been done, nothing is written. *)
Lemma features_export_fails env s :
  writable env Features.OUTPUT_PATH = false ->
  let final_h := st_y s + 10 in
  let cropped := if final_h <? Features.HEIGHT
                 then crop (st_img s) (0, 0, Features.WIDTH, final_h)
                 else st_img s in
  Features.export env s
  = (None, mkState cropped (st_y s) (st_trail s) (st_files s)).
Proof.
  intros W. cbv zeta. unfold Features.export, bind, get_y, on_img, ret, save.
  destruct (st_y s + 10 <? Features.HEIGHT); cbn [st_img st_y st_trail st_files];
    rewrite W; [reflexivity | ].
  destruct s; reflexivity.
Qed.

(** The final state of a run of the features script: where its texts
    can be drawn the canvas is the working canvas cropped to 3043 rows,
    whether the save succeeds or not. *)
Lemma features_final {B : Backend} env :
  exists r s,
    Features.create_infographic env = Some (r, s)
    /\ st_img s = (if features_texts_draw env
                   then crop (st_img (snd (features_working env))) (0, 0, 1200, 3043)
                   else st_img (snd (features_working env)))
    /\ st_trail s = st_trail (snd (features_working env))
    /\ st_y s = st_y (snd (features_working env))
    /\ r = (if features_texts_draw env && writable env Features.OUTPUT_PATH
            then Some tt else None)
    /\ st_files s = (if features_texts_draw env && writable env Features.OUTPUT_PATH
                     then [(Features.OUTPUT_PATH,
                            crop (st_img (snd (features_working env)))
                                 (0, 0, 1200, 3043))]
                     else []).
Proof.
  destruct (features_texts_draw env) eqn:D; cbn [andb].
  - rewrite (features_create_from_working env D).
    destruct (features_working_facts env D) as (_ & Fi & _ & _ & Y & _).
    destruct (writable env Features.OUTPUT_PATH) eqn:W.
    + rewrite (features_export_spec env _ W). cbv zeta. rewrite Y, Fi.
      change (3033 + 10 <? Features.HEIGHT) with true. cbv iota.
      eexists. eexists. split; [reflexivity | ].
      cbn [st_img st_trail st_y st_files app]. repeat split.
    + rewrite (features_export_fails env _ W). cbv zeta. rewrite Y, Fi.
      change (3033 + 10 <? Features.HEIGHT) with true. cbv iota.
      eexists. eexists. split; [reflexivity | ].
      cbn [st_img st_trail st_y st_files]. repeat split.
  - rewrite (features_create_breaks env D).
    destruct (features_working_breaks env D) as (_ & Fi & _).
    eexists. eexists. split; [reflexivity | ]. rewrite Fi. repeat split.
Qed.

(** X14.  A run of either script raises in exactly two cases.  One:
    the fonts could not be loaded and the default font that stands in
    for them is the bitmap font; [draw.text] then raises at the first
    bullet, with the cursor in the first block of cards (at 380 or 360
    in [create_infographic.py], at 683 in
    [create_features_infographic.py]).  Two: the output path cannot be
    written; the save is the one other step whose failure nothing
    catches, and comes after the whole page has been drawn.  In both
    cases no file has been written.  Otherwise exactly one file is
    written, at [OUTPUT_PATH], and the yield script returns that
    path. *)
Theorem run_raises_on_bitmap_font_or_unwritable {B : Backend} (env : Env) :
  (exists r s,
      Yield.create_infographic env = Some (r, s)
      /\ (r = None <->
          (yield_fonts_load env = false /\ bitmap_default_font = true)
          \/ writable env Yield.OUTPUT_PATH = false)
      /\ (r = None -> st_files s = [])
      /\ (r <> None -> r = Some Yield.OUTPUT_PATH
                       /\ List.map fst (st_files s) = [Yield.OUTPUT_PATH])
      /\ (if yield_fonts_load env || negb bitmap_default_font
          then st_y s = 1450 \/ st_y s = 1430
          else st_y s = 380 \/ st_y s = 360))
  /\ (exists r s,
         Features.create_infographic env = Some (r, s)
         /\ (r = None <->
             (features_fonts_load env = false /\ bitmap_default_font = true)
             \/ writable env Features.OUTPUT_PATH = false)
         /\ (r = None -> st_files s = [])
         /\ (r <> None -> List.map fst (st_files s) = [Features.OUTPUT_PATH])
         /\ st_y s = (if features_fonts_load env || negb bitmap_default_font
                      then 3033 else 683)).
Proof.
  split.
  - destruct (yield_final env) as (r & s & E & _ & _ & Y & R & F).
    exists r, s. split; [exact E | ]. subst r. rewrite F, Y.
    fold (yield_texts_draw env).
    assert (C : yield_texts_draw env = false
                <-> yield_fonts_load env = false /\ bitmap_default_font = true).
    { unfold yield_texts_draw.
      destruct (yield_fonts_load env); destruct bitmap_default_font; cbn;
        intuition congruence. }
    destruct (yield_texts_draw env) eqn:D; cbn [andb].
    + destruct (yield_working_facts env D) as (_ & _ & _ & _ & N & S).
      assert (P : st_y (snd (yield_working env)) = 1450
                  \/ st_y (snd (yield_working env)) = 1430).
      { destruct (image_file env Yield.LOGO_PATH) as [mode | ].
        - left. apply (S mode eq_refl).
        - right. apply (N eq_refl). }
      destruct (writable env Yield.OUTPUT_PATH).
      * split; [split; [discriminate | ] | ].
        { intros [X | X]; [apply C in X | ]; discriminate. }
        split; [discriminate | ]. split; [intros _; split; reflexivity | exact P].
      * split; [split; [intros _; right | ]; reflexivity | ].
        split; [reflexivity | ]. split; [intros X; congruence | exact P].
    + destruct (yield_working_breaks env D) as (_ & _ & _ & _ & N & S).
      split; [split; [intros _; left; apply C | ]; reflexivity | ].
      split; [reflexivity | ]. split; [intros X; congruence | ].
      destruct (image_file env Yield.LOGO_PATH) as [mode | ].
      * left. apply (S mode eq_refl).
      * right. apply (N eq_refl).
  - destruct (features_final env) as (r & s & E & _ & _ & Y & R & F).
    exists r, s. split; [exact E | ]. subst r. rewrite F, Y.
    fold (features_texts_draw env).
    assert (C : features_texts_draw env = false
                <-> features_fonts_load env = false /\ bitmap_default_font = true).
    { unfold features_texts_draw.
      destruct (features_fonts_load env); destruct bitmap_default_font; cbn;
        intuition congruence. }
    destruct (features_texts_draw env) eqn:D; cbn [andb].
    + destruct (features_working_facts env D) as (_ & _ & _ & _ & P & _).
      destruct (writable env Features.OUTPUT_PATH).
      * split; [split; [discriminate | ] | ].
        { intros [X | X]; [apply C in X | ]; discriminate. }
        split; [discriminate | ]. split; [intros _; reflexivity | exact P].
      * split; [split; [intros _; right | ]; reflexivity | ].
        split; [reflexivity | ]. split; [intros X; congruence | exact P].
    + destruct (features_working_breaks env D) as (_ & _ & _ & _ & P & _).
      split; [split; [intros _; left; apply C | ]; reflexivity | ].
      split; [reflexivity | ]. split; [intros X; congruence | exact P].
Qed.

(** The shapes of a run that gets to the save, where each can be
    computed: for each outcome of the font loading and of the logo
    block. *)
Lemma yield_shapes {B : Backend} env :
  yield_texts_draw env = true ->
  forallb (shape_inside 1200 1600) (calls (st_img (snd (yield_working env)))) = true
  /\ forallb (within_bands (st_trail (snd (yield_working env))))
             (calls (st_img (snd (yield_working env)))) = true.
Proof.
  destruct B as [er sb bd].
  unfold yield_texts_draw, yield_working, Yield.layout, Yield.header.
  rewrite yield_load_fonts_cases. cbn [bitmap_default_font].
  destruct (yield_fonts_load env); destruct bd; cbn [orb negb]; intros D;
    try discriminate D; clear D;
    destruct (image_file env Yield.LOGO_PATH);
    split; lazy; reflexivity.
Qed.

Lemma features_shapes {B : Backend} env :
  features_texts_draw env = true ->
  forallb (shape_inside 1200 3043) (calls (st_img (snd (features_working env)))) = true
  /\ forallb (within_bands (st_trail (snd (features_working env))))
             (calls (st_img (snd (features_working env)))) = true.
Proof.
  destruct B as [er sb bd].
  unfold features_texts_draw, features_working, Features.layout, Features.header.
  rewrite features_load_fonts_cases. cbn [bitmap_default_font].
  destruct (features_fonts_load env); destruct bd; cbn [orb negb]; intros D;
    try discriminate D; clear D;
    cbn [Features.f_brand features_loaded_fonts features_default_fonts];
    destruct (image_file env Features.GLOBE_PATH);
    match goal with
    | |- context [text_bbox env ?f ?t] =>
        destruct (text_bbox env f t) as [[[[bx0 by0] bx2] by2] | ]
    end;
    split; lazy; reflexivity.
Qed.

(** X15.  In every run of either script in which every text can be
    drawn (the fonts load, or the default font is not the bitmap font),
    whatever images are available, every rectangle, ellipse and gradient
    drawn lies inside the image that is saved (for the features script:
    above the row at which the canvas is cropped, the final cursor plus
    10), and between two consecutive values of the cursor: no shape
    crosses a position of the cursor, so the shapes of one block do not
    reach into the next. *)
Theorem shapes_stay_in_their_blocks {B : Backend} (env : Env) :
  (yield_texts_draw env = true ->
   exists r s,
      Yield.create_infographic env = Some (r, s)
      /\ forallb (shape_inside Yield.WIDTH Yield.HEIGHT) (calls (st_img s)) = true
      /\ forallb (within_bands (st_trail s)) (calls (st_img s)) = true)
  /\ (features_texts_draw env = true ->
      exists r s,
         Features.create_infographic env = Some (r, s)
         /\ canvas_size (st_img s) = (Features.WIDTH, st_y s + 10)
         /\ forallb (shape_inside Features.WIDTH (st_y s + 10)) (calls (st_img s))
            = true
         /\ forallb (within_bands (st_trail s)) (calls (st_img s)) = true).
Proof.
  split.
  - intros D. destruct (yield_final env) as (r & s & E & I & T & _).
    destruct (yield_shapes env D) as [S W].
    exists r, s. split; [exact E | ]. rewrite I, T. split; assumption.
  - intros D. destruct (features_final env) as (r & s & E & I & T & Y & _).
    destruct (features_shapes env D) as [S W].
    destruct (features_working_facts env D) as (_ & _ & _ & _ & Y' & _).
    rewrite D in I.
    exists r, s. split; [exact E | ]. rewrite I, T, Y, Y'.
    split; [reflexivity | ]. unfold crop. cbn [calls].
    rewrite !forallb_app. rewrite W. split; [ | reflexivity].
    change (3033 + 10) with 3043. change Features.WIDTH with 1200. rewrite S.
    reflexivity.
Qed.

Lemma shapes_stay_in_their_blocks_witness :
  exists r s,
    Features.create_infographic (H := reference_backend) bare_env = Some (r, s)
    /\ canvas_size (st_img s) = (Features.WIDTH, st_y s + 10).
Proof.
  destruct (proj2 (shapes_stay_in_their_blocks (B := reference_backend) bare_env)
              eq_refl) as (r & s & E & C & _).
  exists r, s. split; [exact E | exact C].
Defined.

(** With the logo, the yield script draws below its header what it draws
    without it, 20 rows lower; so it does in a run that raises at the
    first bullet. *)
Lemma yield_logo_shift {B : Backend} env mode :
  image_file env Yield.LOGO_PATH = Some mode ->
  tl (calls (st_img (snd (yield_working env))))
  = List.map (shift_call 20)
             (tl (calls (st_img (snd (yield_working (without_images env))))))
  /\ tl (st_trail (snd (yield_working env)))
     = List.map (fun y => y + 20)
                (tl (st_trail (snd (yield_working (without_images env))))).
Proof.
  intros L. destruct B as [er sb bd].
  unfold yield_working, Yield.layout, Yield.header.
  rewrite !yield_load_fonts_cases.
  change (yield_fonts_load (without_images env)) with (yield_fonts_load env).
  change (image_file (without_images env) Yield.LOGO_PATH) with (@None string).
  rewrite L.
  destruct (yield_fonts_load env); destruct bd; split; lazy; reflexivity.
Qed.

(** The first call of a run of the yield script. *)
Lemma yield_first_call {B : Backend} env :
  (image_file env Yield.LOGO_PATH = None ->
   hd_error (calls (st_img (snd (yield_working env))))
   = Some (Text (600, 80) "OmniBazaar" (Yield.font_large (Yield.load_fonts env))
                (0, 212, 170) (Some "mm"%string)))
  /\ (forall mode, image_file env Yield.LOGO_PATH = Some mode ->
      hd_error (calls (st_img (snd (yield_working env))))
      = Some (Paste (Asset Yield.LOGO_PATH mode (400, 120)) (400, 30)
                    (String.eqb mode "RGBA"))).
Proof.
  destruct (yield_texts_draw env) eqn:D.
  - destruct (yield_working_facts env D) as (_ & _ & _ & _ & N & S).
    split; [intros L; apply (N L) | intros mode L; apply (S mode L)].
  - destruct (yield_working_breaks env D) as (_ & _ & _ & _ & N & S).
    split; [intros L; apply (N L) | intros mode L; apply (S mode L)].
Qed.

(** The features script draws the same thing whenever its logo block
    falls back to the text header: when the globe cannot be opened, and
    when the brand name cannot be measured. *)
Lemma features_logo_none {B : Backend} env :
  image_file env Features.GLOBE_PATH = None ->
  snd (features_working env) = snd (features_working (without_images env)).
Proof.
  intros L.
  unfold features_working, Features.layout, Features.header.
  change (Features.load_fonts (without_images env)) with (Features.load_fonts env).
  change (image_file (without_images env) Features.GLOBE_PATH) with (@None string).
  rewrite L. reflexivity.
Qed.

Lemma features_logo_unmeasured {B : Backend} env mode :
  image_file env Features.GLOBE_PATH = Some mode ->
  text_bbox env (Features.f_brand (Features.load_fonts env)) "OmniBazaar" = None ->
  snd (features_working env) = snd (features_working (without_images env)).
Proof.
  intros L M.
  unfold features_working, Features.layout, Features.header.
  change (Features.load_fonts (without_images env)) with (Features.load_fonts env).
  change (image_file (without_images env) Features.GLOBE_PATH) with (@None string).
  rewrite L. cbn [lift bind ret]. rewrite M. reflexivity.
Qed.

(** With the globe, it draws the globe and the brand name, then what it
    draws after the text header, and moves the cursor as it does after
    the text header. *)
Lemma features_logo_some {B : Backend} env mode bx0 by0 bx2 by2 :
  image_file env Features.GLOBE_PATH = Some mode ->
  text_bbox env (Features.f_brand (Features.load_fonts env)) "OmniBazaar"
  = Some (bx0, by0, bx2, by2) ->
  calls (st_img (snd (features_working env)))
  = Paste (Asset Features.GLOBE_PATH "RGBA" (90, 90))
          ((1200 - (90 + 16 + (bx2 - bx0))) / 2, 20) true
    :: Text ((1200 - (90 + 16 + (bx2 - bx0))) / 2 + 106, 38) "OmniBazaar"
            (Features.f_brand (Features.load_fonts env)) (255, 255, 255) None
    :: tl (calls (st_img (snd (features_working (without_images env)))))
  /\ st_trail (snd (features_working env))
     = st_trail (snd (features_working (without_images env)))
  /\ canvas_size (st_img (snd (features_working env)))
     = canvas_size (st_img (snd (features_working (without_images env)))).
Proof.
  intros L M. revert M. destruct B as [er sb bd].
  unfold features_working, Features.layout, Features.header.
  change (Features.load_fonts (without_images env)) with (Features.load_fonts env).
  change (image_file (without_images env) Features.GLOBE_PATH) with (@None string).
  rewrite L. rewrite features_load_fonts_cases.
  destruct (features_fonts_load env); destruct bd; intros M;
    cbn [lift bind ret]; rewrite M; repeat split; reflexivity.
Qed.

(** The first call of a run of the features script whose logo block
    fell back to the text header. *)
Lemma features_first_call {B : Backend} env :
  features_logo_loads env = false ->
  hd_error (calls (st_img (snd (features_working env))))
  = Some (Text (600, 60) "OmniBazaar" (Features.f_brand (Features.load_fonts env))
               (0, 212, 170) (Some "mm"%string)).
Proof.
  intros L. destruct (features_texts_draw env) eqn:D.
  - destruct (features_working_facts env D) as (_ & _ & _ & _ & _ & _ & N & _).
    apply (N L).
  - destruct (features_working_breaks env D) as (_ & _ & _ & _ & _ & _ & _ & N).
    apply (N L).
Qed.

Lemma features_header_cases {B : Backend} env :
  exists rest,
    calls (st_img (snd (features_working (without_images env))))
    = Text (600, 60) "OmniBazaar" (Features.f_brand (Features.load_fonts env))
           (0, 212, 170) (Some "mm"%string) :: rest
    /\ st_trail (snd (features_working env))
       = st_trail (snd (features_working (without_images env)))
    /\ canvas_size (st_img (snd (features_working env)))
       = canvas_size (st_img (snd (features_working (without_images env))))
    /\ (calls (st_img (snd (features_working env)))
        = calls (st_img (snd (features_working (without_images env))))
        \/ exists gx,
            calls (st_img (snd (features_working env)))
            = Paste (Asset Features.GLOBE_PATH "RGBA" (90, 90)) (gx, 20) true
              :: Text (gx + 106, 38) "OmniBazaar"
                      (Features.f_brand (Features.load_fonts env))
                      (255, 255, 255) None
              :: rest).
Proof.
  exists (tl (calls (st_img (snd (features_working (without_images env)))))).
  split.
  - pose proof (features_first_call (without_images env) eq_refl) as H.
    change (Features.load_fonts (without_images env))
      with (Features.load_fonts env) in H.
    destruct (calls (st_img (snd (features_working (without_images env)))))
      as [ | c l]; [discriminate | ].
    injection H as ->. reflexivity.
  - destruct (image_file env Features.GLOBE_PATH) as [mode | ] eqn:L.
    + destruct (text_bbox env (Features.f_brand (Features.load_fonts env)) "OmniBazaar")
        as [[[[bx0 by0] bx2] by2] | ] eqn:M.
      * destruct (features_logo_some env mode bx0 by0 bx2 by2 L M) as (C & T & S).
        split; [exact T | ]. split; [exact S | ].
        right. exists ((1200 - (90 + 16 + (bx2 - bx0))) / 2). exact C.
      * rewrite (features_logo_unmeasured env mode L M).
        split; [reflexivity | ]. split; [reflexivity | ]. left. reflexivity.
    + rewrite (features_logo_none env L).
      split; [reflexivity | ]. split; [reflexivity | ]. left. reflexivity.
Qed.

(** X16.  The outcome of the logo block changes the header and nothing
    else.  In [create_infographic.py], a run with the logo makes, after
    the paste of the logo, the calls of a run without image files moved
    down by 20 rows, and its cursor takes the same values plus 20.  In
    [create_features_infographic.py] the cursor takes the same values
    either way, the saved image has the same size, and the calls after
    the header (the text alone, or the globe and the text) are the
    same. *)
Theorem logo_fallback_only_changes_the_header {B : Backend} (env : Env) :
  (forall mode, image_file env Yield.LOGO_PATH = Some mode ->
     exists r s r0 s0,
       Yield.create_infographic env = Some (r, s)
       /\ Yield.create_infographic (without_images env) = Some (r0, s0)
       /\ hd_error (calls (st_img s))
          = Some (Paste (Asset Yield.LOGO_PATH mode (400, 120)) (400, 30)
                        (String.eqb mode "RGBA"))
       /\ hd_error (calls (st_img s0))
          = Some (Text (600, 80) "OmniBazaar"
                       (Yield.font_large (Yield.load_fonts env))
                       (0, 212, 170) (Some "mm"%string))
       /\ tl (calls (st_img s)) = List.map (shift_call 20) (tl (calls (st_img s0)))
       /\ tl (st_trail s) = List.map (fun y => y + 20) (tl (st_trail s0)))
  /\ (exists r s r0 s0 rest,
         Features.create_infographic env = Some (r, s)
         /\ Features.create_infographic (without_images env) = Some (r0, s0)
         /\ st_trail s = st_trail s0
         /\ canvas_size (st_img s) = canvas_size (st_img s0)
         /\ calls (st_img s0)
            = Text (600, 60) "OmniBazaar"
                   (Features.f_brand (Features.load_fonts env))
                   (0, 212, 170) (Some "mm"%string) :: rest
         /\ (calls (st_img s) = calls (st_img s0)
             \/ exists gx,
                 calls (st_img s)
                 = Paste (Asset Features.GLOBE_PATH "RGBA" (90, 90)) (gx, 20) true
                   :: Text (gx + 106, 38) "OmniBazaar"
                           (Features.f_brand (Features.load_fonts env))
                           (255, 255, 255) None
                   :: rest)).
Proof.
  split.
  - intros mode L.
    destruct (yield_final env) as (r & s & E & I & T & _).
    destruct (yield_final (without_images env)) as (r0 & s0 & E0 & I0 & T0 & _).
    destruct (yield_logo_shift env mode L) as [C Tr].
    destruct (yield_first_call env) as [_ S].
    destruct (yield_first_call (without_images env)) as [N _].
    exists r, s, r0, s0. split; [exact E | ]. split; [exact E0 | ].
    rewrite I, I0, T, T0.
    split; [apply (S mode L) | ]. split; [apply (N eq_refl) | ].
    split; [exact C | exact Tr].
  - destruct (features_final env) as (r & s & E & I & T & _).
    destruct (features_final (without_images env)) as (r0 & s0 & E0 & I0 & T0 & _).
    destruct (features_header_cases env) as (rest & H0 & HT & HS & H1).
    change (features_texts_draw (without_images env))
      with (features_texts_draw env) in I0.
    destruct (features_texts_draw env).
    + exists r, s, r0, s0, (rest ++ [Crop (0, 0, 1200, 3043)]).
      split; [exact E | ]. split; [exact E0 | ].
      rewrite I, I0, T, T0. unfold crop. cbn [calls canvas_size].
      split; [exact HT | ]. split; [reflexivity | ].
      rewrite H0. split; [reflexivity | ].
      destruct H1 as [H1 | [gx H1]].
      * left. rewrite H1, H0. reflexivity.
      * right. exists gx. rewrite H1. reflexivity.
    + exists r, s, r0, s0, rest.
      split; [exact E | ]. split; [exact E0 | ].
      rewrite I, I0, T, T0.
      split; [exact HT | ]. split; [exact HS | ]. split; [exact H0 | exact H1].
Qed.

Lemma logo_fallback_only_changes_the_header_witness :
  exists r s r0 s0,
    Yield.create_infographic (H := reference_backend) full_env = Some (r, s)
    /\ Yield.create_infographic (H := reference_backend) (without_images full_env)
       = Some (r0, s0)
    /\ tl (st_trail s) = List.map (fun y => y + 20) (tl (st_trail s0)).
Proof.
  destruct (proj1 (logo_fallback_only_changes_the_header (B := reference_backend)
                     full_env) "RGBA"%string eq_refl)
    as (r & s & r0 & s0 & E & E0 & _ & _ & _ & T).
  exists r, s, r0, s0. split; [exact E | ]. split; [exact E0 | exact T].
Defined.
